(** * Boolean transformational prover

    A shallow embedding of the logic core (expressions, evaluator, rewrite
    rules, truth tables, parenthesizer, AST constructor and proof search),
    with the properties of its specification stated over it. *)

From Stdlib Require Import ZArith String Ascii List Bool Lia.
From stdpp Require Import gmap mapset strings list sorting pretty.

Local Open Scope string_scope.
Local Open Scope list_scope.
Local Open Scope Z_scope.

(** ** expressions.ts *)

(** The four concrete subclasses of the abstract class [BinaryOperation],
    named by [getOperatorName]. *)
Inductive Operator : Type := AND | OR | IMP | IFF.

(** The class hierarchy below [BooleanExpression].  The class [Variable] is
    the constructor [Var]. *)
Inductive BooleanExpression : Type :=
  | Var (name : string)
  | Negation (expression : BooleanExpression)
  | BinaryOperation (op : Operator) (left right : BooleanExpression)
  | TrueConstant
  | FalseConstant.

Abbreviation Conjunction := (BinaryOperation AND).
Abbreviation Disjunction := (BinaryOperation OR).
Abbreviation Implication := (BinaryOperation IMP).
Abbreviation Biconditional := (BinaryOperation IFF).

#[global] Instance Operator_eq_dec : EqDecision Operator.
Proof. solve_decision. Defined.

#[global] Instance BooleanExpression_eq_dec : EqDecision BooleanExpression.
Proof. solve_decision. Defined.

(** [Assignment = Record<string, boolean>]: a plain object, as a finite map
    from its own keys to booleans.  [name in assignment] is taken as
    membership among the own keys: so it is for every own key, and for every
    other name but the dozen that a plain object inherits from
    [Object.prototype] ([constructor], [toString], [__proto__], ...), which
    this model leaves out. *)
Abbreviation Assignment := (gmap string bool).

(** [evaluate]; [None] is the thrown "Variable not found in assignment".
    [&&] and [||] evaluate their right operand only when the left one does
    not decide the result. *)
Fixpoint evaluate (e : BooleanExpression) (assignment : Assignment) : option bool :=
  match e with
  | Var name => assignment !! name
  | Negation inner => negb <$> evaluate inner assignment
  | BinaryOperation AND l r =>
      match evaluate l assignment with
      | Some true => evaluate r assignment
      | Some false => Some false
      | None => None
      end
  | BinaryOperation OR l r =>
      match evaluate l assignment with
      | Some true => Some true
      | Some false => evaluate r assignment
      | None => None
      end
  | BinaryOperation IMP l r =>
      match evaluate l assignment with
      | Some true => evaluate r assignment
      | Some false => Some true
      | None => None
      end
  | BinaryOperation IFF l r =>
      match evaluate l assignment with
      | Some leftVal =>
          match evaluate r assignment with
          | Some rightVal =>
              Some ((leftVal && rightVal) || (negb leftVal && negb rightVal))%bool
          | None => None
          end
      | None => None
      end
  | TrueConstant => Some true
  | FalseConstant => Some false
  end.

(** [equals]: same class and equal children. *)
Fixpoint equals (e other : BooleanExpression) : bool :=
  match e, other with
  | Var n, Var m => String.eqb n m
  | Negation a, Negation b => equals a b
  | BinaryOperation o1 l1 r1, BinaryOperation o2 l2 r2 =>
      bool_decide (o2 = o1) && equals l1 l2 && equals r1 r2
  | TrueConstant, TrueConstant => true
  | FalseConstant, FalseConstant => true
  | _, _ => false
  end.

Fixpoint clone (e : BooleanExpression) : BooleanExpression :=
  match e with
  | Var name => Var name
  | Negation inner => Negation (clone inner)
  | BinaryOperation op l r => BinaryOperation op (clone l) (clone r)
  | TrueConstant => TrueConstant
  | FalseConstant => FalseConstant
  end.

Fixpoint getLength (e : BooleanExpression) : Z :=
  match e with
  | Var _ => 1
  | Negation inner => getLength inner + 1
  | BinaryOperation _ l r => getLength l + getLength r + 1
  | TrueConstant => 1
  | FalseConstant => 1
  end.

Fixpoint getVariables (e : BooleanExpression) : gset string :=
  match e with
  | Var name => {[ name ]}
  | Negation inner => getVariables inner
  | BinaryOperation _ l r => getVariables l ∪ getVariables r
  | TrueConstant => ∅
  | FalseConstant => ∅
  end.

Definition getOperatorName (op : Operator) : string :=
  match op with
  | AND => "AND"
  | OR => "OR"
  | IMP => "IMP"
  | IFF => "IFF"
  end.

Definition getOperatorSymbol (op : Operator) : string :=
  match op with
  | AND => "&"
  | OR => "|"
  | IMP => "=>"
  | IFF => "<=>"
  end.

Fixpoint getHash (e : BooleanExpression) : string :=
  match e with
  | Var name => "VAR(" +:+ name +:+ ")"
  | Negation inner => "NOT(" +:+ getHash inner +:+ ")"
  | BinaryOperation op l r =>
      getOperatorName op +:+ "(" +:+ getHash l +:+ ", " +:+ getHash r +:+ ")"
  | TrueConstant => "TRUE"
  | FalseConstant => "FALSE"
  end.

(** Type guards. *)
Definition isVariable (e : BooleanExpression) : bool :=
  match e with Var _ => true | _ => false end.
Definition isNegation (e : BooleanExpression) : bool :=
  match e with Negation _ => true | _ => false end.
Definition isConjunction (e : BooleanExpression) : bool :=
  match e with Conjunction _ _ => true | _ => false end.
Definition isDisjunction (e : BooleanExpression) : bool :=
  match e with Disjunction _ _ => true | _ => false end.
Definition isImplication (e : BooleanExpression) : bool :=
  match e with Implication _ _ => true | _ => false end.
Definition isBiconditional (e : BooleanExpression) : bool :=
  match e with Biconditional _ _ => true | _ => false end.
Definition isTrueConstant (e : BooleanExpression) : bool :=
  match e with TrueConstant => true | _ => false end.
Definition isFalseConstant (e : BooleanExpression) : bool :=
  match e with FalseConstant => true | _ => false end.
Definition isBinaryOperation (e : BooleanExpression) : bool :=
  match e with BinaryOperation _ _ _ => true | _ => false end.

(** ** rules.ts *)

(** What a call of [apply] produces: an expression, a thrown [Error], or an
    object one of whose children is [undefined] (a field [left] or [right]
    read, through a type assertion, from a node that has none), which is not
    a [BooleanExpression]. *)
Inductive ApplyResult : Type :=
  | Returned (e : BooleanExpression)
  | Thrown (message : string)
  | Malformed.

Record TransformationRule : Type := mkRule {
  name : string;
  category : string;
  description : string;
  canApply : BooleanExpression → bool;
  apply : BooleanExpression → ApplyResult
}.

(** Reading [.left] and [.right] of an object asserted to be a binary
    operation: every [BinaryOperation] has the fields, other nodes give
    [undefined]. *)
Definition field_left (e : BooleanExpression) : option BooleanExpression :=
  match e with BinaryOperation _ l _ => Some l | _ => None end.
Definition field_right (e : BooleanExpression) : option BooleanExpression :=
  match e with BinaryOperation _ _ r => Some r | _ => None end.

Definition CommutativityAND : TransformationRule :=
  mkRule "Commutativity (AND)" "comm_assoc" "P ∧ Q ⟺ Q ∧ P"
    isConjunction
    (fun e => match e with
              | Conjunction l r => Returned (Conjunction r l)
              | _ => Thrown "Cannot apply AND commutativity to non-conjunction"
              end).

Definition CommutativityOR : TransformationRule :=
  mkRule "Commutativity (OR)" "comm_assoc" "P ∨ Q ⟺ Q ∨ P"
    isDisjunction
    (fun e => match e with
              | Disjunction l r => Returned (Disjunction r l)
              | _ => Thrown "Cannot apply OR commutativity to non-disjunction"
              end).

Definition CommutativityIFF : TransformationRule :=
  mkRule "Commutativity (IFF)" "comm_assoc" "P ⟺ Q ⟺ Q ⟺ P"
    isBiconditional
    (fun e => match e with
              | Biconditional l r => Returned (Biconditional r l)
              | _ => Thrown "Cannot apply IFF commutativity to non-biconditional"
              end).

Definition DoubleNegation : TransformationRule :=
  mkRule "Double Negation" "neg" "¬(¬P) ⟺ P"
    (fun e => match e with Negation inner => isNegation inner | _ => false end)
    (fun e => match e with
              | Negation (Negation inner) => Returned inner
              | _ => Thrown "Cannot apply double negation rule"
              end).

Definition ExcludedMiddle_canApply (e : BooleanExpression) : bool :=
  match e with
  | Disjunction l r =>
      match r with
      | Negation r' => equals l r'
      | _ => match l with
             | Negation l' => equals r l'
             | _ => false
             end
      end
  | _ => false
  end.

Definition ExcludedMiddle : TransformationRule :=
  mkRule "Excluded Middle" "lem" "P ∨ ¬P ⟺ true"
    ExcludedMiddle_canApply
    (fun e => if ExcludedMiddle_canApply e then Returned TrueConstant
              else Thrown "Cannot apply excluded middle rule").

Definition Contradiction_canApply (e : BooleanExpression) : bool :=
  match e with
  | Conjunction l r =>
      match r with
      | Negation r' => equals l r'
      | _ => match l with
             | Negation l' => equals r l'
             | _ => false
             end
      end
  | _ => false
  end.

Definition Contradiction : TransformationRule :=
  mkRule "Contradiction" "contr" "P ∧ ¬P ⟺ false"
    Contradiction_canApply
    (fun e => if Contradiction_canApply e then Returned FalseConstant
              else Thrown "Cannot apply contradiction rule").

Definition DeMorganAND : TransformationRule :=
  mkRule "De Morgan's Law (AND)" "dm" "¬(P ∧ Q) ⟺ (¬P) ∨ (¬Q)"
    (fun e => match e with Negation inner => isConjunction inner | _ => false end)
    (fun e => match e with
              | Negation (Conjunction l r) => Returned (Disjunction (Negation l) (Negation r))
              | _ => Thrown "Cannot apply De Morgan's law for AND"
              end).

Definition DeMorganOR : TransformationRule :=
  mkRule "De Morgan's Law (OR)" "dm" "¬(P ∨ Q) ⟺ (¬P) ∧ (¬Q)"
    (fun e => match e with Negation inner => isDisjunction inner | _ => false end)
    (fun e => match e with
              | Negation (Disjunction l r) => Returned (Conjunction (Negation l) (Negation r))
              | _ => Thrown "Cannot apply De Morgan's law for OR"
              end).

Definition DeMorganANDReverse : TransformationRule :=
  mkRule "De Morgan's Law (AND Reverse)" "dm" "(¬P) ∨ (¬Q) ⟺ ¬(P ∧ Q)"
    (fun e => match e with
              | Disjunction l r => isNegation l && isNegation r
              | _ => false
              end)
    (fun e => match e with
              | Disjunction (Negation l) (Negation r) => Returned (Negation (Conjunction l r))
              | _ => Thrown "Cannot apply reverse De Morgan's law for AND"
              end).

Definition DeMorganORReverse : TransformationRule :=
  mkRule "De Morgan's Law (OR Reverse)" "dm" "(¬P) ∧ (¬Q) ⟺ ¬(P ∨ Q)"
    (fun e => match e with
              | Conjunction l r => isNegation l && isNegation r
              | _ => false
              end)
    (fun e => match e with
              | Conjunction (Negation l) (Negation r) => Returned (Negation (Disjunction l r))
              | _ => Thrown "Cannot apply reverse De Morgan's law for OR"
              end).

Definition ImplicationElimination : TransformationRule :=
  mkRule "Implication Elimination" "impl" "P ⇒ Q ⟺ ¬P ∨ Q"
    isImplication
    (fun e => match e with
              | Implication l r => Returned (Disjunction (Negation l) r)
              | _ => Thrown "Cannot apply implication elimination to non-implication"
              end).

Definition ImplicationEliminationReverse : TransformationRule :=
  mkRule "Implication Elimination (Reverse)" "impl" "¬P ∨ Q ⟺ P ⇒ Q"
    (fun e => match e with Disjunction l _ => isNegation l | _ => false end)
    (fun e => match e with
              | Disjunction (Negation l) r => Returned (Implication l r)
              | _ => Thrown "Cannot apply reverse implication elimination"
              end).

Definition DistributivityAND : TransformationRule :=
  mkRule "Distributivity (AND over OR)" "distr" "P ∧ (Q ∨ R) ⟺ (P ∧ Q) ∨ (P ∧ R)"
    (fun e => match e with Conjunction _ r => isDisjunction r | _ => false end)
    (fun e => match e with
              | Conjunction P (Disjunction Q R) =>
                  Returned (Disjunction (Conjunction P Q) (Conjunction P R))
              | _ => Thrown "Cannot apply AND distributivity"
              end).

Definition DistributivityOR : TransformationRule :=
  mkRule "Distributivity (OR over AND)" "distr" "P ∨ (Q ∧ R) ⟺ (P ∨ Q) ∧ (P ∨ R)"
    (fun e => match e with Disjunction _ r => isConjunction r | _ => false end)
    (fun e => match e with
              | Disjunction P (Conjunction Q R) =>
                  Returned (Conjunction (Disjunction P Q) (Disjunction P R))
              | _ => Thrown "Cannot apply OR distributivity"
              end).

Definition CommutativityANDAND : TransformationRule :=
  mkRule "Commutativity (AND-AND)" "comm_assoc" "(P ∧ Q) ∧ R ⟺ Q ∧ (P ∧ R)"
    (fun e => match e with Conjunction l _ => isConjunction l | _ => false end)
    (fun e => match e with
              | Conjunction (Conjunction ll lr) r => Returned (Conjunction lr (Conjunction ll r))
              | _ => Thrown "Cannot apply AND-AND commutativity"
              end).

Definition CommutativityOROR : TransformationRule :=
  mkRule "Commutativity (OR-OR)" "comm_assoc" "(P ∨ Q) ∨ R ⟺ Q ∨ (P ∨ R)"
    (fun e => match e with Disjunction l _ => isDisjunction l | _ => false end)
    (fun e => match e with
              | Disjunction (Disjunction ll lr) r => Returned (Disjunction lr (Disjunction ll r))
              | _ => Thrown "Cannot apply OR-OR commutativity"
              end).

Definition DistributivityANDReverse : TransformationRule :=
  mkRule "Distributivity (AND Reverse)" "distr" "(P ∧ Q) ∨ (P ∧ R) ⟺ P ∧ (Q ∨ R)"
    (fun e => match e with
              | Disjunction (Conjunction ll _) (Conjunction rl _) => equals ll rl
              | _ => false
              end)
    (fun e => match e with
              | Disjunction l r =>
                  match field_left l, field_right l, field_right r with
                  | Some ll, Some lr, Some rr =>
                      Returned (Conjunction ll (Disjunction lr rr))
                  | _, _, _ => Malformed
                  end
              | _ => Thrown "Cannot apply AND distributivity reverse to non-disjunction"
              end).

Definition DistributivityORReverse : TransformationRule :=
  mkRule "Distributivity (OR Reverse)" "distr" "(P ∨ Q) ∧ (P ∨ R) ⟺ P ∨ (Q ∧ R)"
    (fun e => match e with
              | Conjunction (Disjunction ll _) (Disjunction rl _) => equals ll rl
              | _ => false
              end)
    (fun e => match e with
              | Conjunction l r =>
                  match field_left l, field_right l, field_right r with
                  | Some ll, Some lr, Some rr =>
                      Returned (Disjunction ll (Conjunction lr rr))
                  | _, _, _ => Malformed
                  end
              | _ => Thrown "Cannot apply OR distributivity reverse to non-conjunction"
              end).

Definition Contrapositive : TransformationRule :=
  mkRule "Contrapositive" "contrapos" "(P ⇒ Q) ⟺ (¬Q ⇒ ¬P)"
    (fun e => match e with
              | Implication l r => negb (isNegation l && isNegation r)
              | _ => false
              end)
    (fun e => match e with
              | Implication l r => Returned (Implication (Negation r) (Negation l))
              | _ => Thrown "Cannot apply contrapositive to non-implication"
              end).

Definition Idempotence : TransformationRule :=
  mkRule "Idempotence" "idemp" "P ∧ P ⟺ P ∨ P ⟺ P"
    (fun e => match e with
              | Conjunction l r | Disjunction l r => equals l r
              | _ => false
              end)
    (fun e => match e with
              | BinaryOperation _ l r =>
                  if equals l r then Returned l
                  else Thrown "Cannot apply idempotence rule"
              | _ => Thrown "Cannot apply idempotence rule"
              end).

(** The applicability test shared by the two reverse idempotence rules. *)
Definition IdempotenceReverse_canApply (e : BooleanExpression) : bool :=
  negb (match e with Disjunction l r => equals l r | _ => false end) &&
  negb (match e with Conjunction l r => equals l r | _ => false end).

Definition IdempotenceReverseOR : TransformationRule :=
  mkRule "Idempotence Reverse (OR)" "idemp" "P ⟺ P ∨ P"
    IdempotenceReverse_canApply
    (fun e => Returned (Disjunction e (clone e))).

Definition IdempotenceReverseAND : TransformationRule :=
  mkRule "Idempotence Reverse (AND)" "idemp" "P ⟺ P ∧ P"
    IdempotenceReverse_canApply
    (fun e => Returned (Conjunction e (clone e))).

Definition Equivalence : TransformationRule :=
  mkRule "Equivalence" "equiv" "P ⟺ Q ⟺ (P ⇒ Q) ∧ (Q ⇒ P)"
    isBiconditional
    (fun e => match e with
              | Biconditional l r => Returned (Conjunction (Implication l r) (Implication r l))
              | _ => Thrown "Cannot apply equivalence rule to non-biconditional"
              end).

Definition EquivalenceReverse : TransformationRule :=
  mkRule "Equivalence Reverse" "equiv" "(P ⇒ Q) ∧ (Q ⇒ P) ⟺ P ⟺ Q"
    (fun e => match e with
              | Conjunction (Implication ll lr) (Implication rl rr) =>
                  equals ll rr && equals lr rl
              | _ => false
              end)
    (fun e => match e with
              | Conjunction l _ =>
                  match field_left l, field_right l with
                  | Some ll, Some lr => Returned (Biconditional ll lr)
                  | _, _ => Malformed
                  end
              | _ => Thrown "Cannot apply equivalence reverse to non-conjunction"
              end).

Definition SimplificationWithTrue : TransformationRule :=
  mkRule "Simplification (True)" "simp1" "P ∧ true ⟺ P, P ∨ false ⟺ P"
    (fun e => match e with
              | Conjunction l r => isTrueConstant l || isTrueConstant r
              | Disjunction l r => isFalseConstant l || isFalseConstant r
              | _ => false
              end)
    (fun e => match e with
              | Conjunction l r =>
                  if isTrueConstant l then Returned r
                  else if isTrueConstant r then Returned l
                  else Thrown "Cannot apply simplification with true/false"
              | Disjunction l r =>
                  if isFalseConstant l then Returned r
                  else if isFalseConstant r then Returned l
                  else Thrown "Cannot apply simplification with true/false"
              | _ => Thrown "Cannot apply simplification with true/false"
              end).

Definition SimplificationWithFalse : TransformationRule :=
  mkRule "Simplification (False)" "simp1" "P ∨ true ⟺ true, P ∧ false ⟺ false"
    (fun e => match e with
              | Disjunction l r => isTrueConstant l || isTrueConstant r
              | Conjunction l r => isFalseConstant l || isFalseConstant r
              | _ => false
              end)
    (fun e => match e with
              | Disjunction _ _ => Returned TrueConstant
              | Conjunction _ _ => Returned FalseConstant
              | _ => Thrown "Cannot apply simplification with true/false"
              end).

(** The applicability test shared by the two reverse simplification rules. *)
Definition Simplification1Reverse_canApply (e : BooleanExpression) : bool :=
  negb (match e with
        | Conjunction l r => isTrueConstant l || isTrueConstant r
        | _ => false
        end) &&
  negb (match e with
        | Disjunction l r => isFalseConstant l || isFalseConstant r
        | _ => false
        end).

Definition Simplification1AndReverse : TransformationRule :=
  mkRule "Simplification 1 (AND Reverse)" "simp1" "P ⟺ P ∧ True"
    Simplification1Reverse_canApply
    (fun e => Returned (Conjunction e TrueConstant)).

Definition Simplification1OrReverse : TransformationRule :=
  mkRule "Simplification 1 (OR Reverse)" "simp1" "P ⟺ P ∨ False"
    Simplification1Reverse_canApply
    (fun e => Returned (Disjunction e FalseConstant)).

Definition Simplification1True : TransformationRule :=
  mkRule "Simplification 1 (True)" "simp1" "P ∨ True ⟺ True"
    (fun e => match e with
              | Disjunction l r => isTrueConstant l || isTrueConstant r
              | _ => false
              end)
    (fun _ => Returned TrueConstant).

Definition Simplification1False : TransformationRule :=
  mkRule "Simplification 1 (False)" "simp1" "P ∧ False ⟺ False"
    (fun e => match e with
              | Conjunction l r => isFalseConstant l || isFalseConstant r
              | _ => false
              end)
    (fun _ => Returned FalseConstant).

Definition Simplification2Or : TransformationRule :=
  mkRule "Simplification 2 (OR)" "simp2" "P ∨ (P ∧ Q) ⟺ P"
    (fun e => match e with
              | Disjunction l r =>
                  match r with
                  | Conjunction rl rr => equals l rl || equals l rr
                  | _ => match l with
                         | Conjunction ll lr => equals r ll || equals r lr
                         | _ => false
                         end
                  end
              | _ => false
              end)
    (fun e => match e with
              | Disjunction l r => if isConjunction r then Returned l else Returned r
              | _ => Thrown "Cannot apply OR simplification 2 to non-disjunction"
              end).

Definition Simplification2And : TransformationRule :=
  mkRule "Simplification 2 (AND)" "simp2" "P ∧ (P ∨ Q) ⟺ P"
    (fun e => match e with
              | Conjunction l r =>
                  match r with
                  | Disjunction rl rr => equals l rl || equals l rr
                  | _ => match l with
                         | Disjunction ll lr => equals r ll || equals r lr
                         | _ => false
                         end
                  end
              | _ => false
              end)
    (fun e => match e with
              | Conjunction l r => if isDisjunction r then Returned l else Returned r
              | _ => Thrown "Cannot apply AND simplification 2 to non-conjunction"
              end).

Definition ALL_TRANSFORMATION_RULES : list TransformationRule :=
  [ CommutativityAND; CommutativityOR; CommutativityIFF;
    CommutativityANDAND; CommutativityOROR;
    DoubleNegation;
    ExcludedMiddle; Contradiction;
    DeMorganAND; DeMorganOR; DeMorganANDReverse; DeMorganORReverse;
    ImplicationElimination; ImplicationEliminationReverse; Contrapositive;
    DistributivityAND; DistributivityOR;
    DistributivityANDReverse; DistributivityORReverse;
    Idempotence; IdempotenceReverseOR; IdempotenceReverseAND;
    Equivalence; EquivalenceReverse;
    SimplificationWithTrue; SimplificationWithFalse;
    Simplification1AndReverse; Simplification1OrReverse;
    Simplification1True; Simplification1False;
    Simplification2Or; Simplification2And ].

(** The rules of the catalogue whose [apply] repeats the test of [canApply]
    before building its result. *)
Definition GUARDED_RULES : list TransformationRule :=
  [ CommutativityAND; CommutativityOR; CommutativityIFF;
    CommutativityANDAND; CommutativityOROR;
    DoubleNegation;
    ExcludedMiddle; Contradiction;
    DeMorganAND; DeMorganOR; DeMorganANDReverse; DeMorganORReverse;
    ImplicationElimination; ImplicationEliminationReverse;
    DistributivityAND; DistributivityOR;
    Equivalence;
    SimplificationWithTrue ].

(** The rules of the catalogue whose [apply] accepts more than [canApply]. *)
Definition UNGUARDED_RULES : list TransformationRule :=
  [ Contrapositive;
    DistributivityANDReverse; DistributivityORReverse;
    Idempotence; IdempotenceReverseOR; IdempotenceReverseAND;
    EquivalenceReverse;
    SimplificationWithFalse;
    Simplification1AndReverse; Simplification1OrReverse;
    Simplification1True; Simplification1False;
    Simplification2Or; Simplification2And ].

(** The truth value of [e] when every variable is read from [σ], absent
    ones as [false]: the total function that [evaluate] computes on
    assignments covering [e]. *)
Fixpoint denote (σ : Assignment) (e : BooleanExpression) : bool :=
  match e with
  | Var n => default false (σ !! n)
  | Negation a => negb (denote σ a)
  | BinaryOperation AND l r => denote σ l && denote σ r
  | BinaryOperation OR l r => denote σ l || denote σ r
  | BinaryOperation IMP l r => negb (denote σ l) || denote σ r
  | BinaryOperation IFF l r =>
      (denote σ l && denote σ r) || (negb (denote σ l) && negb (denote σ r))
  | TrueConstant => true
  | FalseConstant => false
  end.

(** ** constructor.ts: variable names *)

(** [[a-zA-Z]] *)
Definition is_letter (c : ascii) : bool :=
  let n := nat_of_ascii c in
  ((65 <=? n)%nat && (n <=? 90)%nat) || ((97 <=? n)%nat && (n <=? 122)%nat).

(** [\w], that is [[A-Za-z0-9_]] *)
Definition is_word_char (c : ascii) : bool :=
  let n := nat_of_ascii c in
  is_letter c || ((48 <=? n)%nat && (n <=? 57)%nat) || (n =? 95)%nat.

Fixpoint string_forallb (p : ascii → bool) (s : string) : bool :=
  match s with
  | EmptyString => true
  | String c rest => p c && string_forallb p rest
  end.

Definition reservedWords : list string :=
  ["true"; "false"; "&"; "|"; "!"; "=>"; "<=>"; "("; ")"].

(** [!reservedWords.includes(token) && /^[a-zA-Z]\w*$/.test(token)] *)
Definition isValidVariableName (token : string) : bool :=
  negb (existsb (String.eqb token) reservedWords) &&
  match token with
  | EmptyString => false
  | String c rest => is_letter c && string_forallb is_word_char rest
  end.

(** Every variable of [e] carries a name the AST constructor accepts. *)
Fixpoint wellNamed (e : BooleanExpression) : bool :=
  match e with
  | Var n => isValidVariableName n
  | Negation a => wellNamed a
  | BinaryOperation _ l r => wellNamed l && wellNamed r
  | TrueConstant => true
  | FalseConstant => true
  end.

(** ** Thrown errors *)

(** The outcome of a function that either returns or throws an [Error] with
    a message. *)
Inductive Result (A : Type) : Type :=
  | Ok (value : A)
  | Error (message : string).
Arguments Ok {A} value.
Arguments Error {A} message.

(** ** truthTable.ts *)

Definition MAX_TRUTH_TABLE_VARIABLES : Z := 15.

Record VariableCountValidation : Type := mkValidation {
  valid : bool;
  variableCount : Z;
  error : option string
}.

Definition validateVariableCount (expression : BooleanExpression) : VariableCountValidation :=
  let variableCount := Z.of_nat (size (getVariables expression)) in
  if variableCount >? MAX_TRUTH_TABLE_VARIABLES
  then mkValidation false variableCount
         (Some ("Too many variables (" +:+ pretty variableCount +:+
                "). Truth tables are limited to " +:+
                pretty MAX_TRUTH_TABLE_VARIABLES +:+
                " variables maximum to maintain performance. Consider simplifying your expression or breaking it into smaller parts."))
  else mkValidation true variableCount None.

Record TruthTableRow : Type := mkRow {
  assignment : Assignment;
  result : bool
}.

Record TruthTable : Type := mkTruthTable {
  variables : list string;
  rows : list TruthTableRow;
  expression : BooleanExpression
}.

(** [Array.from(expression.getVariables()).sort()]: the names in ascending
    order of their code units, which for names of ASCII characters, as all
    identifiers are, is the order [String.le] of their bytes. *)
Definition sortedVariables (e : BooleanExpression) : list string :=
  merge_sort String.le (elements (getVariables e)).

(** [assignment[name] = value] on a plain object: the own key [name] is
    created or overwritten.  The one exception is the name [__proto__], the
    setter every plain object inherits, which does nothing when it is given
    a boolean: no key is created. *)
Definition writeProperty (name : string) (value : bool) (assignment : Assignment)
  : Assignment :=
  if String.eqb name "__proto__" then assignment
  else <[ name := value ]> assignment.

(** The inner loop of [generateTruthTable], from position [j] on:
    [assignment[variables[j]] = Boolean((i >> bitPosition) & 1)] with
    [bitPosition = variables.length - 1 - j].  Row numbers stay below
    [2^15], where the 32-bit shift of the source is the shift on integers. *)
Fixpoint assignVariables (len i j : Z) (rest : list string) (assignment : Assignment)
  : Assignment :=
  match rest with
  | [] => assignment
  | v :: rest' =>
      let bitPosition := len - 1 - j in
      assignVariables len i (j + 1) rest'
        (writeProperty v (negb (Z.land (Z.shiftr i bitPosition) 1 =? 0)) assignment)
  end.

Definition rowAssignment (variables : list string) (i : Z) : Assignment :=
  assignVariables (Z.of_nat (length variables)) i 0 variables ∅.

(** The body of the row loop: evaluate under the row's assignment; when the
    evaluation throws, the row is recorded with result [false]. *)
Definition makeRow (expression : BooleanExpression) (variables : list string) (i : Z)
  : TruthTableRow :=
  let assignment := rowAssignment variables i in
  match evaluate expression assignment with
  | Some result => mkRow assignment result
  | None => mkRow assignment false
  end.

Definition generateTruthTable (expression : BooleanExpression) : Result TruthTable :=
  let variables := sortedVariables expression in
  let validation := validateVariableCount expression in
  if negb (valid validation)
  then Error (default "" (error validation))
  else
    let numRows := 2 ^ Z.of_nat (length variables) in
    Ok (mkTruthTable variables
          (map (makeRow expression variables) (seqZ 0 numRows))
          expression).

(** ** parser.ts: the parenthesizer

    Tokens are the strings the tokenizer [parseExpression] of parser.ts
    produces; the tokenizer itself (regular-expression rewriting of operator
    synonyms) is not part of this development, which starts from token
    lists. *)

Abbreviation Token := string.

(** [if (token === '(') depth++; else if (token === ')') depth--;] *)
Definition depthStep (token : Token) (depth : Z) : Z :=
  if String.eqb token "(" then depth + 1
  else if String.eqb token ")" then depth - 1
  else depth.

(** The loop of [isFullyParenthesized] over [tokens[0 .. length-2]]. *)
Fixpoint isFullyParenthesized_loop (ts : list Token) (depth : Z) : bool :=
  match ts with
  | [] => true
  | t :: rest =>
      let depth := depthStep t depth in
      if depth =? 0 then false else isFullyParenthesized_loop rest depth
  end.

Definition isFullyParenthesized (tokens : list Token) : bool :=
  if (length tokens <? 3)%nat then false
  else if negb (bool_decide (head tokens = Some "(")) ||
          negb (bool_decide (last tokens = Some ")"))
  then false
  else isFullyParenthesized_loop (take (length tokens - 1) tokens) 0.

Fixpoint validateParentheses_loop (ts : list Token) (depth : Z) : Result Z :=
  match ts with
  | [] => Ok depth
  | t :: rest =>
      if String.eqb t "(" then validateParentheses_loop rest (depth + 1)
      else if String.eqb t ")" then
        if depth - 1 <? 0
        then Error "Unbalanced parentheses: closing parenthesis without matching opening"
        else validateParentheses_loop rest (depth - 1)
      else validateParentheses_loop rest depth
  end.

Definition validateParentheses (tokens : list Token) : Result unit :=
  match validateParentheses_loop tokens 0 with
  | Ok depth =>
      if depth =? 0 then Ok tt
      else Error "Unbalanced parentheses: missing closing parenthesis"
  | Error m => Error m
  end.

(** The copy loop of [addNegationParentheses] after [!(]:
    [while (i < tokens.length && depth > 0)] push the token, adjust the
    depth, advance.  Returns the tokens pushed and how many they are. *)
Fixpoint copyGroup (ts : list Token) (depth : Z) : list Token :=
  match ts with
  | [] => []
  | t :: rest =>
      if 0 <? depth then t :: copyGroup rest (depthStep t depth) else []
  end.

(** [while (j < tokens.length && tokens[j] === '!') { negationCount++; j++ }] *)
Fixpoint countNegations (ts : list Token) : nat :=
  match ts with
  | t :: rest => if String.eqb t "!" then S (countNegations rest) else 0%nat
  | [] => 0%nat
  end.

(** The main loop of [addNegationParentheses].  [ts] are the tokens from
    the current position on; [skip] counts the tokens after it that an
    earlier iteration has consumed already ([i += 2], [i = j + 1], the copy
    loop), so that the index of the source advances by one per unfolding. *)
Fixpoint addNegationParentheses_loop (ts : list Token) (skip : nat)
  : Result (list Token) :=
  match ts with
  | [] => Ok []
  | t :: rest =>
      match skip with
      | S skip' => addNegationParentheses_loop rest skip'
      | O =>
          if String.eqb t "!" then
            match rest with
            | [] => Error "Missing operand after negation"
            | next :: rest' =>
                if String.eqb next "(" then
                  let copied := copyGroup rest' 1 in
                  match addNegationParentheses_loop rest (S (length copied)) with
                  | Ok tail => Ok ("(" :: "!" :: "(" :: copied ++ ")" :: tail)
                  | Error m => Error m
                  end
                else if String.eqb next "!" then
                  let negationCount := countNegations rest in
                  match drop negationCount rest with
                  | [] => Error "Missing operand after negation"
                  | operand :: _ =>
                      match addNegationParentheses_loop rest (S negationCount) with
                      | Ok tail =>
                          Ok ("(" :: "!" ::
                              concat (replicate negationCount ["("; "!"]) ++
                              operand :: replicate negationCount ")" ++
                              ")" :: tail)
                      | Error m => Error m
                      end
                  end
                else
                  match addNegationParentheses_loop rest 1 with
                  | Ok tail => Ok ("(" :: "!" :: next :: ")" :: tail)
                  | Error m => Error m
                  end
            end
          else
            match addNegationParentheses_loop rest 0 with
            | Ok tail => Ok (t :: tail)
            | Error m => Error m
            end
      end
  end.

Definition addNegationParentheses (tokens : list Token) : Result (list Token) :=
  addNegationParentheses_loop tokens 0.

(** [isOperatorInParentheses]: the depth after the first [operatorIndex]
    tokens is positive. *)
Definition isOperatorInParentheses (tokens : list Token) (operatorIndex : nat) : bool :=
  0 <? fold_left (fun depth t => depthStep t depth) (take operatorIndex tokens) 0.

(** [Array.prototype.indexOf(x, fromIndex)]; [None] is [-1]. *)
Fixpoint indexOf_from (ts : list Token) (x : Token) (j : nat) : option nat :=
  match ts with
  | [] => None
  | t :: rest => if String.eqb t x then Some j else indexOf_from rest x (S j)
  end.

Definition indexOf (tokens : list Token) (x : Token) (fromIndex : nat) : option nat :=
  indexOf_from (drop fromIndex tokens) x fromIndex.

(** [Array.prototype.splice(position, 0, x)]: insert [x] at [position]
    (at the end when [position] exceeds the length). *)
Definition splice_insert (tokens : list Token) (position : nat) (x : Token) : list Token :=
  take position tokens ++ x :: drop position tokens.

(** The backward loop of [findLeftOperandStart]:
    [while (i >= 0 && depth > 0)].  [before] holds [tokens[i], tokens[i-1],
    ..., tokens[0]] and [next] is [i + 1]; the result is the final depth and
    the final [i + 1]. *)
Fixpoint scanBackward (before : list Token) (depth : Z) (next : nat) : Z * nat :=
  match before with
  | [] => (depth, next)
  | t :: rest =>
      if 0 <? depth then
        let depth :=
          if String.eqb t ")" then depth + 1
          else if String.eqb t "(" then depth - 1
          else depth in
        scanBackward rest depth (pred next)
      else (depth, next)
  end.

Definition findLeftOperandStart (tokens : list Token) (operatorIndex : nat) : Result nat :=
  if bool_decide (tokens !! (operatorIndex - 1)%nat = Some ")") then
    let '(depth, next) :=
      scanBackward (rev (take (operatorIndex - 1) tokens)) 1 (operatorIndex - 1)%nat in
    if depth =? 0 then Ok next
    else Error "Unbalanced parentheses in left operand"
  else Ok (operatorIndex - 1)%nat.

(** The forward loop of [findRightOperandEnd]:
    [while (i < tokens.length && depth > 0)], [ts] being the tokens from [i]
    on; the result is the final depth and the final [i]. *)
Fixpoint scanForward (ts : list Token) (depth : Z) (i : nat) : Z * nat :=
  match ts with
  | [] => (depth, i)
  | t :: rest =>
      if 0 <? depth then scanForward rest (depthStep t depth) (S i)
      else (depth, i)
  end.

Definition findRightOperandEnd (tokens : list Token) (operatorIndex : nat) : Result nat :=
  if bool_decide (tokens !! (operatorIndex + 1)%nat = Some "(") then
    let '(depth, i) :=
      scanForward (drop (operatorIndex + 2) tokens) 1 (operatorIndex + 2)%nat in
    if depth =? 0 then Ok (i - 1)%nat
    else Error "Unbalanced parentheses in right operand"
  else Ok (operatorIndex + 1)%nat.

(** The positions of [operator] outside parentheses, rightmost first. *)
Definition operatorIndices (tokens : list Token) (operator : Token) : list nat :=
  filter (fun i => tokens !! i = Some operator ∧
                   isOperatorInParentheses tokens i = false)
         (reverse (seq 0 (length tokens))).

(** One iteration of the loop over [indices] in [addOperatorParentheses]. *)
Definition addOperatorParentheses_step (operator : Token) (result : list Token) (index : nat)
  : Result (list Token) :=
  if (length result <=? index)%nat then Ok result
  else
    match indexOf result operator index with
    | None => Ok result
    | Some actualIndex =>
        if (actualIndex =? 0)%nat || (actualIndex =? length result - 1)%nat
        then Error ("Missing operand for operator '" +:+ operator +:+ "'")
        else
          match findLeftOperandStart result actualIndex with
          | Error m => Error m
          | Ok leftStart =>
              match findRightOperandEnd result actualIndex with
              | Error m => Error m
              | Ok rightEnd =>
                  Ok (splice_insert (splice_insert result (rightEnd + 1) ")")
                        leftStart "(")
              end
          end
    end.

Fixpoint addOperatorParentheses_loop (operator : Token) (indices : list nat)
         (result : list Token) : Result (list Token) :=
  match indices with
  | [] => Ok result
  | index :: indices' =>
      match addOperatorParentheses_step operator result index with
      | Ok result' => addOperatorParentheses_loop operator indices' result'
      | Error m => Error m
      end
  end.

Definition addOperatorParentheses (tokens : list Token) (operator : Token)
  : Result (list Token) :=
  if isFullyParenthesized tokens then Ok tokens
  else addOperatorParentheses_loop operator (operatorIndices tokens operator) tokens.

Fixpoint addParentheses_operators (operators : list Token) (processedTokens : list Token)
  : Result (list Token) :=
  match operators with
  | [] => Ok processedTokens
  | operator :: operators' =>
      match addOperatorParentheses processedTokens operator with
      | Ok processedTokens' => addParentheses_operators operators' processedTokens'
      | Error m => Error m
      end
  end.

Definition addParentheses (tokens : list Token) : Result (list Token) :=
  match tokens with
  | [] => Error "Expression cannot be empty"
  | _ =>
      match validateParentheses tokens with
      | Error m => Error m
      | Ok _ =>
          if isFullyParenthesized tokens then Ok tokens
          else
            match addNegationParentheses tokens with
            | Error m => Error m
            | Ok processedTokens =>
                addParentheses_operators ["&"; "|"; "=>"; "<=>"] processedTokens
            end
      end
  end.

(** ** constructor.ts: the AST constructor

    The cursor [(tokens, index)] of the source is carried as the list of
    tokens from [index] on, and [nextIndex] as the tokens that remain.  The
    recursion of the descent is bounded by [fuel]; [None] means that the
    fuel ran out, [Some (Error _)] is a thrown [ExpressionParseError]. *)

Abbreviation ParseResult := (BooleanExpression * list Token)%type.

Section descent.
(** [parseExpression], called on the tokens after an opening parenthesis. *)
Variable parseInner : list Token → option (Result ParseResult).

Definition parsePrimary (tokens : list Token) : option (Result ParseResult) :=
  match tokens with
  | [] => Some (Error "Unexpected end of expression")
  | token :: rest =>
    if String.eqb token "(" then
      match parseInner rest with
      | Some (Ok (inner, rest')) =>
          match rest' with
          | t :: rest'' =>
              if String.eqb t ")" then Some (Ok (inner, rest''))
              else Some (Error "Missing closing parenthesis")
          | [] => Some (Error "Missing closing parenthesis")
          end
      | Some (Error m) => Some (Error m)
      | None => None
      end
    else if String.eqb token "true" then Some (Ok (TrueConstant, rest))
    else if String.eqb token "false" then Some (Ok (FalseConstant, rest))
    else if isValidVariableName token then Some (Ok (Var token, rest))
    else Some (Error ("Unexpected token: '" +:+ token +:+ "'"))
  end.

Fixpoint parseNegation (tokens : list Token) : option (Result ParseResult) :=
  match tokens with
  | [] => Some (Error "Unexpected end of expression")
  | token :: rest =>
    if String.eqb token "!" then
      match parseNegation rest with
      | Some (Ok (inner, rest')) => Some (Ok (Negation inner, rest'))
      | other => other
      end
    else parsePrimary tokens
  end.

(** The loop shared by the four binary levels:
    [while (nextIndex < tokens.length && tokens[nextIndex] === operator)]
    parse a right operand one level below and combine. *)
Fixpoint binaryLoop (fuel : nat) (operator : Token) (op : Operator)
       (sub : list Token → option (Result ParseResult))
       (result : BooleanExpression) (rest : list Token)
  : option (Result ParseResult) :=
  match rest with
  | t :: rest' =>
    if String.eqb t operator then
      match fuel with
      | O => None
      | S fuel' =>
          match sub rest' with
          | Some (Ok (rightOperand, rest'')) =>
              binaryLoop fuel' operator op sub
                (BinaryOperation op result rightOperand) rest''
          | other => other
          end
      end
    else Some (Ok (result, rest))
  | [] => Some (Ok (result, rest))
  end.

Definition parseLevel (fuel : nat) (operator : Token) (op : Operator)
         (sub : list Token → option (Result ParseResult)) (tokens : list Token)
  : option (Result ParseResult) :=
  match sub tokens with
  | Some (Ok (first, rest)) => binaryLoop fuel operator op sub first rest
  | other => other
  end.

Definition parseConjunction (fuel : nat) := parseLevel fuel "&" AND parseNegation.
Definition parseDisjunction (fuel : nat) := parseLevel fuel "|" OR (parseConjunction fuel).
Definition parseImplication (fuel : nat) := parseLevel fuel "=>" IMP (parseDisjunction fuel).
Definition parseBiconditional (fuel : nat) := parseLevel fuel "<=>" IFF (parseImplication fuel).
End descent.

Fixpoint parseExpression (fuel : nat) (tokens : list Token) : option (Result ParseResult) :=
  match fuel with
  | O => None
  | S fuel' => parseBiconditional (parseExpression fuel') (length tokens) tokens
  end.

(** [constructAST] returns the expression of the first complete parse; the
    tokens that remain are not inspected. *)
Definition constructAST (tokens : list Token) : option (Result BooleanExpression) :=
  match tokens with
  | [] => Some (Error "Expression cannot be empty")
  | _ =>
      match parseExpression (S (length tokens)) tokens with
      | Some (Ok (expression, _)) => Some (Ok expression)
      | Some (Error m) => Some (Error m)
      | None => None
      end
  end.

(** ** index.ts

    [parseToExpression] from the token list on: parenthesize, then construct
    the AST.  An error of the parenthesizer is rethrown as an
    [ExpressionParseError] whose message quotes it. *)
Definition parseToExpression (tokens : list Token) : option (Result BooleanExpression) :=
  match tokens with
  | [] => Some (Error "Expression cannot be empty")
  | _ =>
      match addParentheses tokens with
      | Error m => Some (Error ("Failed to parse expression: Error: " +:+ m))
      | Ok parenthesizedTokens => constructAST parenthesizedTokens
      end
  end.

(** The tokens [x1 op x2 op ... op xn] of an unparenthesized chain. *)
Definition chainTokens (operator : Token) (first : Token) (others : list Token)
  : list Token :=
  first :: flat_map (fun x => [operator; x]) others.

(** [x1 op (x2 op (... op xn))] *)
Fixpoint rightNested (op : Operator) (first : string) (others : list string)
  : BooleanExpression :=
  match others with
  | [] => Var first
  | x :: rest => BinaryOperation op (Var first) (rightNested op x rest)
  end.


(** A token that is neither a parenthesis nor a negation sign. *)
Definition plain (t : Token) : Prop :=
  String.eqb t "(" = false ∧ String.eqb t ")" = false ∧ String.eqb t "!" = false.

(** The tokens of [x1 op (x2 op (... op xn))] with every binary operation
    in parentheses and a lone atom bare. *)
Fixpoint nestTokens (operator : Token) (first : Token) (others : list Token)
  : list Token :=
  match others with
  | [] => [first]
  | x :: rest => "(" :: first :: operator :: nestTokens operator x rest ++ [")"]
  end.

(** [2m-1, 2m-3, ..., 3, 1] *)
Definition oddsDown (m : nat) : list nat :=
  reverse (map (fun k => 2 * k + 1)%nat (seq 0 m)).

(** No token of [r] in first position is the operator [o]: the loop of a
    binary level exits on [r]. *)
Definition stops (o : Token) (r : list Token) : Prop :=
  match r with
  | [] => True
  | t :: _ => String.eqb t o = false
  end.

(** ** proofSystem.ts *)

Module ProofStep.
Record t : Type := mk {
  expression : BooleanExpression;
  rule : option TransformationRule;
  appliedToSubexpression : option BooleanExpression;
  stepNumber : Z
}.
End ProofStep.

Record TransformationProof : Type := mkTransformationProof {
  startExpression : BooleanExpression;
  targetExpression : BooleanExpression;
  steps : list ProofStep.t;
  found : bool;
  searchDepth : Z;
  totalStatesExplored : Z
}.

(** A callback of the host, called with two numbers.  What it does is a
    change of the host's own state, of type [H]; the call returns
    ([Ok tt], the search ignores the value) or throws ([Error message]). *)
Definition ProgressCallback (H : Type) : Type := Z → Z → H → Result unit * H.

(** The options of a search.  Every field is optional; the numbers are
    integers. *)
Record ProofSearchOptions (H : Type) : Type := mkOptions {
  maxDepth : option Z;
  maxStates : option Z;
  maxExpressionLength : option Z;
  rules : option (list TransformationRule);
  onProgress : option (ProgressCallback H)
}.
Arguments mkOptions {H} _ _ _ _ _.
Arguments maxDepth {H} _.
Arguments maxStates {H} _.
Arguments maxExpressionLength {H} _.
Arguments rules {H} _.
Arguments onProgress {H} _.

(** A node of the search: an expression with the back-pointer to the node
    it was produced from. *)
Module ProofNode.
#[local] Set Warnings "-register-all".
Inductive t : Type := mk {
  expression : BooleanExpression;
  parent : option t;
  rule : option TransformationRule;
  appliedToSubexpression : option BooleanExpression;
  depth : Z
}.
End ProofNode.

(** An element of the array [getAllPossibleTransformations] returns. *)
Module Transformation.
Record t : Type := mk {
  newExpression : BooleanExpression;
  rule : TransformationRule;
  appliedToSubexpression : BooleanExpression
}.
End Transformation.

(** The loop over [rules] at the root of [expression]: a rule that throws,
    or whose result has an undefined child (so that [getLength] throws), is
    caught and skipped. *)
Definition rootTransformations (rules : list TransformationRule)
           (expression : BooleanExpression) (maxLength : Z) : list Transformation.t :=
  flat_map
    (fun rule =>
       if canApply rule expression then
         match apply rule expression with
         | Returned newExpression =>
             if getLength newExpression <=? maxLength
             then [Transformation.mk newExpression rule expression]
             else []
         | Thrown _ => []
         | Malformed => []
         end
       else [])
    rules.

(** The loops of [getSubexpressionTransformations] over the transformations
    of a child: rebuild the parent around the new child ([wrap]) and keep
    the result when it is short enough. *)
Definition liftTransformations (wrap : BooleanExpression → BooleanExpression)
           (maxLength : Z) (inner : list Transformation.t) : list Transformation.t :=
  flat_map
    (fun t =>
       let newExpression := wrap (Transformation.newExpression t) in
       if getLength newExpression <=? maxLength
       then [Transformation.mk newExpression (Transformation.rule t)
               (Transformation.appliedToSubexpression t)]
       else [])
    inner.

Fixpoint getAllPossibleTransformations (rules : list TransformationRule)
         (expression : BooleanExpression) (maxLength : Z) : list Transformation.t :=
  rootTransformations rules expression maxLength ++
  match expression with
  | Negation inner =>
      liftTransformations Negation maxLength
        (getAllPossibleTransformations rules inner (maxLength - 1))
  | BinaryOperation op l r =>
      liftTransformations (fun newLeft => BinaryOperation op newLeft r) maxLength
        (getAllPossibleTransformations rules l (maxLength - getLength r - 1)) ++
      liftTransformations (fun newRight => BinaryOperation op l newRight) maxLength
        (getAllPossibleTransformations rules r (maxLength - getLength l - 1))
  | _ => []
  end.

Definition getSubexpressionTransformations (rules : list TransformationRule)
           (expression : BooleanExpression) (maxLength : Z) : list Transformation.t :=
  match expression with
  | Negation inner =>
      liftTransformations Negation maxLength
        (getAllPossibleTransformations rules inner (maxLength - 1))
  | BinaryOperation op l r =>
      liftTransformations (fun newLeft => BinaryOperation op newLeft r) maxLength
        (getAllPossibleTransformations rules l (maxLength - getLength r - 1)) ++
      liftTransformations (fun newRight => BinaryOperation op l newRight) maxLength
        (getAllPossibleTransformations rules r (maxLength - getLength l - 1))
  | _ => []
  end.

(** The nodes from the start of the search down to [finalNode], following
    the parent pointers. *)
Fixpoint nodeChain (finalNode : ProofNode.t) : list ProofNode.t :=
  match ProofNode.parent finalNode with
  | Some p => nodeChain p ++ [finalNode]
  | None => [finalNode]
  end.

Definition reconstructProof (finalNode : ProofNode.t) : list ProofStep.t :=
  imap (fun i node =>
          ProofStep.mk (ProofNode.expression node) (ProofNode.rule node)
            (ProofNode.appliedToSubexpression node) (Z.of_nat i + 1))
       (nodeChain finalNode).

(** [Set.prototype.add]: the set with one more element, by insertion into
    the underlying map. *)
Definition setAdd (x : string) (X : gset string) : gset string :=
  let (m) := X in Mapset (<[ x := tt ]> m).

(** The [for] loop over the transformations of [current]: either a new
    node equal to the target, or the visited set and the queue after the
    loop. *)
Fixpoint expandNode (targetExpression : BooleanExpression) (current : ProofNode.t)
         (transformations : list Transformation.t)
         (visited : gset string) (queue : list ProofNode.t)
  : ProofNode.t + (gset string * list ProofNode.t) :=
  match transformations with
  | [] => inr (visited, queue)
  | t :: transformations' =>
      let hash := getHash (Transformation.newExpression t) in
      if decide (hash ∈ visited) then
        expandNode targetExpression current transformations' visited queue
      else
        let visited := setAdd hash visited in
        let newNode :=
          ProofNode.mk (Transformation.newExpression t) (Some current)
            (Some (Transformation.rule t))
            (Some (Transformation.appliedToSubexpression t))
            (ProofNode.depth current + 1) in
        if equals (Transformation.newExpression t) targetExpression then inl newNode
        else expandNode targetExpression current transformations' visited (queue ++ [newNode])
  end.

Section search.
Context {H : Type}.

(** The variables of the [while] loop, with the state of the host. *)
Record SearchState : Type := mkSearchState {
  queue : list ProofNode.t;
  visited : gset string;
  statesExplored : Z;
  maxDepthReached : Z;
  host : H
}.

Variables (startExpression targetExpression : BooleanExpression).
Variables (maxDepth maxStates maxExpressionLength : Z).
Variable rules : list TransformationRule.
Variable onProgress : option (ProgressCallback H).

Definition notFound (statesExplored maxDepthReached : Z) : TransformationProof :=
  mkTransformationProof startExpression targetExpression [] false
  maxDepthReached statesExplored.

(** [if (onProgress && statesExplored % 100 === 0)
       onProgress(statesExplored, current.depth)] *)
Definition updateProgress (statesExplored depth : Z) (host : H) : Result unit * H :=
  match onProgress with
  | Some callback =>
      if statesExplored mod 100 =? 0 then callback statesExplored depth host
      else (Ok tt, host)
  | None => (Ok tt, host)
  end.

(** The [while (queue.length > 0)] loop, at most [fuel] iterations of it;
    [None] when the fuel runs out before the loop ends.  The call of
    [onProgress] is in no [try]: when it throws, the loop and the search end
    by its exception, [Some (Error message, host)]. *)
Fixpoint searchLoop (fuel : nat) (st : SearchState)
  : option (Result TransformationProof * H) :=
  match fuel with
  | O => None
  | S fuel' =>
    match queue st with
    | [] => Some (Ok (notFound (statesExplored st) (maxDepthReached st)), host st)
    | current :: queue' =>
        let statesExplored := statesExplored st + 1 in
        match updateProgress statesExplored (ProofNode.depth current) (host st) with
        | (Error message, host) => Some (Error message, host)
        | (Ok _, host) =>
        if statesExplored >=? maxStates then
          Some (Ok (notFound statesExplored (maxDepthReached st)), host)
        else if ProofNode.depth current >=? maxDepth then
          searchLoop fuel'
            (mkSearchState queue' (visited st) statesExplored (maxDepthReached st) host)
        else
          let maxDepthReached := Z.max (maxDepthReached st) (ProofNode.depth current) in
          let transformations :=
            getAllPossibleTransformations rules (ProofNode.expression current)
              maxExpressionLength in
          match expandNode targetExpression current transformations (visited st) queue' with
          | inl newNode =>
              Some (Ok (mkTransformationProof startExpression targetExpression
                          (reconstructProof newNode) true
                          (ProofNode.depth newNode) statesExplored),
                    host)
          | inr (visited, queue) =>
              searchLoop fuel'
                (mkSearchState queue visited statesExplored maxDepthReached host)
          end
        end
    end
  end.

Definition initialState (host : H) : SearchState :=
  mkSearchState
  [ProofNode.mk startExpression None None None 0]
  {[ getHash startExpression ]} 0 0 host.

Definition searchFrom (fuel : nat) (host : H)
  : option (Result TransformationProof * H) :=
  if equals startExpression targetExpression then
  Some (Ok (mkTransformationProof startExpression targetExpression
              [ProofStep.mk startExpression None None 1] true 0 1),
        host)
  else searchLoop fuel (initialState host).
End search.

(** The destructuring of the options with its defaults:
    [maxDepth = 15, maxStates = 10000, maxExpressionLength = 15,
     rules = ALL_TRANSFORMATION_RULES]. *)
Definition maxDepthOf {H : Type} (options : ProofSearchOptions H) : Z :=
  default 15 (maxDepth options).
Definition maxStatesOf {H : Type} (options : ProofSearchOptions H) : Z :=
  default 10000 (maxStates options).
Definition maxExpressionLengthOf {H : Type} (options : ProofSearchOptions H) : Z :=
  default 15 (maxExpressionLength options).
Definition rulesOf {H : Type} (options : ProofSearchOptions H) : list TransformationRule :=
  default ALL_TRANSFORMATION_RULES (rules options).

(** [findTransformationProof], the loop bounded by [fuel]: the result it
    returns, or the exception of [onProgress] it ends by, and the state the
    host is left in. *)
Definition findTransformationProof {H : Type} (fuel : nat)
           (startExpression targetExpression : BooleanExpression)
           (options : ProofSearchOptions H) (host : H)
  : option (Result TransformationProof * H) :=
  searchFrom startExpression targetExpression
    (maxDepthOf options) (maxStatesOf options) (maxExpressionLengthOf options)
    (rulesOf options) (onProgress options)
    fuel host.

(** Enough fuel for every iteration the loop can make: one node is always
    taken from the queue, and no more than [maxStates]. *)
Definition iterationBound {H : Type} (options : ProofSearchOptions H) : nat :=
  Z.to_nat (Z.max 1 (maxStatesOf options)).

(** The options object [{}]. *)
Definition defaultOptions {H : Type} : ProofSearchOptions H :=
  mkOptions None None None None None.

(** *** Rewrite sequences *)

(** One application of one rule at one position of an expression. *)
Inductive rewriteStep (rules : list TransformationRule)
  : BooleanExpression → BooleanExpression → Prop :=
  | rewrite_root (r : TransformationRule) (e e' : BooleanExpression) :
      In r rules → canApply r e = true → apply r e = Returned e' →
      rewriteStep rules e e'
  | rewrite_negation (e e' : BooleanExpression) :
      rewriteStep rules e e' → rewriteStep rules (Negation e) (Negation e')
  | rewrite_left (op : Operator) (l l' r : BooleanExpression) :
      rewriteStep rules l l' →
      rewriteStep rules (BinaryOperation op l r) (BinaryOperation op l' r)
  | rewrite_right (op : Operator) (l r r' : BooleanExpression) :
      rewriteStep rules r r' →
      rewriteStep rules (BinaryOperation op l r) (BinaryOperation op l r').

(** A sequence of [n] rule applications, each producing an expression of
    size at most [maxLength]. *)
Inductive rewriteSequence (rules : list TransformationRule) (maxLength : Z)
  : nat → BooleanExpression → BooleanExpression → Prop :=
  | sequence_empty (e : BooleanExpression) : rewriteSequence rules maxLength 0 e e
  | sequence_step (n : nat) (e1 e2 e3 : BooleanExpression) :
      rewriteSequence rules maxLength n e1 e2 →
      rewriteStep rules e2 e3 → getLength e3 ≤ maxLength →
      rewriteSequence rules maxLength (S n) e1 e3.

(** The rules keep variable names well formed. *)
Definition preservesNames (rules : list TransformationRule) : Prop :=
  ∀ r e e', In r rules → wellNamed e = true → apply r e = Returned e' →
            wellNamed e' = true.


(** A callback that returns, having changed the state of the host by
    [change]. *)
Definition returning {H : Type} (change : Z → Z → H → H) : ProgressCallback H :=
  fun statesExplored depth host => (Ok tt, change statesExplored depth host).


(** The callback of [options], if there is one, returns from every call. *)
Definition neverThrows {H : Type} (options : ProofSearchOptions H) : Prop :=
  ∀ callback, onProgress options = Some callback →
              ∀ statesExplored depth host,
                ∃ host', callback statesExplored depth host = (Ok tt, host').




(** *** Invariants of the search loop *)

Section invariants.
Variable rules : list TransformationRule.
Variable maxLength : Z.
Variables S T : BooleanExpression.

(** A node records a rewrite sequence from the start: its depth is the
    number of rule applications, its chain of parents has one node more. *)
Record nodeOK (n : ProofNode.t) : Prop := mkNodeOK {
  node_named : wellNamed (ProofNode.expression n) = true;
  node_depth : 0 ≤ ProofNode.depth n;
  node_chain : length (nodeChain n) = Datatypes.S (Z.to_nat (ProofNode.depth n));
  node_sequence :
    rewriteSequence rules maxLength (Z.to_nat (ProofNode.depth n)) S
      (ProofNode.expression n)
}.

(** Depths along the queue never decrease and differ by at most one. *)
Definition depthOrder (a b : ProofNode.t) : Prop :=
  ProofNode.depth a ≤ ProofNode.depth b ≤ ProofNode.depth a + 1.

(** The state of a breadth-first search before any node at depth
    [maxDepth] has been taken from the queue. *)
Record searchInvariant (queue : list ProofNode.t) (visited : gset string) : Prop :=
  mkSearchInvariant {
  inv_sorted : StronglySorted depthOrder queue;
  inv_nodes :
    Forall (fun n => nodeOK n ∧ getHash (ProofNode.expression n) ∈ visited) queue;
  (** a visited expression waits in the queue or has all its successors
      visited *)
  inv_closed :
    ∀ e, wellNamed e = true → getHash e ∈ visited →
         (∃ n, In n queue ∧ ProofNode.expression n = e) ∨
         (∀ e', rewriteStep rules e e' → getLength e' ≤ maxLength →
                getHash e' ∈ visited);
  (** a node in the queue is no deeper than any rewrite sequence to its
      expression is long *)
  inv_shortest :
    ∀ k e n, rewriteSequence rules maxLength k S e → In n queue →
             ProofNode.expression n = e → ProofNode.depth n ≤ Z.of_nat k;
  inv_start : getHash S ∈ visited;
  inv_no_target :
    ∀ e, wellNamed e = true → getHash e ∈ visited → equals e T = false
}.
End invariants.

(** The returned proof is a rewrite sequence from [S] to [T] and no rewrite
    sequence from [S] to [T] is shorter. *)
Definition shortestProof (rules : list TransformationRule) (maxLength : Z)
           (S T : BooleanExpression) (proof : TransformationProof) : Prop :=
  rewriteSequence rules maxLength (length (steps proof) - 1) S T ∧
  ∀ k, rewriteSequence rules maxLength k S T → (length (steps proof) - 1 ≤ k)%nat.

(** ** truthTable.ts: analysis and equivalence *)

(** The object [analyzeTruthTable] returns, without [satisfiabilityRatio],
    the floating-point quotient of the two counts. *)
Record TruthTableAnalysis : Type := mkAnalysis {
  isTautology : bool;
  isContradiction : bool;
  isContingent : bool;
  satisfiableCount : Z;
  totalRows : Z
}.

Definition analyzeTruthTable (truthTable : TruthTable) : TruthTableAnalysis :=
  let satisfiableRows := List.filter result (rows truthTable) in
  let satisfiableCount := Z.of_nat (length satisfiableRows) in
  let totalRows := Z.of_nat (length (rows truthTable)) in
  mkAnalysis (satisfiableCount =? totalRows)
             (satisfiableCount =? 0)
             ((0 <? satisfiableCount) && (satisfiableCount <? totalRows))
             satisfiableCount totalRows.

(** [findSatisfyingAssignments]: the error of [generateTruthTable] passes
    through. *)
Definition findSatisfyingAssignments (expression : BooleanExpression)
  : Result (list Assignment) :=
  match generateTruthTable expression with
  | Ok truthTable => Ok (map assignment (List.filter result (rows truthTable)))
  | Error message => Error message
  end.

(** [ToInt32]: the integer modulo [2^32], read as a signed 32-bit number. *)
Definition toInt32 (x : Z) : Z :=
  let m := x mod 2 ^ 32 in
  if m <? 2 ^ 31 then m else m - 2 ^ 32.

(** The operator [>>] of JavaScript on integers: the left operand as a
    signed 32-bit number, shifted by the right operand modulo 32. *)
Definition signedRightShift (x n : Z) : Z :=
  Z.shiftr (toInt32 x) (n mod 32).

(** The inner loop of [areExpressionsEquivalent], from position [j] on. *)
Fixpoint assignBits (len i j : Z) (rest : list string) (assignment : Assignment)
  : Assignment :=
  match rest with
  | [] => assignment
  | v :: rest' =>
      let bitPosition := len - 1 - j in
      assignBits len i (j + 1) rest'
        (writeProperty v (negb (Z.land (signedRightShift i bitPosition) 1 =? 0))
           assignment)
  end.

(** [areExpressionsEquivalent]: the loop over the rows returns [false] at
    the first row where the two results differ or an evaluation throws. *)
Definition areExpressionsEquivalent (expr1 expr2 : BooleanExpression) : bool :=
  let allVars := getVariables expr1 ∪ getVariables expr2 in
  let variables := merge_sort String.le (elements allVars) in
  let numRows := 2 ^ Z.of_nat (length variables) in
  forallb
    (fun i =>
       let assignment := assignBits (Z.of_nat (length variables)) i 0 variables ∅ in
       match evaluate expr1 assignment with
       | Some result1 =>
           match evaluate expr2 assignment with
           | Some result2 => Bool.eqb result1 result2
           | None => false
           end
       | None => false
       end)
    (seqZ 0 numRows).

(** [rows.map(row => row.result ? '1' : '0').join('')] *)
Fixpoint compactRows (rows : list TruthTableRow) : string :=
  match rows with
  | [] => ""
  | row :: rows' => (if result row then "1" else "0") +:+ compactRows rows'
  end.

(** [generateCompactTruthTable]; [None] is the error [evaluate] throws. *)
Definition generateCompactTruthTable (expression : BooleanExpression)
  : option (Result string) :=
  let variables := sortedVariables expression in
  if (length variables =? 0)%nat then
    match evaluate expression ∅ with
    | Some result => Some (Ok (if result then "1" else "0"))
    | None => None
    end
  else if (6 <? length variables)%nat then
    Some (Error "Expression has too many variables for compact representation")
  else
    match generateTruthTable expression with
    | Ok truthTable => Some (Ok (compactRows (rows truthTable)))
    | Error message => Some (Error message)
    end.

(** ** proofSystem.ts: the quick check and the shape of a proof *)

(** [x || fallback] on an optional integer: [undefined] and [0] give the
    fallback. *)
Definition orElse (x : option Z) (fallback : Z) : Z :=
  match x with
  | Some 0 => fallback
  | Some v => v
  | None => fallback
  end.

(** The options [isTransformationPossible] hands to the search: those it
    was given, with [maxDepth] and [maxStates] capped at 10 and 1000. *)
Definition quickCheckOptions {H : Type} (options : ProofSearchOptions H)
  : ProofSearchOptions H :=
  mkOptions (Some (Z.min (orElse (maxDepth options) 10) 10))
            (Some (Z.min (orElse (maxStates options) 1000) 1000))
            (maxExpressionLength options) (rules options) (onProgress options).

(** [isTransformationPossible]: [proof.found], or the exception the search
    ended by. *)
Definition isTransformationPossible {H : Type} (fuel : nat)
           (startExpression targetExpression : BooleanExpression)
           (options : ProofSearchOptions H) (host : H) : option (Result bool * H) :=
  match findTransformationProof fuel startExpression targetExpression
          (quickCheckOptions options) host with
  | Some (Ok proof, host') => Some (Ok (found proof), host')
  | Some (Error message, host') => Some (Error message, host')
  | None => None
  end.

(** [rewriteAt rule sub e e']: [e'] is [e] with one occurrence of the
    subexpression [sub], which [rule] accepts, replaced by what [rule]
    makes of it. *)
Inductive rewriteAt (rule : TransformationRule) (sub : BooleanExpression)
  : BooleanExpression → BooleanExpression → Prop :=
  | rewriteAt_root (e' : BooleanExpression) :
      canApply rule sub = true → apply rule sub = Returned e' →
      rewriteAt rule sub sub e'
  | rewriteAt_negation (e e' : BooleanExpression) :
      rewriteAt rule sub e e' → rewriteAt rule sub (Negation e) (Negation e')
  | rewriteAt_left (op : Operator) (l l' r : BooleanExpression) :
      rewriteAt rule sub l l' →
      rewriteAt rule sub (BinaryOperation op l r) (BinaryOperation op l' r)
  | rewriteAt_right (op : Operator) (l r r' : BooleanExpression) :
      rewriteAt rule sub r r' →
      rewriteAt rule sub (BinaryOperation op l r) (BinaryOperation op l r').

(** The steps of a proof after [previous], numbered from [number] on: each
    names a rule of [rules] and the subexpression of the step before it was
    applied to, and its expression is within [maxLength]. *)
Fixpoint validSteps (rules : list TransformationRule) (maxLength : Z)
         (previous : BooleanExpression) (number : Z) (steps : list ProofStep.t) : Prop :=
  match steps with
  | [] => True
  | step :: steps' =>
      ProofStep.stepNumber step = number ∧
      (∃ rule sub,
          ProofStep.rule step = Some rule ∧
          ProofStep.appliedToSubexpression step = Some sub ∧
          In rule rules ∧
          rewriteAt rule sub previous (ProofStep.expression step)) ∧
      getLength (ProofStep.expression step) ≤ maxLength ∧
      validSteps rules maxLength (ProofStep.expression step) (number + 1) steps'
  end.

(** A proof that [S] transforms into [T]: step 1 is [S], without a rule;
    the later steps are rule applications; the last step is [T]. *)
Definition validProof (rules : list TransformationRule) (maxLength : Z)
           (S T : BooleanExpression) (steps : list ProofStep.t) : Prop :=
  match steps with
  | [] => False
  | first :: others =>
      ProofStep.expression first = S ∧
      ProofStep.rule first = None ∧
      ProofStep.appliedToSubexpression first = None ∧
      ProofStep.stepNumber first = 1 ∧
      validSteps rules maxLength S 2 others ∧
      ProofStep.expression (List.last others first) = T
  end.

(** The hashes of the expressions along the chain of parents of a node. *)
Definition chainHashes (n : ProofNode.t) : list string :=
  map (fun node => getHash (ProofNode.expression node)) (nodeChain n).

(** A node of a search from [S]: the start node, or a node made from a node
    of the search by a rule of [rules]. *)
Inductive searchNode (rules : list TransformationRule) (maxLength : Z)
          (S : BooleanExpression) : ProofNode.t → Prop :=
  | searchNode_start : searchNode rules maxLength S (ProofNode.mk S None None None 0)
  | searchNode_child (p : ProofNode.t) (e : BooleanExpression)
                     (rule : TransformationRule) (sub : BooleanExpression) :
      searchNode rules maxLength S p → In rule rules →
      rewriteAt rule sub (ProofNode.expression p) e → getLength e ≤ maxLength →
      searchNode rules maxLength S
        (ProofNode.mk e (Some p) (Some rule) (Some sub) (ProofNode.depth p + 1)).

(** A node in the queue, with the visited set [V]: a node of the search
    whose chain of parents has pairwise different hashes, all visited. *)
Definition recorded (rules : list TransformationRule) (maxLength : Z)
           (S : BooleanExpression) (V : gset string) (n : ProofNode.t) : Prop :=
  searchNode rules maxLength S n ∧
  NoDup (chainHashes n) ∧
  ∀ h, h ∈ chainHashes n → h ∈ V.

(** ** store/appStore.ts

    The state of the application and those of its actions that do not
    parse text.  An action is a function from the state before to the state
    after. *)

Module AppStore.

Record ExpressionState : Type := mkState {
  currentExpression : option BooleanExpression;
  currentExpressionString : string;
  expressionError : option string;
  startExpression : option BooleanExpression;
  startExpressionString : string;
  startExpressionError : option string;
  targetExpression : option BooleanExpression;
  targetExpressionString : string;
  targetExpressionError : option string;
  truthTable : option TruthTable;
  showTruthTable : bool;
  currentProof : option TransformationProof;
  isSearchingProof : bool;
  proofSearchProgress : option (Z * Z);
  selectedRules : gset string;
  maxProofDepth : Z;
  showASTVisualization : bool;
  expressionHistory : list string;
  useSymbolsInTruthTable : bool;
  autoGenerateTruthTable : bool
}.

(** [new Set(ALL_TRANSFORMATION_RULES.map(rule => rule.name))] *)
Definition allRuleNames : gset string :=
  fold_left (fun names rule => setAdd (name rule) names) ALL_TRANSFORMATION_RULES ∅.

Definition initialState : ExpressionState :=
  mkState None "" None None "" None None "" None
    None false
    None false None
    allRuleNames 15 true
    []
    true true.

Definition clearCurrentExpression (s : ExpressionState) : ExpressionState :=
  mkState None "" None
    (startExpression s) (startExpressionString s) (startExpressionError s)
    (targetExpression s) (targetExpressionString s) (targetExpressionError s)
    None (showTruthTable s)
    None (isSearchingProof s) (proofSearchProgress s)
    (selectedRules s) (maxProofDepth s) (showASTVisualization s)
    (expressionHistory s)
    (useSymbolsInTruthTable s) (autoGenerateTruthTable s).

Definition clearStartExpression (s : ExpressionState) : ExpressionState :=
  mkState (currentExpression s) (currentExpressionString s) (expressionError s)
    None "" None
    (targetExpression s) (targetExpressionString s) (targetExpressionError s)
    (truthTable s) (showTruthTable s)
    None (isSearchingProof s) (proofSearchProgress s)
    (selectedRules s) (maxProofDepth s) (showASTVisualization s)
    (expressionHistory s)
    (useSymbolsInTruthTable s) (autoGenerateTruthTable s).

Definition clearTargetExpression (s : ExpressionState) : ExpressionState :=
  mkState (currentExpression s) (currentExpressionString s) (expressionError s)
    (startExpression s) (startExpressionString s) (startExpressionError s)
    None "" None
    (truthTable s) (showTruthTable s)
    None (isSearchingProof s) (proofSearchProgress s)
    (selectedRules s) (maxProofDepth s) (showASTVisualization s)
    (expressionHistory s)
    (useSymbolsInTruthTable s) (autoGenerateTruthTable s).

(** [set({ truthTable, showTruthTable })] *)
Definition setTruthTable (table : option TruthTable) (show : bool) (s : ExpressionState)
  : ExpressionState :=
  mkState (currentExpression s) (currentExpressionString s) (expressionError s)
    (startExpression s) (startExpressionString s) (startExpressionError s)
    (targetExpression s) (targetExpressionString s) (targetExpressionError s)
    table show
    (currentProof s) (isSearchingProof s) (proofSearchProgress s)
    (selectedRules s) (maxProofDepth s) (showASTVisualization s)
    (expressionHistory s)
    (useSymbolsInTruthTable s) (autoGenerateTruthTable s).

Definition generateTruthTableForCurrent (s : ExpressionState) : ExpressionState :=
  match currentExpression s with
  | Some expression =>
      match generateTruthTable expression with
      | Ok table => setTruthTable (Some table) true s
      | Error _ => setTruthTable None (showTruthTable s) s
      end
  | None => s
  end.

Definition toggleTruthTableVisibility (s : ExpressionState) : ExpressionState :=
  setTruthTable (truthTable s) (negb (showTruthTable s)) s.

Definition clearTruthTable (s : ExpressionState) : ExpressionState :=
  setTruthTable None false s.

(** [set({ currentProof, isSearchingProof, proofSearchProgress })] *)
Definition setProof (proof : option TransformationProof) (searching : bool)
           (progress : option (Z * Z)) (s : ExpressionState) : ExpressionState :=
  mkState (currentExpression s) (currentExpressionString s) (expressionError s)
    (startExpression s) (startExpressionString s) (startExpressionError s)
    (targetExpression s) (targetExpressionString s) (targetExpressionError s)
    (truthTable s) (showTruthTable s)
    proof searching progress
    (selectedRules s) (maxProofDepth s) (showASTVisualization s)
    (expressionHistory s)
    (useSymbolsInTruthTable s) (autoGenerateTruthTable s).

Definition cancelProofSearch (s : ExpressionState) : ExpressionState :=
  setProof (currentProof s) false None s.

Definition clearProof (s : ExpressionState) : ExpressionState :=
  setProof None false None s.

(** [ALL_TRANSFORMATION_RULES.filter(rule => selectedRules.has(rule.name))] *)
Definition activeRules (selected : gset string) : list TransformationRule :=
  List.filter (fun rule => bool_decide (name rule ∈ selected)) ALL_TRANSFORMATION_RULES.

(** The [onProgress] callback of [searchForProof]:
    [set({ proofSearchProgress: { statesExplored, depth } })]. *)
Definition reportProgress (statesExplored depth : Z) (s : ExpressionState)
  : ExpressionState :=
  setProof (currentProof s) (isSearchingProof s) (Some (statesExplored, depth)) s.

(** [searchForProof], from the call to the state after the promise is
    resolved, when no other action runs in between; the loop of the search
    is bounded by [fuel].  The search runs in the callback of a timer: were
    it to end by an exception, the promise would stay pending and the state
    as the search left it. *)
Definition searchForProof (fuel : nat) (s : ExpressionState) : option ExpressionState :=
  match currentExpression s, targetExpression s with
  | Some current, Some target =>
      match findTransformationProof fuel current target
              (mkOptions (Some (maxProofDepth s)) None None
                 (Some (activeRules (selectedRules s)))
                 (Some (returning reportProgress)))
              (setProof None true None s) with
      | Some (Ok proof, s') => Some (setProof (Some proof) false None s')
      | Some (Error _, s') => Some s'
      | None => None
      end
  | _, _ => Some s
  end.

(** [set({ selectedRules, currentProof: null })] *)
Definition setSelectedRules (selected : gset string) (s : ExpressionState)
  : ExpressionState :=
  mkState (currentExpression s) (currentExpressionString s) (expressionError s)
    (startExpression s) (startExpressionString s) (startExpressionError s)
    (targetExpression s) (targetExpressionString s) (targetExpressionError s)
    (truthTable s) (showTruthTable s)
    None (isSearchingProof s) (proofSearchProgress s)
    selected (maxProofDepth s) (showASTVisualization s)
    (expressionHistory s)
    (useSymbolsInTruthTable s) (autoGenerateTruthTable s).

Definition toggleRule (ruleName : string) (s : ExpressionState) : ExpressionState :=
  setSelectedRules
    (if decide (ruleName ∈ selectedRules s)
     then selectedRules s ∖ {[ ruleName ]}
     else setAdd ruleName (selectedRules s))
    s.

Definition selectAllRules (s : ExpressionState) : ExpressionState :=
  setSelectedRules allRuleNames s.

Definition deselectAllRules (s : ExpressionState) : ExpressionState :=
  setSelectedRules ∅ s.

(** [Math.max(1, Math.min(30, depth))] for an integer [depth].  (Given
    [NaN], [Math.min] and [Math.max] hand it on; the depths of this model
    are integers.) *)
Definition setMaxProofDepth (depth : Z) (s : ExpressionState) : ExpressionState :=
  mkState (currentExpression s) (currentExpressionString s) (expressionError s)
    (startExpression s) (startExpressionString s) (startExpressionError s)
    (targetExpression s) (targetExpressionString s) (targetExpressionError s)
    (truthTable s) (showTruthTable s)
    None (isSearchingProof s) (proofSearchProgress s)
    (selectedRules s) (Z.max 1 (Z.min 30 depth)) (showASTVisualization s)
    (expressionHistory s)
    (useSymbolsInTruthTable s) (autoGenerateTruthTable s).

(** The three toggles of the settings and the history. *)
Definition setSettings (ast symbols auto : bool) (history : list string)
           (s : ExpressionState) : ExpressionState :=
  mkState (currentExpression s) (currentExpressionString s) (expressionError s)
    (startExpression s) (startExpressionString s) (startExpressionError s)
    (targetExpression s) (targetExpressionString s) (targetExpressionError s)
    (truthTable s) (showTruthTable s)
    (currentProof s) (isSearchingProof s) (proofSearchProgress s)
    (selectedRules s) (maxProofDepth s) ast
    history
    symbols auto.

Definition toggleASTVisualization (s : ExpressionState) : ExpressionState :=
  setSettings (negb (showASTVisualization s)) (useSymbolsInTruthTable s)
    (autoGenerateTruthTable s) (expressionHistory s) s.

Definition toggleUseSymbolsInTruthTable (s : ExpressionState) : ExpressionState :=
  setSettings (showASTVisualization s) (negb (useSymbolsInTruthTable s))
    (autoGenerateTruthTable s) (expressionHistory s) s.

Definition toggleAutoGenerateTruthTable (s : ExpressionState) : ExpressionState :=
  setSettings (showASTVisualization s) (useSymbolsInTruthTable s)
    (negb (autoGenerateTruthTable s)) (expressionHistory s) s.

(** [[expr, ...history.filter(h => h !== expr)].slice(0, 20)] *)
Definition addToHistory (expr : string) (s : ExpressionState) : ExpressionState :=
  setSettings (showASTVisualization s) (useSymbolsInTruthTable s)
    (autoGenerateTruthTable s)
    (take 20 (expr :: List.filter (fun h => negb (String.eqb h expr)) (expressionHistory s)))
    s.

Definition clearHistory (s : ExpressionState) : ExpressionState :=
  setSettings (showASTVisualization s) (useSymbolsInTruthTable s)
    (autoGenerateTruthTable s) [] s.

(** The actions above, as the steps of the store. *)
Inductive Action : Type :=
  | ClearCurrentExpression | ClearStartExpression | ClearTargetExpression
  | GenerateTruthTableForCurrent | ToggleTruthTableVisibility | ClearTruthTable
  | CancelProofSearch | ClearProof
  | ToggleRule (ruleName : string) | SelectAllRules | DeselectAllRules
  | SetMaxProofDepth (depth : Z)
  | ToggleASTVisualization | ToggleUseSymbolsInTruthTable
  | ToggleAutoGenerateTruthTable
  | AddToHistory (expr : string) | ClearHistory.

Definition run (a : Action) (s : ExpressionState) : ExpressionState :=
  match a with
  | ClearCurrentExpression => clearCurrentExpression s
  | ClearStartExpression => clearStartExpression s
  | ClearTargetExpression => clearTargetExpression s
  | GenerateTruthTableForCurrent => generateTruthTableForCurrent s
  | ToggleTruthTableVisibility => toggleTruthTableVisibility s
  | ClearTruthTable => clearTruthTable s
  | CancelProofSearch => cancelProofSearch s
  | ClearProof => clearProof s
  | ToggleRule ruleName => toggleRule ruleName s
  | SelectAllRules => selectAllRules s
  | DeselectAllRules => deselectAllRules s
  | SetMaxProofDepth depth => setMaxProofDepth depth s
  | ToggleASTVisualization => toggleASTVisualization s
  | ToggleUseSymbolsInTruthTable => toggleUseSymbolsInTruthTable s
  | ToggleAutoGenerateTruthTable => toggleAutoGenerateTruthTable s
  | AddToHistory expr => addToHistory expr s
  | ClearHistory => clearHistory s
  end.

End AppStore.

(** What every modelled action of the store keeps: the history holds at
    most 20 entries, none twice, and the depth of the proof search lies
    between 1 and 30. *)
Definition storeInvariant (s : AppStore.ExpressionState) : Prop :=
  NoDup (AppStore.expressionHistory s) ∧
  (length (AppStore.expressionHistory s) ≤ 20)%nat ∧
  1 ≤ AppStore.maxProofDepth s ≤ 30.

(** ** expressions.ts: printing *)

(** [shouldParenthesize]: binary operations are put in parentheses. *)
Definition shouldParenthesize (expr : BooleanExpression) : bool :=
  match expr with
  | Var _ => false
  | Negation _ => false
  | _ => isBinaryOperation expr
  end.

Fixpoint toString (e : BooleanExpression) : string :=
  match e with
  | Var name => name
  | Negation inner =>
      match inner with
      | Var _ | Negation _ => "!" +:+ toString inner
      | _ => "!(" +:+ toString inner +:+ ")"
      end
  | BinaryOperation op l r =>
      let leftStr :=
        if shouldParenthesize l then "(" +:+ toString l +:+ ")" else toString l in
      let rightStr :=
        if shouldParenthesize r then "(" +:+ toString r +:+ ")" else toString r in
      leftStr +:+ " " +:+ getOperatorSymbol op +:+ " " +:+ rightStr
  | TrueConstant => "true"
  | FalseConstant => "false"
  end.

(** ** constructor.ts: the simple tokenizer and [parseToAST]

    A string is the sequence of the bytes of its UTF-8 encoding. *)

Definition byteIs (c : ascii) (n : nat) : bool := (nat_of_ascii c =? n)%nat.

(** One character of the class [\s] at the head of the string: what
    follows it.  The class holds the ASCII characters 9 to 13 and 32, and
    U+00A0, U+1680, U+2000 to U+200A, U+2028, U+2029, U+202F, U+205F, U+3000
    and U+FEFF, here in their encodings. *)
Definition whitespacePrefix (s : string) : option string :=
  match s with
  | EmptyString => None
  | String c rest =>
      let n := nat_of_ascii c in
      if ((9 <=? n)%nat && (n <=? 13)%nat) || (n =? 32)%nat then Some rest
      else
        match rest with
        | String c2 rest2 =>
            if byteIs c 194 && byteIs c2 160 then Some rest2
            else
              match rest2 with
              | String c3 rest3 =>
                  let n3 := nat_of_ascii c3 in
                  if (byteIs c 225 && byteIs c2 154 && byteIs c3 128) ||
                     (byteIs c 226 && byteIs c2 128 &&
                      (((128 <=? n3)%nat && (n3 <=? 138)%nat) ||
                       (n3 =? 168)%nat || (n3 =? 169)%nat || (n3 =? 175)%nat)) ||
                     (byteIs c 226 && byteIs c2 129 && byteIs c3 159) ||
                     (byteIs c 227 && byteIs c2 128 && byteIs c3 128) ||
                     (byteIs c 239 && byteIs c2 187 && byteIs c3 191)
                  then Some rest3
                  else None
              | EmptyString => None
              end
        | EmptyString => None
        end
  end.

(** [expression.replace(/\s+/g, ' ')]: every run of whitespace becomes one
    space.  [inRun] tells that the character before was whitespace; the
    fuel is the length of the string. *)
Fixpoint collapseWhitespace (fuel : nat) (s : string) (inRun : bool) : string :=
  match fuel with
  | O => ""
  | S fuel' =>
      match whitespacePrefix s with
      | Some rest =>
          if inRun then collapseWhitespace fuel' rest true
          else String " " (collapseWhitespace fuel' rest true)
      | None =>
          match s with
          | EmptyString => ""
          | String c rest => String c (collapseWhitespace fuel' rest false)
          end
      end
  end.

Fixpoint dropLeadingSpaces (s : string) : string :=
  match s with
  | String c rest => if byteIs c 32 then dropLeadingSpaces rest else s
  | EmptyString => ""
  end.

Fixpoint dropTrailingSpaces (s : string) : string :=
  match s with
  | String c rest =>
      match dropTrailingSpaces rest with
      | EmptyString => if byteIs c 32 then "" else String c ""
      | kept => String c kept
      end
  | EmptyString => ""
  end.

(** [expression.replace(/\s+/g, ' ').trim()]: after the replacement the
    only whitespace left to trim is the space. *)
Definition normalizeWhitespace (expression : string) : string :=
  dropTrailingSpaces
    (dropLeadingSpaces (collapseWhitespace (String.length expression) expression false)).

(** [if (currentToken) tokens.push(currentToken)] *)
Definition pushToken (currentToken : string) (tokens : list Token) : list Token :=
  match currentToken with
  | EmptyString => tokens
  | _ => tokens ++ [currentToken]
  end.

(** [' ()&|!'.includes(char)] *)
Definition isSeparator (c : ascii) : bool :=
  byteIs c 32 || byteIs c 40 || byteIs c 41 || byteIs c 38 || byteIs c 124 || byteIs c 33.

(** The loop of [simpleTokenize] over the characters from the current one
    on. *)
Fixpoint tokenizeLoop (s : string) (currentToken : string) (tokens : list Token)
  : list Token :=
  match s with
  | EmptyString => pushToken currentToken tokens
  | String c rest =>
      if isSeparator c then
        let tokens := pushToken currentToken tokens in
        tokenizeLoop rest ""
          (if byteIs c 32 then tokens else tokens ++ [String c ""])
      else
        match rest with
        | String c2 rest2 =>
            if byteIs c 61 && byteIs c2 62 then
              tokenizeLoop rest2 "" (pushToken currentToken tokens ++ ["=>"])
            else
              match rest2 with
              | String c3 rest3 =>
                  if byteIs c 60 && byteIs c2 61 && byteIs c3 62 then
                    tokenizeLoop rest3 "" (pushToken currentToken tokens ++ ["<=>"])
                  else tokenizeLoop rest (currentToken +:+ String c "") tokens
              | EmptyString => tokenizeLoop rest (currentToken +:+ String c "") tokens
              end
        | EmptyString => tokenizeLoop rest (currentToken +:+ String c "") tokens
        end
  end.

Definition simpleTokenize (expression : string) : list Token :=
  tokenizeLoop (normalizeWhitespace expression) "" [].

(** [parseToAST]: an [ExpressionParseError] of [constructAST] is thrown on
    as it is. *)
Definition parseToAST (expression : string) : option (Result BooleanExpression) :=
  constructAST (simpleTokenize expression).

(** The tokens of [toString e], and of [e] written as an operand. *)
Fixpoint tokensOf (e : BooleanExpression) : list Token :=
  match e with
  | Var name => [name]
  | Negation inner =>
      match inner with
      | Var _ | Negation _ => "!" :: tokensOf inner
      | _ => "!" :: "(" :: tokensOf inner ++ [")"]
      end
  | BinaryOperation op l r =>
      (if shouldParenthesize l then "(" :: tokensOf l ++ [")"] else tokensOf l) ++
      getOperatorSymbol op ::
      (if shouldParenthesize r then "(" :: tokensOf r ++ [")"] else tokensOf r)
  | TrueConstant => ["true"]
  | FalseConstant => ["false"]
  end.

Definition operandTokens (e : BooleanExpression) : list Token :=
  if shouldParenthesize e then "(" :: tokensOf e ++ [")"] else tokensOf e.

(** How deep the parentheses are nested in [operandTokens e]. *)
Fixpoint parenDepth (e : BooleanExpression) : nat :=
  match e with
  | Var _ => 0
  | Negation inner =>
      match inner with
      | TrueConstant | FalseConstant => 1
      | _ => parenDepth inner
      end
  | BinaryOperation _ l r => S (Nat.max (parenDepth l) (parenDepth r))
  | TrueConstant => 0
  | FalseConstant => 0
  end.


(** A visible ASCII character: codes 33 to 126. *)
Definition isPrintable (c : ascii) : bool :=
  let n := nat_of_ascii c in (33 <=? n)%nat && (n <=? 126)%nat.

(** A text of visible ASCII characters and single spaces that does not end
    in a space; [afterSpace] tells that a space may not come next. *)
Fixpoint spaced (s : string) (afterSpace : bool) : bool :=
  match s with
  | EmptyString => negb afterSpace
  | String c rest =>
      if byteIs c 32 then negb afterSpace && spaced rest true
      else isPrintable c && spaced rest false
  end.

(** The text is over or a separator comes next: a pending token ends
    here. *)
Definition tokenEnds (s : string) : Prop :=
  match s with
  | EmptyString => True
  | String c _ => isSeparator c = true
  end.

(** ** parser: counting parentheses *)

(** How many tokens of [ts] are the token [t]. *)
Definition countToken (t : Token) (ts : list Token) : Z :=
  Z.of_nat (length (filter (λ x, x = t) ts)).

(** * Properties *)

(** ** Expressions: structural equality, cloning, evaluation *)

Lemma equals_refl (e : BooleanExpression) : equals e e = true.
Proof.
  induction e as [n | a IHa | o l IHl r IHr | |]; simpl; auto.
  - apply String.eqb_refl.
  - rewrite IHl, IHr, bool_decide_eq_true_2; auto.
Qed.

Lemma equals_true (e other : BooleanExpression) :
  equals e other = true → e = other.
Proof.
  revert other.
  induction e as [n | a IHa | o l IHl r IHr | |]; intros [m | b | o' l' r' | |];
    simpl; try discriminate; auto.
  - intros H. apply String.eqb_eq in H. by subst.
  - intros H. f_equal. auto.
  - intros H. apply andb_true_iff in H as [H Hr].
    apply andb_true_iff in H as [Ho Hl].
    apply bool_decide_eq_true_1 in Ho. subst.
    f_equal; auto.
Qed.

Lemma equals_spec (e other : BooleanExpression) :
  equals e other = true ↔ e = other.
Proof.
  split; [apply equals_true | intros ->; apply equals_refl].
Qed.

Lemma clone_id (e : BooleanExpression) : clone e = e.
Proof. induction e; simpl; congruence. Qed.

Lemma getLength_pos (e : BooleanExpression) : 1 ≤ getLength e.
Proof. induction e; simpl; lia. Qed.

Lemma evaluate_covered (e : BooleanExpression) (σ : Assignment) :
  getVariables e ⊆ dom σ → evaluate e σ = Some (denote σ e).
Proof.
  induction e as [n | a IHa | o l IHl r IHr | |]; simpl; intros Hsub; auto.
  - assert (Hn : n ∈ dom σ) by set_solver.
    apply elem_of_dom in Hn as [b Hb]. by rewrite Hb.
  - by rewrite IHa.
  - rewrite IHl, ?IHr by set_solver.
    destruct o, (denote σ l); simpl; rewrite ?IHr by set_solver; auto.
Qed.

Lemma evaluate_is_Some (e : BooleanExpression) (σ : Assignment) :
  getVariables e ⊆ dom σ → is_Some (evaluate e σ).
Proof. intros H. rewrite evaluate_covered; eauto. Qed.

(** ** Rule catalogue *)

(** Case analysis on the shape of an expression as far as a hypothesis
    about [canApply] or [apply] inspects it. *)
Ltac destruct_shape H :=
  repeat match type of H with
         | context [match ?x with _ => _ end] =>
             is_var x; destruct x; simpl in H; try discriminate H
         | context [isNegation ?x] => is_var x; destruct x; simpl in H; try discriminate H
         | context [isConjunction ?x] => is_var x; destruct x; simpl in H; try discriminate H
         | context [isDisjunction ?x] => is_var x; destruct x; simpl in H; try discriminate H
         | context [isImplication ?x] => is_var x; destruct x; simpl in H; try discriminate H
         | context [isBiconditional ?x] => is_var x; destruct x; simpl in H; try discriminate H
         | context [isTrueConstant ?x] => is_var x; destruct x; simpl in H; try discriminate H
         | context [isFalseConstant ?x] => is_var x; destruct x; simpl in H; try discriminate H
         end.

Ltac equals_subst :=
  repeat match goal with
         | H : equals _ _ = true |- _ => apply equals_true in H; subst
         | H : (_ && _)%bool = true |- _ => apply andb_true_iff in H as [? ?]
         | H : (_ || _)%bool = true |- _ => apply orb_true_iff in H as [?|?]
         end.

Ltac denote_cases σ :=
  repeat match goal with
         | o : Operator |- _ => destruct o
         end;
  simpl;
  repeat match goal with
         | |- context [denote σ ?x] => destruct (denote σ x); simpl
         | |- context [default false ?y] => destruct (default false y); simpl
         end;
  try reflexivity.

Local Opaque equals.

Lemma catalogue_sound_denote (r : TransformationRule) (e : BooleanExpression) :
  In r ALL_TRANSFORMATION_RULES → canApply r e = true →
  ∃ e', apply r e = Returned e' ∧ ∀ σ, denote σ e = denote σ e'.
Proof.
  intros Hin Hcan. unfold ALL_TRANSFORMATION_RULES in Hin. simpl in Hin.
  repeat (destruct Hin as [<- | Hin]); try contradiction; simpl in *.
  all: unfold ExcludedMiddle_canApply, Contradiction_canApply,
         IdempotenceReverse_canApply, Simplification1Reverse_canApply in *.
  all: try (destruct_shape Hcan; simpl;
            try match type of Hcan with equals _ _ = true => rewrite Hcan end;
            eexists; (split; [reflexivity |]); intros σ; equals_subst;
            rewrite ?clone_id; denote_cases σ; fail).
Qed.

Local Transparent equals.

Lemma In_catalogue_cases (r : TransformationRule) :
  In r ALL_TRANSFORMATION_RULES ↔ In r GUARDED_RULES ∨ In r UNGUARDED_RULES.
Proof.
  unfold ALL_TRANSFORMATION_RULES, GUARDED_RULES, UNGUARDED_RULES. simpl.
  tauto.
Qed.

(** C1 (rule soundness): for every rule of [ALL_TRANSFORMATION_RULES] and
    every expression [e] that [canApply] accepts, [apply] returns an
    expression [e'], and under every assignment defined on the variables of
    [e] and of [e'] both evaluate, to the same boolean. *)
Theorem rule_soundness (r : TransformationRule) (e : BooleanExpression) :
  In r ALL_TRANSFORMATION_RULES → canApply r e = true →
  ∃ e', apply r e = Returned e' ∧
    ∀ σ : Assignment, getVariables e ∪ getVariables e' ⊆ dom σ →
      ∃ b, evaluate e σ = Some b ∧ evaluate e' σ = Some b.
Proof.
  intros Hin Hcan.
  destruct (catalogue_sound_denote r e Hin Hcan) as (e' & Happ & Hden).
  exists e'. split; [exact Happ |].
  intros σ Hdom. apply union_subseteq in Hdom as [He He'].
  exists (denote σ e). split.
  - by apply evaluate_covered.
  - rewrite Hden. by apply evaluate_covered.
Qed.

Lemma rule_soundness_witness :
  ∃ e', apply DeMorganAND (Negation (Conjunction (Var "P") (Var "Q"))) = Returned e' ∧
    ∀ σ : Assignment,
      getVariables (Negation (Conjunction (Var "P") (Var "Q"))) ∪ getVariables e' ⊆ dom σ →
      ∃ b, evaluate (Negation (Conjunction (Var "P") (Var "Q"))) σ = Some b ∧
           evaluate e' σ = Some b.
Proof.
  apply (rule_soundness DeMorganAND (Negation (Conjunction (Var "P") (Var "Q")))).
  - unfold ALL_TRANSFORMATION_RULES. simpl. tauto.
  - reflexivity.
Defined.

(** *** Partiality of [apply] *)

Lemma guarded_rules_raise (r : TransformationRule) (e : BooleanExpression) :
  In r GUARDED_RULES → canApply r e = false → ∃ m, apply r e = Thrown m.
Proof.
  intros Hin Hcan. unfold GUARDED_RULES in Hin. simpl in Hin.
  repeat (destruct Hin as [<- | Hin]); try contradiction; simpl in *.
  all: unfold ExcludedMiddle_canApply, Contradiction_canApply in *.
  all: try (rewrite Hcan; eauto; fail).
  all: destruct_shape Hcan; simpl; eauto.
Qed.

Lemma catalogue_apply_returns (r : TransformationRule) (e : BooleanExpression) :
  In r ALL_TRANSFORMATION_RULES → canApply r e = true → ∃ e', apply r e = Returned e'.
Proof.
  intros Hin Hcan.
  destruct (catalogue_sound_denote r e Hin Hcan) as (e' & Happ & _). eauto.
Qed.

Lemma unguarded_rules_accept (r : TransformationRule) :
  In r UNGUARDED_RULES →
  ∃ e, canApply r e = false ∧ ∀ m, apply r e ≠ Thrown m.
Proof.
  intros Hin. unfold UNGUARDED_RULES in Hin. simpl in Hin.
  repeat (destruct Hin as [<- | Hin]); try contradiction.
  - exists (Implication (Negation (Var "P")) (Negation (Var "Q"))). by split.
  - exists (Disjunction (Var "P") (Var "Q")). by split.
  - exists (Conjunction (Var "P") (Var "Q")). by split.
  - exists (Implication (Var "P") (Var "P")). by split.
  - exists (Disjunction (Var "P") (Var "P")). by split.
  - exists (Disjunction (Var "P") (Var "P")). by split.
  - exists (Conjunction (Var "P") (Var "Q")). by split.
  - exists (Disjunction (Var "P") (Var "Q")). by split.
  - exists (Conjunction (Var "P") TrueConstant). by split.
  - exists (Conjunction (Var "P") TrueConstant). by split.
  - exists (Var "P"). by split.
  - exists (Var "P"). by split.
  - exists (Disjunction (Var "P") (Var "Q")). by split.
  - exists (Conjunction (Var "P") (Var "Q")). by split.
Qed.

(** C4, the claim as stated fails: [Simplification1True] is in the catalogue,
    its [canApply] rejects the variable [P], and its [apply] returns [true]
    on it without raising. *)
Lemma rule_partiality_counterexample :
  ¬ (∀ (r : TransformationRule) (e : BooleanExpression),
       In r ALL_TRANSFORMATION_RULES → canApply r e = false →
       ∃ m, apply r e = Thrown m).
Proof.
  intros H.
  destruct (H Simplification1True (Var "P")) as [m Hm].
  - unfold ALL_TRANSFORMATION_RULES. simpl. tauto.
  - reflexivity.
  - discriminate Hm.
Qed.

(** C4 (rule partiality), amended: on an expression [canApply] accepts,
    [apply] of every catalogue rule returns an expression; on an expression
    [canApply] rejects, [apply] raises for the eighteen rules of
    [GUARDED_RULES]; each of the other fourteen rules has an expression that
    [canApply] rejects and on which [apply] does not raise. *)
Theorem rule_partiality_amended (r : TransformationRule) :
  In r ALL_TRANSFORMATION_RULES →
  (∀ e, canApply r e = true → ∃ e', apply r e = Returned e') ∧
  ((In r GUARDED_RULES ∧ ∀ e, canApply r e = false → ∃ m, apply r e = Thrown m) ∨
   (In r UNGUARDED_RULES ∧ ∃ e, canApply r e = false ∧ ∀ m, apply r e ≠ Thrown m)).
Proof.
  intros Hin. split.
  - intros e He. by apply catalogue_apply_returns.
  - apply In_catalogue_cases in Hin as [Hg | Hu].
    + left. split; [exact Hg |]. intros e He. by apply guarded_rules_raise.
    + right. split; [exact Hu |]. by apply unguarded_rules_accept.
Qed.

Lemma rule_partiality_amended_witness :
  (∀ e, canApply CommutativityAND e = true → ∃ e', apply CommutativityAND e = Returned e') ∧
  ((In CommutativityAND GUARDED_RULES ∧
    ∀ e, canApply CommutativityAND e = false → ∃ m, apply CommutativityAND e = Thrown m) ∨
   (In CommutativityAND UNGUARDED_RULES ∧
    ∃ e, canApply CommutativityAND e = false ∧ ∀ m, apply CommutativityAND e ≠ Thrown m)).
Proof.
  apply (rule_partiality_amended CommutativityAND).
  unfold ALL_TRANSFORMATION_RULES. simpl. tauto.
Defined.

(** ** Structural hash *)

Lemma append_cons (c : ascii) (s t : string) : String c s +:+ t = String c (s +:+ t).
Proof. reflexivity. Qed.

Lemma append_nil (t : string) : "" +:+ t = t.
Proof. reflexivity. Qed.

Lemma append_assoc (s t u : string) : (s +:+ t) +:+ u = s +:+ t +:+ u.
Proof. induction s as [| c s IH]; [reflexivity |]. rewrite !append_cons. by f_equal. Qed.

Ltac string_norm :=
  repeat rewrite append_assoc; repeat rewrite append_cons; repeat rewrite append_nil.

Ltac string_norm_in H :=
  repeat rewrite append_assoc in H; repeat rewrite append_cons in H;
  repeat rewrite append_nil in H.

Lemma valid_name_word_chars (n : string) :
  isValidVariableName n = true → string_forallb is_word_char n = true.
Proof.
  unfold isValidVariableName. intros H.
  apply andb_true_iff in H as [_ H].
  destruct n as [| c rest]; [discriminate |].
  apply andb_true_iff in H as [Hc Hrest]. simpl.
  rewrite Hrest, andb_true_r. unfold is_word_char. by rewrite Hc.
Qed.

(** A name made of word characters ends where the first closing
    parenthesis stands. *)
Lemma word_chars_delimited (n1 n2 s1 s2 : string) :
  string_forallb is_word_char n1 = true →
  string_forallb is_word_char n2 = true →
  n1 +:+ ")" +:+ s1 = n2 +:+ ")" +:+ s2 → n1 = n2 ∧ s1 = s2.
Proof.
  revert n2. induction n1 as [| c1 n1 IH]; intros [| c2 n2] H1 H2 Heq;
    string_norm_in Heq; simpl in H1, H2.
  - by simplify_eq.
  - injection Heq as <- _. discriminate H2.
  - injection Heq as -> _. discriminate H1.
  - injection Heq as -> Heq.
    apply andb_true_iff in H1 as [_ H1]. apply andb_true_iff in H2 as [_ H2].
    destruct (IH n2 H1 H2 Heq) as [-> ->]. done.
Qed.

(** No hash is a proper prefix of another: reading a hash from the front
    of a string recovers the expression and what follows it. *)
Lemma getHash_prefix_free (e1 e2 : BooleanExpression) (s1 s2 : string) :
  wellNamed e1 = true → wellNamed e2 = true →
  getHash e1 +:+ s1 = getHash e2 +:+ s2 → e1 = e2 ∧ s1 = s2.
Proof.
  revert e2 s1 s2.
  induction e1 as [n1 | a1 IHa | o1 l1 IHl r1 IHr | |];
    intros [n2 | a2 | o2 l2 r2 | |] s1 s2 W1 W2 Heq; simpl in W1, W2;
    try (destruct o1); try (destruct o2); simpl in Heq; string_norm_in Heq;
    try discriminate Heq.
  - simplify_eq.
    apply valid_name_word_chars in W1, W2.
    destruct (word_chars_delimited _ _ _ _ W1 W2 Heq) as [-> ->]. done.
  - simplify_eq.
    destruct (IHa _ _ _ W1 W2 Heq) as [-> Heq']. by simplify_eq.
  - simplify_eq. apply andb_true_iff in W1 as [Wl1 Wr1], W2 as [Wl2 Wr2].
    destruct (IHl _ _ _ Wl1 Wl2 Heq) as [-> Heq']. simplify_eq.
    destruct (IHr _ _ _ Wr1 Wr2 Heq') as [-> Heq'']. by simplify_eq.
  - simplify_eq. apply andb_true_iff in W1 as [Wl1 Wr1], W2 as [Wl2 Wr2].
    destruct (IHl _ _ _ Wl1 Wl2 Heq) as [-> Heq']. simplify_eq.
    destruct (IHr _ _ _ Wr1 Wr2 Heq') as [-> Heq'']. by simplify_eq.
  - simplify_eq. apply andb_true_iff in W1 as [Wl1 Wr1], W2 as [Wl2 Wr2].
    destruct (IHl _ _ _ Wl1 Wl2 Heq) as [-> Heq']. simplify_eq.
    destruct (IHr _ _ _ Wr1 Wr2 Heq') as [-> Heq'']. by simplify_eq.
  - simplify_eq. apply andb_true_iff in W1 as [Wl1 Wr1], W2 as [Wl2 Wr2].
    destruct (IHl _ _ _ Wl1 Wl2 Heq) as [-> Heq']. simplify_eq.
    destruct (IHr _ _ _ Wr1 Wr2 Heq') as [-> Heq'']. by simplify_eq.
  - by simplify_eq.
  - by simplify_eq.
Qed.

Lemma append_empty_r (s : string) : s +:+ "" = s.
Proof. induction s as [| c s IH]; [reflexivity |]. rewrite append_cons. by f_equal. Qed.

Lemma getHash_inj (e1 e2 : BooleanExpression) :
  wellNamed e1 = true → wellNamed e2 = true →
  getHash e1 = getHash e2 → e1 = e2.
Proof.
  intros W1 W2 Heq.
  apply (getHash_prefix_free e1 e2 "" "" W1 W2).
  by rewrite !append_empty_r.
Qed.

(** C6 (hash and structural equality): for expressions whose variable names
    are identifiers that are not reserved words, [equals] holds exactly when
    the hashes agree, and equal hashes come only from the same tree. *)
Theorem equals_iff_getHash (e1 e2 : BooleanExpression) :
  wellNamed e1 = true → wellNamed e2 = true →
  (equals e1 e2 = true ↔ getHash e1 = getHash e2) ∧
  (getHash e1 = getHash e2 → e1 = e2).
Proof.
  intros W1 W2. split; [split |].
  - intros ->%equals_true. reflexivity.
  - intros ->%(getHash_inj _ _ W1 W2). apply equals_refl.
  - by apply getHash_inj.
Qed.

Lemma equals_iff_getHash_witness :
  (equals (Conjunction (Var "a") (Negation (Var "b_1")))
          (Conjunction (Var "a") (Negation (Var "b_1"))) = true ↔
   getHash (Conjunction (Var "a") (Negation (Var "b_1"))) =
   getHash (Conjunction (Var "a") (Negation (Var "b_1")))) ∧
  (getHash (Conjunction (Var "a") (Negation (Var "b_1"))) =
   getHash (Conjunction (Var "a") (Negation (Var "b_1"))) →
   Conjunction (Var "a") (Negation (Var "b_1")) =
   Conjunction (Var "a") (Negation (Var "b_1"))).
Proof.
  apply (equals_iff_getHash (Conjunction (Var "a") (Negation (Var "b_1")))
           (Conjunction (Var "a") (Negation (Var "b_1")))); reflexivity.
Defined.

(** ** Truth tables *)

Section sorted_variables.
Variable e : BooleanExpression.

Lemma sortedVariables_Permutation : sortedVariables e ≡ₚ elements (getVariables e).
Proof. apply merge_sort_Permutation. Qed.

Lemma sortedVariables_elem_of (v : string) :
  v ∈ sortedVariables e ↔ v ∈ getVariables e.
Proof. rewrite sortedVariables_Permutation. apply elem_of_elements. Qed.

Lemma sortedVariables_NoDup : NoDup (sortedVariables e).
Proof. rewrite sortedVariables_Permutation. apply NoDup_elements. Qed.

Lemma sortedVariables_length :
  length (sortedVariables e) = size (getVariables e).
Proof. by rewrite sortedVariables_Permutation. Qed.

Lemma sortedVariables_sorted : StronglySorted String.le (sortedVariables e).
Proof. apply StronglySorted_merge_sort; apply _. Qed.

Lemma sortedVariables_to_set : list_to_set (sortedVariables e) = getVariables e.
Proof.
  apply set_eq. intros v. rewrite elem_of_list_to_set.
  apply sortedVariables_elem_of.
Qed.
End sorted_variables.

(** Identifiers start with a letter: none of them is [__proto__]. *)
Lemma wellNamed_variables (e : BooleanExpression) (v : string) :
  wellNamed e = true → v ∈ getVariables e → isValidVariableName v = true.
Proof.
  induction e as [n | a IHa | o l IHl r IHr | |]; simpl; intros Hnamed Hv.
  - by apply elem_of_singleton in Hv as ->.
  - by apply IHa.
  - apply andb_true_iff in Hnamed as [Hl Hr].
    apply elem_of_union in Hv as [Hv | Hv]; [by apply IHl | by apply IHr].
  - by apply elem_of_empty in Hv.
  - by apply elem_of_empty in Hv.
Qed.

Lemma wellNamed_no_proto (e : BooleanExpression) :
  wellNamed e = true → "__proto__" ∉ sortedVariables e.
Proof.
  intros Hnamed Hin. apply sortedVariables_elem_of in Hin.
  by apply (wellNamed_variables e _ Hnamed) in Hin.
Qed.

Lemma writeProperty_insert (name : string) (value : bool) (σ : Assignment) :
  name ≠ "__proto__" → writeProperty name value σ = <[ name := value ]> σ.
Proof.
  intros Hne. unfold writeProperty.
  by destruct (String.eqb_spec name "__proto__").
Qed.

Section row_assignment.
Variables len i : Z.

(** The boolean the source stores for bit position [p] of row [i]. *)
Let bit (p : Z) : bool := negb (Z.land (Z.shiftr i p) 1 =? 0).

Lemma assignVariables_notin (j : Z) (rest : list string) (σ : Assignment) (v : string) :
  v ∉ rest → assignVariables len i j rest σ !! v = σ !! v.
Proof.
  revert j σ. induction rest as [| w rest IH]; intros j σ Hv; simpl; [done |].
  apply not_elem_of_cons in Hv as [Hne Hv].
  rewrite IH by done. unfold writeProperty.
  destruct (String.eqb w "__proto__"); [done | by rewrite lookup_insert_ne].
Qed.

Lemma assignVariables_lookup (j : Z) (rest : list string) (σ : Assignment)
      (n : nat) (v : string) :
  "__proto__" ∉ rest → NoDup rest → rest !! n = Some v →
  assignVariables len i j rest σ !! v = Some (bit (len - 1 - (j + Z.of_nat n))).
Proof.
  revert j σ n. induction rest as [| w rest IH]; intros j σ n Hplain Hnd Hn; [done |].
  apply not_elem_of_cons in Hplain as [Hw0 Hplain].
  apply NoDup_cons in Hnd as [Hw Hnd]. destruct n as [| n]; simpl in *.
  - simplify_eq. rewrite assignVariables_notin by done.
    rewrite writeProperty_insert by done.
    rewrite lookup_insert_eq. unfold bit.
    by replace (len - 1 - (j + Z.of_nat 0)) with (len - 1 - j) by lia.
  - rewrite (IH _ _ n) by done.
    by replace (len - 1 - (j + 1 + Z.of_nat n)) with (len - 1 - (j + Z.of_nat (S n))) by lia.
Qed.

Lemma assignVariables_dom (j : Z) (rest : list string) (σ : Assignment) :
  "__proto__" ∉ rest →
  dom (assignVariables len i j rest σ) = list_to_set rest ∪ dom σ.
Proof.
  revert j σ. induction rest as [| w rest IH]; intros j σ Hplain; simpl.
  - by rewrite (left_id_L ∅ (∪)).
  - apply not_elem_of_cons in Hplain as [Hw Hplain].
    rewrite IH by done. rewrite writeProperty_insert by done.
    rewrite dom_insert_L, (assoc_L (∪)).
    by rewrite (comm_L (∪) (list_to_set rest) {[w]}).
Qed.
End row_assignment.

Lemma bit_b2z (i p : Z) :
  Z.b2z (negb (Z.land (Z.shiftr i p) 1 =? 0)) = Z.land (Z.shiftr i p) 1.
Proof.
  replace (Z.land (Z.shiftr i p) 1) with (Z.shiftr i p mod 2).
  - pose proof (Z.mod_pos_bound (Z.shiftr i p) 2 ltac:(lia)) as Hb.
    destruct (Z.eqb_spec (Z.shiftr i p mod 2) 0) as [-> | Hne]; simpl; lia.
  - change 1 with (Z.ones 1). rewrite Z.land_ones by lia. reflexivity.
Qed.

Lemma rowAssignment_lookup (vars : list string) (i : Z) (j : nat) (v : string) :
  "__proto__" ∉ vars → NoDup vars → vars !! j = Some v →
  ∃ b, rowAssignment vars i !! v = Some b ∧
       Z.b2z b = Z.land (Z.shiftr i (Z.of_nat (length vars) - 1 - Z.of_nat j)) 1.
Proof.
  intros Hplain Hnd Hj. unfold rowAssignment.
  rewrite (assignVariables_lookup _ _ _ _ _ j v Hplain Hnd Hj).
  eexists. split; [reflexivity |]. rewrite bit_b2z. do 2 f_equal.
Qed.

Lemma rowAssignment_dom (vars : list string) (i : Z) :
  "__proto__" ∉ vars →
  dom (rowAssignment vars i) = list_to_set vars.
Proof.
  intros Hplain. unfold rowAssignment.
  by rewrite assignVariables_dom, dom_empty_L, (right_id_L ∅ (∪)).
Qed.

Lemma rowAssignment_covers (e : BooleanExpression) (i : Z) :
  wellNamed e = true →
  dom (rowAssignment (sortedVariables e) i) = getVariables e.
Proof.
  intros Hnamed.
  by rewrite rowAssignment_dom, sortedVariables_to_set by by apply wellNamed_no_proto.
Qed.

(** The evaluation inside the row loop returns: the branch that records
    [false] for a failed evaluation is not taken. *)
Lemma makeRow_evaluates (e : BooleanExpression) (i : Z) :
  wellNamed e = true →
  let row := makeRow e (sortedVariables e) i in
  assignment row = rowAssignment (sortedVariables e) i ∧
  evaluate e (assignment row) = Some (result row).
Proof.
  intros Hnamed. unfold makeRow.
  destruct (evaluate_is_Some e (rowAssignment (sortedVariables e) i)) as [b Hb].
  { by rewrite rowAssignment_covers. }
  rewrite Hb. simpl. done.
Qed.

Lemma generateTruthTable_small (e : BooleanExpression) :
  Z.of_nat (size (getVariables e)) ≤ MAX_TRUTH_TABLE_VARIABLES →
  generateTruthTable e =
    Ok (mkTruthTable (sortedVariables e)
          (map (makeRow e (sortedVariables e))
               (seqZ 0 (2 ^ Z.of_nat (size (getVariables e)))))
          e).
Proof.
  intros Hk. unfold generateTruthTable, validateVariableCount.
  destruct (Z.gtb_spec (Z.of_nat (size (getVariables e))) MAX_TRUTH_TABLE_VARIABLES);
    [lia |].
  simpl. by rewrite sortedVariables_length.
Qed.

Lemma generateTruthTable_large (e : BooleanExpression) :
  MAX_TRUTH_TABLE_VARIABLES < Z.of_nat (size (getVariables e)) →
  ∃ message, generateTruthTable e = Error message.
Proof.
  intros Hk. unfold generateTruthTable, validateVariableCount.
  destruct (Z.gtb_spec (Z.of_nat (size (getVariables e))) MAX_TRUTH_TABLE_VARIABLES);
    [| lia].
  simpl. eauto.
Qed.

(** C7 (truth table): for an expression over identifiers with [k]
    variables, [k ≤ 15], [generateTruthTable] returns the names in ascending
    order without repetition and [2^k] rows; row [i] assigns the bit
    [(i >> (k-1-j)) & 1] to the variable at sorted position [j] and stores
    the value of [evaluate] under that assignment.  With more than 15
    variables it raises an error. *)
Theorem generateTruthTable_spec (e : BooleanExpression) :
  wellNamed e = true →
  let k := Z.of_nat (size (getVariables e)) in
  (k ≤ 15 →
   ∃ table, generateTruthTable e = Ok table ∧
     StronglySorted String.le (variables table) ∧
     NoDup (variables table) ∧
     (∀ v, v ∈ variables table ↔ v ∈ getVariables e) ∧
     Z.of_nat (length (rows table)) = 2 ^ k ∧
     ∀ i : Z, 0 ≤ i < 2 ^ k →
       ∃ row, rows table !! Z.to_nat i = Some row ∧
         evaluate e (assignment row) = Some (result row) ∧
         ∀ (j : nat) (v : string), variables table !! j = Some v →
           ∃ b, assignment row !! v = Some b ∧
                Z.b2z b = Z.land (Z.shiftr i (k - 1 - Z.of_nat j)) 1) ∧
  (15 < k → ∃ message, generateTruthTable e = Error message).
Proof.
  intros Hnamed k. split; [| apply generateTruthTable_large].
  intros Hk. rewrite generateTruthTable_small by exact Hk.
  eexists. split; [reflexivity |]. simpl.
  split; [apply sortedVariables_sorted |].
  split; [apply sortedVariables_NoDup |].
  split; [apply sortedVariables_elem_of |].
  assert (Hpow : 0 < 2 ^ k) by (apply Z.pow_pos_nonneg; lia).
  split.
  { rewrite length_map, length_seqZ. fold k. lia. }
  intros i Hi. exists (makeRow e (sortedVariables e) i).
  destruct (makeRow_evaluates e i Hnamed) as [Hasg Hev].
  split; [| split].
  - rewrite list_lookup_fmap. fold k. rewrite lookup_seqZ_lt by lia.
    simpl. do 2 f_equal. lia.
  - exact Hev.
  - intros j v Hj. rewrite Hasg.
    destruct (rowAssignment_lookup _ i j v (wellNamed_no_proto e Hnamed)
                (sortedVariables_NoDup e) Hj) as (b & Hb & Hbit).
    exists b. split; [exact Hb |].
    rewrite Hbit, sortedVariables_length. reflexivity.
Qed.

Lemma generateTruthTable_spec_witness :
  ∃ table, generateTruthTable (Disjunction (Var "a") (Negation (Var "a"))) = Ok table ∧
     StronglySorted String.le (variables table) ∧
     NoDup (variables table) ∧
     (∀ v, v ∈ variables table ↔ v ∈ getVariables (Disjunction (Var "a") (Negation (Var "a")))) ∧
     Z.of_nat (length (rows table)) =
       2 ^ Z.of_nat (size (getVariables (Disjunction (Var "a") (Negation (Var "a"))))) ∧
     ∀ i : Z,
       0 ≤ i < 2 ^ Z.of_nat (size (getVariables (Disjunction (Var "a") (Negation (Var "a"))))) →
       ∃ row, rows table !! Z.to_nat i = Some row ∧
         evaluate (Disjunction (Var "a") (Negation (Var "a"))) (assignment row) =
           Some (result row) ∧
         ∀ (j : nat) (v : string), variables table !! j = Some v →
           ∃ b, assignment row !! v = Some b ∧
                Z.b2z b =
                  Z.land (Z.shiftr i
                    (Z.of_nat (size (getVariables (Disjunction (Var "a") (Negation (Var "a")))))
                     - 1 - Z.of_nat j)) 1.
Proof.
  apply (proj1 (generateTruthTable_spec (Disjunction (Var "a") (Negation (Var "a")))
                  eq_refl)).
  vm_compute. discriminate.
Defined.

(** C10 (row assignments are total): for an expression over identifiers
    with at most 15 variables, every row assignment that
    [generateTruthTable] builds has exactly the variables of the expression
    as its domain, [evaluate] returns under it, so that the
    branch recording [false] after a failed evaluation is never taken, and
    the table has [2^k] rows. *)
Theorem generateTruthTable_rows_total (e : BooleanExpression) :
  wellNamed e = true →
  Z.of_nat (size (getVariables e)) ≤ MAX_TRUTH_TABLE_VARIABLES →
  ∃ table, generateTruthTable e = Ok table ∧
    length (rows table) = Z.to_nat (2 ^ Z.of_nat (size (getVariables e))) ∧
    (∀ i : Z, 0 ≤ i < 2 ^ Z.of_nat (size (getVariables e)) →
       dom (rowAssignment (variables table) i) = list_to_set (variables table) ∧
       dom (rowAssignment (variables table) i) = getVariables e ∧
       is_Some (evaluate e (rowAssignment (variables table) i)) ∧
       ∃ row, rows table !! Z.to_nat i = Some row ∧
              assignment row = rowAssignment (variables table) i ∧
              Some (result row) = evaluate e (rowAssignment (variables table) i)) ∧
    Forall (λ row, dom (assignment row) = getVariables e ∧
                   evaluate e (assignment row) = Some (result row)) (rows table).
Proof.
  intros Hnamed Hk. rewrite generateTruthTable_small by exact Hk.
  eexists. split; [reflexivity |]. simpl.
  split; [by rewrite length_map, length_seqZ |].
  split.
  - intros i Hi.
    split; [by apply rowAssignment_dom, wellNamed_no_proto |].
    split; [by apply rowAssignment_covers |].
    split; [apply evaluate_is_Some; by rewrite rowAssignment_covers |].
    exists (makeRow e (sortedVariables e) i).
    destruct (makeRow_evaluates e i Hnamed) as [Hasg Hev].
    split; [| split].
    + rewrite list_lookup_fmap, lookup_seqZ_lt by lia.
      simpl. do 2 f_equal. lia.
    + exact Hasg.
    + by rewrite <- Hasg, Hev.
  - apply Forall_forall. intros row Hrow.
    apply list_elem_of_fmap in Hrow as (i & -> & _).
    destruct (makeRow_evaluates e i Hnamed) as [Hasg Hev].
    split; [| exact Hev].
    rewrite Hasg. by apply rowAssignment_covers.
Qed.

Lemma generateTruthTable_rows_total_witness :
  ∃ table, generateTruthTable (Implication (Var "p") (Var "q")) = Ok table ∧
    length (rows table) =
      Z.to_nat (2 ^ Z.of_nat (size (getVariables (Implication (Var "p") (Var "q"))))) ∧
    (∀ i : Z, 0 ≤ i < 2 ^ Z.of_nat (size (getVariables (Implication (Var "p") (Var "q")))) →
       dom (rowAssignment (variables table) i) = list_to_set (variables table) ∧
       dom (rowAssignment (variables table) i) = getVariables (Implication (Var "p") (Var "q")) ∧
       is_Some (evaluate (Implication (Var "p") (Var "q")) (rowAssignment (variables table) i)) ∧
       ∃ row, rows table !! Z.to_nat i = Some row ∧
              assignment row = rowAssignment (variables table) i ∧
              Some (result row) =
                evaluate (Implication (Var "p") (Var "q")) (rowAssignment (variables table) i)) ∧
    Forall (λ row, dom (assignment row) = getVariables (Implication (Var "p") (Var "q")) ∧
                   evaluate (Implication (Var "p") (Var "q")) (assignment row) =
                     Some (result row)) (rows table).
Proof.
  apply (generateTruthTable_rows_total (Implication (Var "p") (Var "q"))).
  - reflexivity.
  - vm_compute. discriminate.
Defined.

(** The table of [a | !a]: two rows, both true. *)
Example truth_table_excluded_middle :
  (λ t, (variables t, map (λ r, (map_to_list (assignment r), result r)) (rows t))) <$>
    (match generateTruthTable (Disjunction (Var "a") (Negation (Var "a"))) with
     | Ok t => Some t
     | Error _ => None
     end)
  = Some (["a"], [([("a", false)], true); ([("a", true)], true)]).
Proof. vm_compute. reflexivity. Qed.

(** ** Parenthesizer and AST constructor *)

(** The token streams the parser tests of the repository expect. *)
Example addParentheses_precedence :
  addParentheses ["a"; "&"; "b"; "|"; "c"] =
  Ok ["("; "("; "a"; "&"; "b"; ")"; "|"; "c"; ")"].
Proof. reflexivity. Qed.

Example addParentheses_negation :
  addParentheses ["!"; "a"; "&"; "b"] =
  Ok ["("; "("; "!"; "a"; ")"; "&"; "b"; ")"].
Proof. reflexivity. Qed.

Example addParentheses_complex :
  addParentheses ["a"; "&"; "b"; "|"; "c"; "=>"; "d"; "<=>"; "e"] =
  Ok ["("; "("; "("; "("; "a"; "&"; "b"; ")"; "|"; "c"; ")"; "=>"; "d"; ")"; "<=>"; "e"; ")"].
Proof. reflexivity. Qed.

Example addParentheses_triple_negation :
  addParentheses ["!"; "!"; "!"; "a"] =
  Ok ["("; "!"; "("; "!"; "("; "!"; "a"; ")"; ")"; ")"].
Proof. reflexivity. Qed.

Example addParentheses_unbalanced :
  addParentheses ["("; "a"; "&"; "b"] =
  Error "Unbalanced parentheses: missing closing parenthesis".
Proof. reflexivity. Qed.

(** Inside explicit parentheses the parenthesizer leaves a chain alone and
    the loops of the constructor nest it to the left. *)
Example parenthesized_chain_nests_left :
  parseToExpression ["("; "a"; "=>"; "b"; "=>"; "c"; ")"] =
  Some (Ok (Implication (Implication (Var "a") (Var "b")) (Var "c"))).
Proof. reflexivity. Qed.

(** *** Tokens of a chain *)

Lemma valid_not_reserved (x w : string) :
  isValidVariableName x = true → In w reservedWords → String.eqb x w = false.
Proof.
  unfold isValidVariableName. intros H Hw.
  apply andb_true_iff in H as [H _]. apply negb_true_iff in H.
  destruct (String.eqb x w) eqn:E; [| reflexivity].
  assert (existsb (String.eqb x) reservedWords = true) as Hex.
  { apply existsb_exists. eauto. }
  congruence.
Qed.

Lemma valid_plain (x : string) : isValidVariableName x = true → plain x.
Proof.
  intros H. repeat split; apply (valid_not_reserved x _ H); simpl; tauto.
Qed.

Lemma symbol_plain (op : Operator) : plain (getOperatorSymbol op).
Proof. by destruct op. Qed.

Lemma valid_not_symbol (x : string) (op : Operator) :
  isValidVariableName x = true → String.eqb x (getOperatorSymbol op) = false.
Proof.
  intros H. apply (valid_not_reserved x _ H). destruct op; simpl; tauto.
Qed.

Lemma plain_depthStep (t : Token) (d : Z) : plain t → depthStep t d = d.
Proof. intros (H1 & H2 & _). unfold depthStep. by rewrite H1, H2. Qed.

Lemma chainTokens_plain (op : Operator) (first : string) (others : list string) :
  Forall (λ x, isValidVariableName x = true) (first :: others) →
  Forall plain (chainTokens (getOperatorSymbol op) first others).
Proof.
  intros H. apply Forall_cons in H as [Hf Ho]. unfold chainTokens.
  constructor; [by apply valid_plain |].
  induction Ho as [| x rest Hx Hrest IH]; simpl; [constructor |].
  constructor; [apply symbol_plain |].
  constructor; [by apply valid_plain | exact IH].
Qed.

(** *** The descent on a right-nested token stream *)

Section descent_lemmas.
Variable parseInner : list Token → option (Result ParseResult).

Lemma parsePrimary_atom (y : string) (rest : list Token) :
  isValidVariableName y = true →
  parsePrimary parseInner (y :: rest) = Some (Ok (Var y, rest)).
Proof.
  intros Hy. unfold parsePrimary.
  rewrite !(valid_not_reserved y _ Hy) by (simpl; tauto).
  by rewrite Hy.
Qed.

Lemma parsePrimary_group (ts rest : list Token) (e : BooleanExpression) :
  parseInner ts = Some (Ok (e, ")" :: rest)) →
  parsePrimary parseInner ("(" :: ts) = Some (Ok (e, rest)).
Proof. intros H. simpl. by rewrite H. Qed.

Lemma parseNegation_primary (t : Token) (ts : list Token) :
  String.eqb t "!" = false →
  parseNegation parseInner (t :: ts) = parsePrimary parseInner (t :: ts).
Proof. intros H. simpl. by rewrite H. Qed.

Lemma binaryLoop_stops (fuel : nat) (o : Token) (op : Operator)
      (sub : list Token → option (Result ParseResult))
      (e : BooleanExpression) (r : list Token) :
  stops o r → binaryLoop fuel o op sub e r = Some (Ok (e, r)).
Proof.
  destruct r as [| t r]; intros H; destruct fuel; simpl in *; by rewrite ?H.
Qed.

Lemma parseLevel_stops (fuel : nat) (o : Token) (op : Operator)
      (sub : list Token → option (Result ParseResult))
      (ts : list Token) (e : BooleanExpression) (r : list Token) :
  sub ts = Some (Ok (e, r)) → stops o r →
  parseLevel fuel o op sub ts = Some (Ok (e, r)).
Proof. intros Hs Hr. unfold parseLevel. rewrite Hs. by apply binaryLoop_stops. Qed.

Lemma parseLevel_once (fuel : nat) (o : Token) (op : Operator)
      (sub : list Token → option (Result ParseResult))
      (ts r1 r2 : list Token) (e1 e2 : BooleanExpression) :
  sub ts = Some (Ok (e1, o :: r1)) → sub r1 = Some (Ok (e2, r2)) → stops o r2 →
  parseLevel (S fuel) o op sub ts = Some (Ok (BinaryOperation op e1 e2, r2)).
Proof.
  intros H1 H2 Hr. unfold parseLevel. rewrite H1. simpl.
  rewrite String.eqb_refl, H2. by apply binaryLoop_stops.
Qed.

(** Every level returns what [parsePrimary] returns when the tokens start
    with no negation and what follows is a closing parenthesis or the end
    of the tokens. *)
Lemma levels_pass (fuel : nat) (t : Token) (ts r : list Token) (e : BooleanExpression) :
  String.eqb t "!" = false →
  parsePrimary parseInner (t :: ts) = Some (Ok (e, r)) →
  (r = [] ∨ ∃ r', r = ")" :: r') →
  parseConjunction parseInner fuel (t :: ts) = Some (Ok (e, r)) ∧
  parseDisjunction parseInner fuel (t :: ts) = Some (Ok (e, r)) ∧
  parseImplication parseInner fuel (t :: ts) = Some (Ok (e, r)) ∧
  parseBiconditional parseInner fuel (t :: ts) = Some (Ok (e, r)).
Proof.
  intros Ht Hp Hr.
  assert (∀ o, In o ["&"; "|"; "=>"; "<=>"] → stops o r) as Hstop.
  { intros o Ho. destruct Hr as [-> | [r' ->]]; simpl; [done |].
    simpl in Ho. destruct Ho as [<- | [<- | [<- | [<- | []]]]]; reflexivity. }
  assert (parseConjunction parseInner fuel (t :: ts) = Some (Ok (e, r))) as H1.
  { apply parseLevel_stops; [by rewrite parseNegation_primary | apply Hstop; simpl; tauto]. }
  assert (parseDisjunction parseInner fuel (t :: ts) = Some (Ok (e, r))) as H2.
  { apply parseLevel_stops; [exact H1 | apply Hstop; simpl; tauto]. }
  assert (parseImplication parseInner fuel (t :: ts) = Some (Ok (e, r))) as H3.
  { apply parseLevel_stops; [exact H2 | apply Hstop; simpl; tauto]. }
  repeat split; try assumption.
  apply parseLevel_stops; [exact H3 | apply Hstop; simpl; tauto].
Qed.
End descent_lemmas.

Lemma stops_close (o : Token) (r : list Token) :
  In o ["&"; "|"; "=>"; "<=>"] → stops o (")" :: r).
Proof.
  simpl. intros [<- | [<- | [<- | [<- | []]]]]; reflexivity.
Qed.

(** One binary operation between an atom and a primary, closed by a
    parenthesis: the level of the operator builds the node and every other
    level passes it on. *)
Lemma parseBiconditional_binary (parseInner : list Token → option (Result ParseResult))
      (fuel : nat) (op : Operator) (y t : string) (ts r : list Token)
      (e2 : BooleanExpression) :
  isValidVariableName y = true →
  String.eqb t "!" = false →
  parsePrimary parseInner (t :: ts) = Some (Ok (e2, ")" :: r)) →
  parseBiconditional parseInner (S fuel) (y :: getOperatorSymbol op :: t :: ts) =
    Some (Ok (BinaryOperation op (Var y) e2, ")" :: r)).
Proof.
  intros Hy Ht Hp.
  pose proof (valid_plain y Hy) as (_ & _ & Hyn).
  destruct (levels_pass parseInner (S fuel) t ts (")" :: r) e2 Ht Hp
              ltac:(right; eauto)) as (Hc2 & Hd2 & Hi2 & Hb2).
  assert (Hn1 : ∀ rest, parseNegation parseInner (y :: rest) = Some (Ok (Var y, rest))).
  { intros rest. rewrite parseNegation_primary by exact Hyn. by apply parsePrimary_atom. }
  assert (Hn2 : parseNegation parseInner (t :: ts) = Some (Ok (e2, ")" :: r))).
  { by rewrite parseNegation_primary. }
  destruct op; simpl getOperatorSymbol;
    unfold parseBiconditional, parseImplication, parseDisjunction, parseConjunction.
  - apply parseLevel_stops; [| by apply stops_close; simpl; tauto].
    apply parseLevel_stops; [| by apply stops_close; simpl; tauto].
    apply parseLevel_stops; [| by apply stops_close; simpl; tauto].
    eapply parseLevel_once; [apply Hn1 | apply Hn2 | by apply stops_close; simpl; tauto].
  - apply parseLevel_stops; [| by apply stops_close; simpl; tauto].
    apply parseLevel_stops; [| by apply stops_close; simpl; tauto].
    eapply parseLevel_once; [| apply Hc2 | by apply stops_close; simpl; tauto].
    apply parseLevel_stops; [apply Hn1 | reflexivity].
  - apply parseLevel_stops; [| by apply stops_close; simpl; tauto].
    eapply parseLevel_once; [| apply Hd2 | by apply stops_close; simpl; tauto].
    apply parseLevel_stops; [| reflexivity].
    apply parseLevel_stops; [apply Hn1 | reflexivity].
  - eapply parseLevel_once; [| apply Hi2 | by apply stops_close; simpl; tauto].
    apply parseLevel_stops; [| reflexivity].
    apply parseLevel_stops; [| reflexivity].
    apply parseLevel_stops; [apply Hn1 | reflexivity].
Qed.

Lemma nestTokens_head (o : Token) (z : string) (post : list string) :
  isValidVariableName z = true →
  ∃ t ts, nestTokens o z post = t :: ts ∧ String.eqb t "!" = false.
Proof.
  intros Hz. destruct post as [| w post]; simpl.
  - exists z, []. split; [done |]. by destruct (valid_plain z Hz) as (_ & _ & ?).
  - eexists _, _. split; [reflexivity |]. reflexivity.
Qed.

Lemma nestTokens_length (o : Token) (z : string) (post : list string) :
  length (nestTokens o z post) = (1 + 4 * length post)%nat.
Proof.
  revert z. induction post as [| w post IH]; intros z; simpl; [done |].
  rewrite length_app, IH. simpl. lia.
Qed.

Lemma parsePrimary_nestTokens (op : Operator) (post : list string) :
  ∀ (y : string) (rest : list Token) (fuel : nat),
    Forall (λ x, isValidVariableName x = true) (y :: post) →
    (length post ≤ fuel)%nat →
    parsePrimary (parseExpression fuel) (nestTokens (getOperatorSymbol op) y post ++ rest) =
      Some (Ok (rightNested op y post, rest)).
Proof.
  induction post as [| z post IH]; intros y rest fuel Hall Hfuel.
  - apply Forall_cons in Hall as [Hy _]. simpl. by apply parsePrimary_atom.
  - apply Forall_cons in Hall as [Hy Hall].
    pose proof Hall as Hall'. apply Forall_cons in Hall' as [Hz _].
    destruct fuel as [| fuel]; [simpl in Hfuel; lia |].
    simpl in Hfuel. simpl nestTokens. simpl rightNested.
    rewrite <- !app_comm_cons, <- app_assoc. simpl app.
    apply parsePrimary_group.
    destruct (nestTokens_head (getOperatorSymbol op) z post Hz) as (t & ts & Hnest & Ht).
    specialize (IH z (")" :: rest) fuel Hall ltac:(lia)).
    rewrite Hnest in IH |- *. simpl app in IH |- *.
    cbn [parseExpression length].
    by apply parseBiconditional_binary.
Qed.

Lemma constructAST_nestTokens (op : Operator) (first : string) (others : list string) :
  Forall (λ x, isValidVariableName x = true) (first :: others) →
  constructAST (nestTokens (getOperatorSymbol op) first others) =
    Some (Ok (rightNested op first others)).
Proof.
  intros Hall. pose proof Hall as Hall'. apply Forall_cons in Hall' as [Hf _].
  pose proof (parsePrimary_nestTokens op others first []
                (length (nestTokens (getOperatorSymbol op) first others)) Hall) as Hp.
  rewrite app_nil_r in Hp.
  destruct (nestTokens_head (getOperatorSymbol op) first others Hf) as (t & ts & Hnest & Ht).
  unfold constructAST. rewrite Hnest in *.
  cbn [parseExpression].
  destruct (levels_pass (parseExpression (length (t :: ts))) (length (t :: ts))
              t ts [] (rightNested op first others) Ht) as (_ & _ & _ & Hb).
  - apply Hp. rewrite <- Hnest, nestTokens_length. lia.
  - by left.
  - by rewrite Hb.
Qed.

(** *** The parenthesizer on plain tokens *)

Lemma validateParentheses_loop_plain (ts : list Token) (d : Z) :
  Forall plain ts → validateParentheses_loop ts d = Ok d.
Proof.
  intros H. revert d. induction H as [| t ts (H1 & H2 & _) _ IH]; intros d; simpl; [done |].
  by rewrite H1, H2.
Qed.

Lemma validateParentheses_plain (ts : list Token) :
  Forall plain ts → validateParentheses ts = Ok tt.
Proof.
  intros H. unfold validateParentheses. by rewrite validateParentheses_loop_plain.
Qed.

Lemma isFullyParenthesized_head (t : Token) (ts : list Token) :
  String.eqb t "(" = false → isFullyParenthesized (t :: ts) = false.
Proof.
  intros H. unfold isFullyParenthesized.
  destruct (length (t :: ts) <? 3)%nat; [done |].
  rewrite bool_decide_eq_false_2; [done |].
  simpl. intros [= ->]. discriminate H.
Qed.

Lemma addNegationParentheses_plain (ts : list Token) :
  Forall plain ts → addNegationParentheses ts = Ok ts.
Proof.
  unfold addNegationParentheses.
  induction 1 as [| t ts (_ & _ & H3) _ IH]; simpl; [done |].
  by rewrite H3, IH.
Qed.

Lemma fold_depthStep_plain (ts : list Token) (d : Z) :
  Forall plain ts → fold_left (λ depth t, depthStep t depth) ts d = d.
Proof.
  intros H. revert d. induction H as [| t ts Ht _ IH]; intros d; simpl; [done |].
  by rewrite plain_depthStep, IH.
Qed.

Lemma isOperatorInParentheses_plain (ts : list Token) (i : nat) :
  Forall plain ts → isOperatorInParentheses ts i = false.
Proof.
  intros H. unfold isOperatorInParentheses.
  rewrite fold_depthStep_plain; [done |]. by apply Forall_take.
Qed.

Lemma operatorIndices_plain (ts : list Token) (o : Token) :
  Forall plain ts →
  operatorIndices ts o = reverse (filter (λ i, ts !! i = Some o) (seq 0 (length ts))).
Proof.
  intros H. unfold operatorIndices. rewrite filter_reverse. f_equal.
  apply list_filter_iff. intros i. rewrite isOperatorInParentheses_plain by done.
  tauto.
Qed.

Lemma operatorIndices_absent (ts : list Token) (o : Token) :
  Forall (λ t, String.eqb t o = false) ts → operatorIndices ts o = [].
Proof.
  intros H. unfold operatorIndices.
  induction (reverse (seq 0 (length ts))) as [| i l IH]; [done |].
  rewrite filter_cons_False; [exact IH |].
  intros [Hi _]. apply list_elem_of_lookup_2 in Hi.
  rewrite Forall_forall in H. specialize (H _ Hi).
  by rewrite String.eqb_refl in H.
Qed.

Lemma addOperatorParentheses_absent (ts : list Token) (o : Token) :
  Forall (λ t, String.eqb t o = false) ts → addOperatorParentheses ts o = Ok ts.
Proof.
  intros H. unfold addOperatorParentheses.
  rewrite operatorIndices_absent by done. simpl.
  by destruct (isFullyParenthesized ts).
Qed.

(** *** Positions of the operator in a chain *)

Lemma filter_positions_alternating (o : Token) (others : list string) :
  Forall (λ x, String.eqb x o = false) others →
  ∀ pre : list Token,
    filter (λ i, (pre ++ flat_map (λ x, [o; x]) others) !! i = Some o)
           (seq (length pre) (2 * length others)) =
    map (λ k, length pre + 2 * k)%nat (seq 0 (length others)).
Proof.
  induction 1 as [| x rest Hx _ IH]; intros pre; [done |].
  replace (2 * length (x :: rest))%nat with (S (S (2 * length rest))) by (simpl; lia).
  cbn [seq flat_map app length map].
  rewrite filter_cons_True.
  2:{ rewrite lookup_app_r by lia. by rewrite Nat.sub_diag. }
  rewrite filter_cons_False.
  2:{ rewrite lookup_app_r by lia.
      replace (S (length pre) - length pre)%nat with 1%nat by lia. simpl.
      intros [= ->]. by rewrite String.eqb_refl in Hx. }
  f_equal; [lia |].
  specialize (IH (pre ++ [o; x])).
  rewrite <- app_assoc, length_app in IH. cbn [app length] in IH.
  replace (length pre + 2)%nat with (S (S (length pre))) in IH by lia.
  rewrite IH. rewrite <- fmap_S_seq.
  change (map ?f (S <$> ?l)) with (f <$> (S <$> l)).
  rewrite <- list_fmap_compose. apply list_fmap_ext. intros _ k _. simpl. lia.
Qed.

Lemma operatorIndices_chain (op : Operator) (first : string) (others : list string) :
  Forall (λ x, isValidVariableName x = true) (first :: others) →
  operatorIndices (chainTokens (getOperatorSymbol op) first others) (getOperatorSymbol op) =
    oddsDown (length others).
Proof.
  intros Hall. rewrite operatorIndices_plain by (by apply chainTokens_plain).
  unfold oddsDown. f_equal.
  apply Forall_cons in Hall as [Hf Ho].
  unfold chainTokens. cbn [length seq].
  rewrite filter_cons_False.
  2:{ simpl. intros [= E]. pose proof (valid_not_symbol first op Hf) as Hne.
      rewrite E, String.eqb_refl in Hne. discriminate. }
  assert (Hlen : length (flat_map (λ x : string, [getOperatorSymbol op; x]) others)
                 = (2 * length others)%nat).
  { clear. induction others as [| x rest IH]; simpl in *; lia. }
  rewrite Hlen.
  pose proof (filter_positions_alternating (getOperatorSymbol op) others) as Hfilter.
  specialize (Hfilter ltac:(eapply Forall_impl; [exact Ho |];
                            intros x Hx; by apply valid_not_symbol) [first]).
  simpl app in Hfilter. simpl length in Hfilter.
  rewrite Hfilter. apply list_fmap_ext. intros _ k _. lia.
Qed.

(** *** One pass of [addOperatorParentheses] over a chain *)

Section chain_pass.
Variable op : Operator.
Let o : Token := getOperatorSymbol op.

Lemma scanForward_nestTokens (post : list string) :
  ∀ (y : string) (rest : list Token) (d : Z) (i : nat),
    Forall (λ x, isValidVariableName x = true) (y :: post) →
    0 < d →
    scanForward (nestTokens o y post ++ rest) d i =
      scanForward rest d (i + length (nestTokens o y post))%nat.
Proof.
  induction post as [| z post IH]; intros y rest d i Hall Hd;
    apply Forall_cons in Hall as [Hy Hall].
  - simpl. destruct (Z.ltb_spec 0 d); [| lia].
    rewrite plain_depthStep by (by apply valid_plain).
    f_equal. lia.
  - cbn [nestTokens]. rewrite <- !app_comm_cons, <- app_assoc.
    cbn [scanForward].
    destruct (Z.ltb_spec 0 d); [| lia].
    change (depthStep "(" d) with (d + 1).
    destruct (Z.ltb_spec 0 (d + 1)); [| lia].
    rewrite (plain_depthStep y) by (by apply valid_plain).
    destruct (Z.ltb_spec 0 (d + 1)); [| lia].
    rewrite (plain_depthStep o) by apply symbol_plain.
    rewrite IH by (done || lia).
    cbn [app scanForward].
    destruct (Z.ltb_spec 0 (d + 1)); [| lia].
    change (depthStep ")" (d + 1)) with (d + 1 - 1).
    replace (d + 1 - 1) with d by lia.
    f_equal. cbn [length]. rewrite length_app. simpl. lia.
Qed.

Lemma findRightOperandEnd_nestTokens (A : list Token) (p y : string) (post : list string) :
  Forall (λ x, isValidVariableName x = true) (y :: post) →
  findRightOperandEnd (A ++ p :: o :: nestTokens o y post) (length A + 1) =
    Ok (length A + 1 + length (nestTokens o y post))%nat.
Proof.
  intros Hall. unfold findRightOperandEnd.
  replace (length A + 1 + 1)%nat with (length A + 2)%nat by lia.
  rewrite lookup_app_r by lia.
  replace (length A + 2 - length A)%nat with 2%nat by lia.
  destruct post as [| z post].
  - apply Forall_cons in Hall as [Hy _]. simpl.
    rewrite bool_decide_eq_false_2; [f_equal; lia |].
    intros [= ->]. by destruct (valid_plain "(" Hy) as (? & _).
  - cbn [nestTokens lookup list_lookup].
    rewrite bool_decide_eq_true_2 by reflexivity.
    replace (A ++ p :: o :: "(" :: y :: o :: nestTokens o z post ++ [")"])
      with ((A ++ [p; o; "("]) ++ y :: o :: nestTokens o z post ++ [")"])
      by (by rewrite <- app_assoc).
    rewrite drop_app_length' by (rewrite length_app; simpl; lia).
    assert (Hy : isValidVariableName y = true) by (by apply Forall_cons in Hall as [? _]).
    assert (Hrest : Forall (λ x, isValidVariableName x = true) (z :: post))
      by (by apply Forall_cons in Hall as [_ ?]).
    cbn [scanForward]. simpl (0 <? 1).
    rewrite (plain_depthStep y) by (by apply valid_plain).
    simpl (0 <? 1).
    rewrite (plain_depthStep o) by apply symbol_plain.
    rewrite scanForward_nestTokens by (done || lia).
    cbn [scanForward]. simpl (0 <? 1).
    change (depthStep ")" 1) with 0. simpl (0 =? 0).
    f_equal. cbn [length]. rewrite length_app. simpl. lia.
Qed.

Lemma indexOf_here (A : list Token) (p : Token) (rest : list Token) :
  indexOf (A ++ p :: o :: rest) o (length A + 1) = Some (length A + 1)%nat.
Proof.
  unfold indexOf.
  replace (A ++ p :: o :: rest) with ((A ++ [p]) ++ o :: rest)
    by (by rewrite <- app_assoc).
  rewrite drop_app_length' by (rewrite length_app; simpl; lia).
  simpl. by rewrite String.eqb_refl.
Qed.

Lemma addOperatorParentheses_step_chain (A : list Token) (p y : string)
      (post : list string) :
  Forall (λ x, isValidVariableName x = true) (p :: y :: post) →
  addOperatorParentheses_step o (A ++ p :: o :: nestTokens o y post) (length A + 1) =
    Ok (A ++ nestTokens o p (y :: post)).
Proof.
  intros Hall. apply Forall_cons in Hall as [Hp Hall].
  unfold addOperatorParentheses_step.
  pose proof (nestTokens_length o y post) as Hlen.
  assert (Htotal : length (A ++ p :: o :: nestTokens o y post) =
                   (length A + 2 + length (nestTokens o y post))%nat).
  { rewrite length_app. simpl. lia. }
  destruct (Nat.leb_spec (length (A ++ p :: o :: nestTokens o y post)) (length A + 1));
    [lia |].
  rewrite indexOf_here.
  destruct (Nat.eqb_spec (length A + 1) 0); [lia |].
  destruct (Nat.eqb_spec (length A + 1)
              (length (A ++ p :: o :: nestTokens o y post) - 1)); [lia |].
  cbn [orb].
  unfold findLeftOperandStart.
  replace (length A + 1 - 1)%nat with (length A) by lia.
  rewrite lookup_app_r, Nat.sub_diag by lia. cbn [lookup list_lookup].
  rewrite bool_decide_eq_false_2.
  2:{ intros [= ->]. by destruct (valid_plain ")" Hp) as (_ & ? & _). }
  rewrite findRightOperandEnd_nestTokens by done.
  f_equal. unfold splice_insert.
  rewrite (take_ge (A ++ _)), (drop_ge (A ++ _)) by lia.
  rewrite <- app_assoc. cbn [app].
  rewrite take_app_length, drop_app_length.
  reflexivity.
Qed.

(** The loop over the operator positions, rightmost first: the atoms of
    [pre] still wait in the flat prefix, the rest is nested already. *)
Lemma addOperatorParentheses_loop_chain (pre : list string) :
  ∀ (y : string) (post : list string),
    Forall (λ x, isValidVariableName x = true) (pre ++ y :: post) →
    addOperatorParentheses_loop o (oddsDown (length pre))
      (flat_map (λ x, [x; o]) pre ++ nestTokens o y post) =
    Ok (match pre ++ y :: post with
        | [] => []
        | x :: rest => nestTokens o x rest
        end).
Proof.
  induction pre as [| p pre IH] using rev_ind; intros y post Hall.
  - reflexivity.
  - rewrite length_app. cbn [length].
    unfold oddsDown. rewrite Nat.add_1_r, seq_S, map_app, reverse_app.
    cbn [map reverse app rev_append Nat.add].
    change (reverse (map (λ k : nat, (2 * k + 1)%nat) (seq 0 (length pre))))
      with (oddsDown (length pre)).
    cbn [addOperatorParentheses_loop].
    rewrite flat_map_app. cbn [flat_map]. rewrite app_nil_r, <- app_assoc.
    cbn [app].
    assert (Hlen : length (flat_map (λ x : string, [x; o]) pre) = (2 * length pre)%nat).
    { clear. induction pre as [| x rest IH]; simpl in *; lia. }
    rewrite <- Hlen.
    rewrite <- app_assoc in Hall. cbn [app] in Hall.
    rewrite addOperatorParentheses_step_chain.
    2:{ by apply Forall_app in Hall as [_ ?]. }
    rewrite IH by done.
    by rewrite <- app_assoc.
Qed.
End chain_pass.

Lemma chainTokens_snoc (o : Token) (pre : list string) :
  ∀ (y first : string) (others : list string),
    first :: others = pre ++ [y] →
    chainTokens o first others = flat_map (λ x, [x; o]) pre ++ [y].
Proof.
  induction pre as [| p pre IH]; intros y first others Heq.
  - simpl in Heq. by simplify_eq.
  - simpl in Heq. injection Heq as -> ->.
    destruct pre as [| q pre'].
    + reflexivity.
    + specialize (IH y q (pre' ++ [y]) eq_refl).
      unfold chainTokens in *. cbn [flat_map app] in *.
      by rewrite IH.
Qed.

Lemma symbols_distinct (op op' : Operator) :
  op ≠ op' → String.eqb (getOperatorSymbol op) (getOperatorSymbol op') = false.
Proof. by destruct op, op'. Qed.

Lemma chainTokens_other_symbol (op op' : Operator) (first : string) (others : list string) :
  op ≠ op' →
  Forall (λ x, isValidVariableName x = true) (first :: others) →
  Forall (λ t, String.eqb t (getOperatorSymbol op') = false)
         (chainTokens (getOperatorSymbol op) first others).
Proof.
  intros Hne Hall. apply Forall_cons in Hall as [Hf Ho]. unfold chainTokens.
  constructor; [by apply valid_not_symbol |].
  induction Ho as [| x rest Hx _ IH]; simpl; [constructor |].
  constructor; [by apply symbols_distinct |].
  constructor; [by apply valid_not_symbol | exact IH].
Qed.

Lemma nestTokens_other_symbol (op op' : Operator) (others : list string) :
  op ≠ op' →
  ∀ first, Forall (λ x, isValidVariableName x = true) (first :: others) →
  Forall (λ t, String.eqb t (getOperatorSymbol op') = false)
         (nestTokens (getOperatorSymbol op) first others).
Proof.
  intros Hne. induction others as [| x rest IH]; intros first Hall;
    apply Forall_cons in Hall as [Hf Ho]; cbn [nestTokens].
  - constructor; [by apply valid_not_symbol | constructor].
  - constructor; [by destruct op' |].
    constructor; [by apply valid_not_symbol |].
    constructor; [by apply symbols_distinct |].
    apply Forall_app. split; [by apply IH |].
    constructor; [by destruct op' | constructor].
Qed.

Lemma addOperatorParentheses_chain (op : Operator) (first : string) (others : list string) :
  Forall (λ x, isValidVariableName x = true) (first :: others) →
  addOperatorParentheses (chainTokens (getOperatorSymbol op) first others)
                         (getOperatorSymbol op) =
    Ok (nestTokens (getOperatorSymbol op) first others).
Proof.
  intros Hall. unfold addOperatorParentheses.
  assert (Hfirst : isValidVariableName first = true) by (by apply Forall_cons in Hall as [? _]).
  unfold chainTokens at 1.
  rewrite isFullyParenthesized_head by (by destruct (valid_plain first Hfirst) as (? & _)).
  fold (chainTokens (getOperatorSymbol op) first others).
  rewrite operatorIndices_chain by done.
  destruct (exists_last (l := first :: others) ltac:(discriminate)) as (pre & y & Heq).
  assert (Hlen : length others = length pre).
  { apply (f_equal length) in Heq. rewrite length_app in Heq. simpl in Heq. lia. }
  rewrite (chainTokens_snoc _ pre y first others Heq), Hlen.
  change [y] with (nestTokens (getOperatorSymbol op) y []).
  rewrite addOperatorParentheses_loop_chain by (by rewrite <- Heq).
  by rewrite <- Heq.
Qed.

Ltac other_symbol :=
  first [ by apply (nestTokens_other_symbol _ AND)
        | by apply (nestTokens_other_symbol _ OR)
        | by apply (nestTokens_other_symbol _ IMP)
        | by apply (nestTokens_other_symbol _ IFF) ].

Lemma addParentheses_chain (op : Operator) (first : string) (others : list string) :
  Forall (λ x, isValidVariableName x = true) (first :: others) →
  addParentheses (chainTokens (getOperatorSymbol op) first others) =
    Ok (nestTokens (getOperatorSymbol op) first others).
Proof.
  intros Hall.
  assert (Hfirst : isValidVariableName first = true) by (by apply Forall_cons in Hall as [? _]).
  pose proof (chainTokens_plain op first others Hall) as Hplain.
  unfold addParentheses.
  rewrite validateParentheses_plain, addNegationParentheses_plain by done.
  unfold chainTokens at 1 2.
  rewrite isFullyParenthesized_head by (by destruct (valid_plain first Hfirst) as (? & _)).
  fold (chainTokens (getOperatorSymbol op) first others).
  destruct op; cbn [addParentheses_operators].
  - rewrite (addOperatorParentheses_chain AND) by done.
    rewrite !addOperatorParentheses_absent; first done.
    all: other_symbol.
  - rewrite (addOperatorParentheses_absent _ "&")
      by (by apply (chainTokens_other_symbol OR AND)).
    rewrite (addOperatorParentheses_chain OR) by done.
    rewrite !addOperatorParentheses_absent; first done.
    all: other_symbol.
  - rewrite (addOperatorParentheses_absent _ "&")
      by (by apply (chainTokens_other_symbol IMP AND)).
    rewrite (addOperatorParentheses_absent _ "|")
      by (by apply (chainTokens_other_symbol IMP OR)).
    rewrite (addOperatorParentheses_chain IMP) by done.
    rewrite !addOperatorParentheses_absent; first done.
    all: other_symbol.
  - rewrite (addOperatorParentheses_absent _ "&")
      by (by apply (chainTokens_other_symbol IFF AND)).
    rewrite (addOperatorParentheses_absent _ "|")
      by (by apply (chainTokens_other_symbol IFF OR)).
    rewrite (addOperatorParentheses_absent _ "=>")
      by (by apply (chainTokens_other_symbol IFF IMP)).
    by rewrite (addOperatorParentheses_chain IFF) by done.
Qed.

(** C3, the claim as stated fails: [a & b & c] does not parse to
    [Conjunction(Conjunction(a, b), c)]. *)
Lemma chain_left_nesting_counterexample :
  parseToExpression ["a"; "&"; "b"; "&"; "c"] =
    Some (Ok (Conjunction (Var "a") (Conjunction (Var "b") (Var "c")))) ∧
  parseToExpression ["a"; "&"; "b"; "&"; "c"] ≠
    Some (Ok (Conjunction (Conjunction (Var "a") (Var "b")) (Var "c"))).
Proof. split; [reflexivity | discriminate]. Qed.

(** C3 (associativity of chains), amended: an unparenthesized chain
    [x1 op x2 op ... op xn] of variables under one binary operator, whichever
    of [&], [|], [=>] and [<=>] it is, parses to the right-nested tree
    [x1 op (x2 op (... op xn))]; [a & b & c] parses to
    [Conjunction(a, Conjunction(b, c))] and [a => b => c] to
    [Implication(a, Implication(b, c))]. *)
Theorem chain_parses_right_nested (op : Operator) (first : string) (others : list string) :
  Forall (λ x, isValidVariableName x = true) (first :: others) →
  parseToExpression (chainTokens (getOperatorSymbol op) first others) =
    Some (Ok (rightNested op first others)).
Proof.
  intros Hall. unfold parseToExpression.
  unfold chainTokens at 1.
  rewrite addParentheses_chain by done.
  by apply constructAST_nestTokens.
Qed.

Lemma chain_parses_right_nested_witness :
  parseToExpression (chainTokens (getOperatorSymbol IMP) "a" ["b"; "c"]) =
    Some (Ok (rightNested IMP "a" ["b"; "c"])).
Proof.
  apply (chain_parses_right_nested IMP "a" ["b"; "c"]).
  repeat constructor.
Defined.

Example chain_and : parseToExpression ["a"; "&"; "b"; "&"; "c"] =
  Some (Ok (Conjunction (Var "a") (Conjunction (Var "b") (Var "c")))).
Proof. exact (chain_parses_right_nested AND "a" ["b"; "c"] ltac:(repeat constructor)). Qed.

Example chain_implies : parseToExpression ["a"; "=>"; "b"; "=>"; "c"] =
  Some (Ok (Implication (Var "a") (Implication (Var "b") (Var "c")))).
Proof. exact (chain_parses_right_nested IMP "a" ["b"; "c"] ltac:(repeat constructor)). Qed.

(** ** Proof search *)

(** *** The rewrite driver *)

Lemma getAllPossibleTransformations_unfold (rules : list TransformationRule)
      (e : BooleanExpression) (maxLength : Z) :
  getAllPossibleTransformations rules e maxLength =
    rootTransformations rules e maxLength ++
    getSubexpressionTransformations rules e maxLength.
Proof. by destruct e. Qed.

Lemma In_rootTransformations (rules : list TransformationRule) (e : BooleanExpression)
      (maxLength : Z) (t : Transformation.t) :
  In t (rootTransformations rules e maxLength) ↔
  ∃ r, In r rules ∧ canApply r e = true ∧
       apply r e = Returned (Transformation.newExpression t) ∧
       getLength (Transformation.newExpression t) ≤ maxLength ∧
       t = Transformation.mk (Transformation.newExpression t) r e.
Proof.
  unfold rootTransformations. rewrite in_flat_map. split.
  - intros (r & Hr & Ht).
    destruct (canApply r e) eqn:Hcan; [| destruct Ht].
    destruct (apply r e) as [e' | m |] eqn:Happ; try destruct Ht.
    destruct (Z.leb_spec (getLength e') maxLength); [| destruct Ht].
    destruct Ht as [<- | []]. exists r. simpl. auto.
  - intros (r & Hr & Hcan & Happ & Hlen & Ht).
    exists r. split; [exact Hr |]. rewrite Hcan, Happ.
    destruct (Z.leb_spec (getLength (Transformation.newExpression t)) maxLength); [| lia].
    left. symmetry. exact Ht.
Qed.

Lemma In_liftTransformations (wrap : BooleanExpression → BooleanExpression)
      (maxLength : Z) (inner : list Transformation.t) (t : Transformation.t) :
  In t (liftTransformations wrap maxLength inner) ↔
  ∃ t0, In t0 inner ∧
        getLength (wrap (Transformation.newExpression t0)) ≤ maxLength ∧
        t = Transformation.mk (wrap (Transformation.newExpression t0))
              (Transformation.rule t0) (Transformation.appliedToSubexpression t0).
Proof.
  unfold liftTransformations. rewrite in_flat_map. split.
  - intros (t0 & Ht0 & Ht). cbn zeta in Ht.
    destruct (Z.leb_spec (getLength (wrap (Transformation.newExpression t0))) maxLength);
      [| destruct Ht].
    destruct Ht as [<- | []]. eauto.
  - intros (t0 & Ht0 & Hlen & ->). exists t0. split; [exact Ht0 |]. cbn zeta.
    destruct (Z.leb_spec (getLength (wrap (Transformation.newExpression t0))) maxLength);
      [| lia].
    by left.
Qed.

(** Every transformation the driver returns is short enough: the length
    filter comes before anything else is done with the new expression. *)
Lemma getAllPossibleTransformations_length (rules : list TransformationRule)
      (e : BooleanExpression) (maxLength : Z) (t : Transformation.t) :
  In t (getAllPossibleTransformations rules e maxLength) →
  getLength (Transformation.newExpression t) ≤ maxLength.
Proof.
  rewrite getAllPossibleTransformations_unfold, in_app_iff.
  intros [Hroot | Hsub].
  - apply In_rootTransformations in Hroot as (r & _ & _ & _ & Hlen & _). exact Hlen.
  - destruct e as [n | a | op l r | |]; simpl in Hsub; try contradiction.
    + apply In_liftTransformations in Hsub as (t0 & _ & Hlen & ->). exact Hlen.
    + apply in_app_iff in Hsub as [Hl | Hr].
      * apply In_liftTransformations in Hl as (t0 & _ & Hlen & ->). exact Hlen.
      * apply In_liftTransformations in Hr as (t0 & _ & Hlen & ->). exact Hlen.
Qed.

(** The driver enumerates the single-position rule applications whose
    result is short enough, and nothing else. *)
Lemma getAllPossibleTransformations_sound (rules : list TransformationRule)
      (e : BooleanExpression) :
  ∀ (maxLength : Z) (t : Transformation.t),
    In t (getAllPossibleTransformations rules e maxLength) →
    rewriteStep rules e (Transformation.newExpression t).
Proof.
  induction e as [n | a IHa | op l IHl r IHr | |]; intros maxLength t;
    rewrite getAllPossibleTransformations_unfold, in_app_iff;
    (intros [Hroot | Hsub];
     [apply In_rootTransformations in Hroot as (rl & Hin & Hcan & Happ & _ & _);
      by eapply rewrite_root |]);
    simpl in Hsub; try contradiction.
  - apply In_liftTransformations in Hsub as (t0 & Ht0 & _ & ->). simpl.
    apply rewrite_negation. by eapply IHa.
  - apply in_app_iff in Hsub as [Hl | Hr].
    + apply In_liftTransformations in Hl as (t0 & Ht0 & _ & ->). simpl.
      apply rewrite_left. by eapply IHl.
    + apply In_liftTransformations in Hr as (t0 & Ht0 & _ & ->). simpl.
      apply rewrite_right. by eapply IHr.
Qed.

Lemma getAllPossibleTransformations_complete (rules : list TransformationRule)
      (e e' : BooleanExpression) :
  rewriteStep rules e e' →
  ∀ maxLength : Z, getLength e' ≤ maxLength →
    ∃ t, In t (getAllPossibleTransformations rules e maxLength) ∧
         Transformation.newExpression t = e'.
Proof.
  induction 1 as [rl e e' Hin Hcan Happ | e e' _ IH | op l l' r _ IH | op l r r' _ IH];
    intros maxLength Hlen.
  - exists (Transformation.mk e' rl e). split; [| done].
    rewrite getAllPossibleTransformations_unfold, in_app_iff. left.
    apply In_rootTransformations. exists rl. simpl. auto.
  - destruct (IH (maxLength - 1)) as (t0 & Ht0 & <-); [simpl in Hlen; lia |].
    exists (Transformation.mk (Negation (Transformation.newExpression t0))
              (Transformation.rule t0) (Transformation.appliedToSubexpression t0)).
    split; [| reflexivity].
    rewrite getAllPossibleTransformations_unfold, in_app_iff. right. simpl.
    apply In_liftTransformations. exists t0. auto.
  - destruct (IH (maxLength - getLength r - 1)) as (t0 & Ht0 & <-); [simpl in Hlen; lia |].
    exists (Transformation.mk (BinaryOperation op (Transformation.newExpression t0) r)
              (Transformation.rule t0) (Transformation.appliedToSubexpression t0)).
    split; [| reflexivity].
    rewrite getAllPossibleTransformations_unfold, in_app_iff. right. simpl.
    apply in_app_iff. left.
    apply In_liftTransformations. exists t0. auto.
  - destruct (IH (maxLength - getLength l - 1)) as (t0 & Ht0 & <-); [simpl in Hlen; lia |].
    exists (Transformation.mk (BinaryOperation op l (Transformation.newExpression t0))
              (Transformation.rule t0) (Transformation.appliedToSubexpression t0)).
    split; [| reflexivity].
    rewrite getAllPossibleTransformations_unfold, in_app_iff. right. simpl.
    apply in_app_iff. right.
    apply In_liftTransformations. exists t0. auto.
Qed.

Lemma getAllPossibleTransformations_spec (rules : list TransformationRule)
      (e e' : BooleanExpression) (maxLength : Z) :
  (∃ t, In t (getAllPossibleTransformations rules e maxLength) ∧
        Transformation.newExpression t = e') ↔
  rewriteStep rules e e' ∧ getLength e' ≤ maxLength.
Proof.
  split.
  - intros (t & Ht & <-). split.
    + by eapply getAllPossibleTransformations_sound.
    + by eapply getAllPossibleTransformations_length.
  - intros [Hstep Hlen]. by apply getAllPossibleTransformations_complete.
Qed.

(** *** Expanding one node *)

Lemma setAdd_union (x : string) (X : gset string) : setAdd x X = {[ x ]} ∪ X.
Proof.
  destruct X as [m]. unfold setAdd. apply set_eq. intros y.
  rewrite elem_of_union, elem_of_singleton.
  unfold elem_of at 1, gset_elem_of, mapset_elem_of. simpl.
  destruct (decide (x = y)) as [-> | Hne].
  - rewrite lookup_insert_eq. split; [by left | done].
  - rewrite lookup_insert_ne by done. split; [by right |].
    intros [Heq | Hy]; [by destruct Hne | exact Hy].
Qed.

Lemma elem_of_setAdd (x y : string) (X : gset string) :
  y ∈ setAdd x X ↔ y = x ∨ y ∈ X.
Proof. by rewrite setAdd_union, elem_of_union, elem_of_singleton. Qed.

Section expand.
Variables (T : BooleanExpression) (c : ProofNode.t).

(** The node built from a transformation of [c]. *)
Let child (t : Transformation.t) : ProofNode.t :=
  ProofNode.mk (Transformation.newExpression t) (Some c)
    (Some (Transformation.rule t)) (Some (Transformation.appliedToSubexpression t))
    (ProofNode.depth c + 1).

Lemma expandNode_inl (ts : list Transformation.t) :
  ∀ (V : gset string) (Q : list ProofNode.t) (n : ProofNode.t),
    expandNode T c ts V Q = inl n →
    ∃ t, In t ts ∧ n = child t ∧
         equals (Transformation.newExpression t) T = true ∧
         getHash (Transformation.newExpression t) ∉ V.
Proof.
  induction ts as [| t ts IH]; intros V Q n Hex; simpl in Hex; [discriminate |].
  destruct (decide (getHash (Transformation.newExpression t) ∈ V)) as [Hin | Hnotin].
  - destruct (IH _ _ _ Hex) as (t' & Ht' & Hrest). exists t'. split; [by right | done].
  - destruct (equals (Transformation.newExpression t) T) eqn:Heq.
    + injection Hex as <-. exists t. repeat split; auto. by left.
    + destruct (IH _ _ _ Hex) as (t' & Ht' & Hn & Heq' & Hnot).
      exists t'. repeat split; auto; [by right |].
      intros Hin'. apply Hnot. apply elem_of_setAdd. by right.
Qed.

Lemma expandNode_inr (ts : list Transformation.t) :
  ∀ (V : gset string) (Q : list ProofNode.t) (V' : gset string) (Q' : list ProofNode.t),
    expandNode T c ts V Q = inr (V', Q') →
    ∃ news, Q' = Q ++ news ∧ V ⊆ V' ∧
      (∀ h, h ∈ V' → h ∈ V ∨ ∃ n, In n news ∧ getHash (ProofNode.expression n) = h) ∧
      (∀ t, In t ts → getHash (Transformation.newExpression t) ∈ V') ∧
      Forall (λ n, ∃ t, In t ts ∧ n = child t ∧
                        equals (Transformation.newExpression t) T = false ∧
                        (getHash (Transformation.newExpression t) ∉ V) ∧
                        getHash (Transformation.newExpression t) ∈ V') news.
Proof.
  induction ts as [| t ts IH]; intros V Q V' Q' Hex; simpl in Hex.
  - injection Hex as <- <-. exists []. rewrite app_nil_r.
    repeat split; auto. intros t [].
  - destruct (decide (getHash (Transformation.newExpression t) ∈ V)) as [Hin | Hnotin].
    + destruct (IH _ _ _ _ Hex) as (news & HQ & Hsub & Hnew & Hall & Hnews).
      exists news. repeat split; auto.
      * intros t' [<- | Ht']; [by apply Hsub | by apply Hall].
      * eapply Forall_impl; [exact Hnews |].
        intros n (t' & Ht' & Hrest). exists t'. split; [by right | done].
    + destruct (equals (Transformation.newExpression t) T) eqn:Heq; [discriminate |].
      destruct (IH _ _ _ _ Hex) as (news & HQ & Hsub & Hnew & Hall & Hnews).
      exists (child t :: news).
      assert (Hhere : getHash (Transformation.newExpression t) ∈ V').
      { apply Hsub. apply elem_of_setAdd. by left. }
      repeat split.
      * by rewrite HQ, <- app_assoc.
      * intros h Hh. apply Hsub. apply elem_of_setAdd. by right.
      * intros h Hh. destruct (Hnew h Hh) as [Hold | (n & Hn & Hhash)].
        -- apply elem_of_setAdd in Hold as [-> | Hold]; [| by left].
           right. exists (child t). split; [by left | done].
        -- right. exists n. split; [by right | done].
      * intros t' [<- | Ht']; [done | by apply Hall].
      * constructor.
        -- exists t. repeat split; auto. by left.
        -- eapply Forall_impl; [exact Hnews |].
           intros n (t' & Ht' & Hn & Heq' & Hnot & Hin').
           exists t'. repeat split; auto; [by right |].
           intros Hin''. apply Hnot. apply elem_of_setAdd. by right.
Qed.
End expand.

(** *** Termination and the number of dequeued nodes *)

Section loop.
Context {H : Type}.
Variables (S T : BooleanExpression).
Variables (maxDepth maxStates maxLength : Z).
Variable rules : list TransformationRule.
Variable onProgress : option (ProgressCallback H).

Let loop := searchLoop (H := H) S T maxDepth maxStates maxLength rules onProgress.

Lemma searchLoop_terminates (fuel : nat) :
  ∀ st : SearchState,
    (Z.to_nat (Z.max 1 (maxStates - statesExplored st)) ≤ fuel)%nat →
    ∃ r, loop fuel st = Some r.
Proof.
  induction fuel as [| fuel IH]; intros st Hfuel; [lia |].
  unfold loop in *. simpl.
  destruct (queue st) as [| current rest]; [eauto |].
  destruct (updateProgress _ _ _ _) as [[[] | message] host']; [| eauto].
  destruct (Z.geb_spec (statesExplored st + 1) maxStates); [eauto |].
  destruct (Z.geb_spec (ProofNode.depth current) maxDepth).
  - apply IH. simpl. lia.
  - destruct (expandNode _ _ _ _ _) as [n | [V Q]]; [eauto |].
    apply IH. simpl. lia.
Qed.

Lemma searchLoop_more_fuel (fuel : nat) :
  ∀ (st : SearchState) (r : Result TransformationProof * H),
    loop fuel st = Some r → ∀ fuel', (fuel ≤ fuel')%nat → loop fuel' st = Some r.
Proof.
  induction fuel as [| fuel IH]; intros st r Hr fuel' Hle; [discriminate |].
  destruct fuel' as [| fuel']; [lia |].
  unfold loop in *. simpl in *.
  destruct (queue st) as [| current rest]; [done |].
  destruct (updateProgress _ _ _ _) as [[[] | message] host']; [| done].
  destruct (Z.geb_spec (statesExplored st + 1) maxStates); [done |].
  destruct (Z.geb_spec (ProofNode.depth current) maxDepth).
  - apply IH with (fuel' := fuel') in Hr; [done | lia].
  - destruct (expandNode _ _ _ _ _) as [n | [V Q]]; [done |].
    apply IH with (fuel' := fuel') in Hr; [done | lia].
Qed.

(** [statesExplored] counts the nodes taken from the queue; the loop stops
    once it reaches [maxStates], after the first node at the earliest. *)
Lemma searchLoop_states_bound (fuel : nat) :
  ∀ (st : SearchState) (r : TransformationProof) (h : H),
    statesExplored st + 1 ≤ Z.max 1 maxStates →
    loop fuel st = Some (Ok r, h) →
    totalStatesExplored r ≤ Z.max 1 maxStates.
Proof.
  induction fuel as [| fuel IH]; intros st r h Hst Hr; [discriminate |].
  unfold loop in *. simpl in Hr.
  destruct (queue st) as [| current rest].
  { injection Hr as <- _. simpl. lia. }
  destruct (updateProgress _ _ _ _) as [[[] | message] host']; [| discriminate].
  destruct (Z.geb_spec (statesExplored st + 1) maxStates).
  { injection Hr as <- _. simpl. lia. }
  destruct (Z.geb_spec (ProofNode.depth current) maxDepth).
  - eapply IH; [| exact Hr]. simpl. lia.
  - destruct (expandNode _ _ _ _ _) as [n | [V Q]].
    + injection Hr as <- _. simpl. lia.
    + eapply IH; [| exact Hr]. simpl. lia.
Qed.

(** A search that reports [found] has compared a transformation of some
    node with the target and found them equal. *)
Lemma searchLoop_found_length (fuel : nat) :
  ∀ (st : SearchState) (r : TransformationProof) (h : H),
    loop fuel st = Some (Ok r, h) → found r = true → getLength T ≤ maxLength.
Proof.
  induction fuel as [| fuel IH]; intros st r h Hr Hfound; [discriminate |].
  unfold loop in *. simpl in Hr.
  destruct (queue st) as [| current rest].
  { injection Hr as <- _. discriminate Hfound. }
  destruct (updateProgress _ _ _ _) as [[[] | message] host']; [| discriminate].
  destruct (Z.geb_spec (statesExplored st + 1) maxStates).
  { injection Hr as <- _. discriminate Hfound. }
  destruct (Z.geb_spec (ProofNode.depth current) maxDepth).
  - eapply IH; [exact Hr | exact Hfound].
  - destruct (expandNode _ _ _ _ _) as [n | [V Q]] eqn:Hex.
    + apply expandNode_inl in Hex as (t & Ht & _ & Heq & _).
      apply equals_true in Heq. rewrite <- Heq.
      by eapply getAllPossibleTransformations_length.
    + eapply IH; [exact Hr | exact Hfound].
Qed.


(** The loop ends by an exception only when the callback throws one. *)
Lemma searchLoop_exception (fuel : nat) :
  ∀ (st : SearchState) (message : string) (h : H),
    loop fuel st = Some (Error message, h) →
    ∃ callback count depth host',
      onProgress = Some callback ∧ statesExplored st < count ∧
      count mod 100 = 0 ∧
      callback count depth host' = (Error message, h).
Proof.
  induction fuel as [| fuel IH]; intros st message h Hr; [discriminate |].
  unfold loop in *. simpl in Hr.
  destruct (queue st) as [| current rest]; [discriminate |].
  destruct (updateProgress _ _ _ _) as [[[] | message'] host'] eqn:Hcall.
  - assert (Hlater : ∀ st', statesExplored st' = statesExplored st + 1 →
              searchLoop S T maxDepth maxStates maxLength rules onProgress fuel st' =
                Some (Error message, h) →
              ∃ callback count depth host',
                onProgress = Some callback ∧ statesExplored st < count ∧
                count mod 100 = 0 ∧
                callback count depth host' = (Error message, h)).
    { intros st' Hst' Hr'.
      destruct (IH st' message h Hr') as (cb & n & d & h0 & Hcb & Hn & Hmod & Hthrow).
      exists cb, n, d, h0. repeat split; [exact Hcb | lia | exact Hmod | exact Hthrow]. }
    destruct (Z.geb_spec (statesExplored st + 1) maxStates); [discriminate |].
    destruct (Z.geb_spec (ProofNode.depth current) maxDepth).
    + eapply Hlater; [| exact Hr]. reflexivity.
    + destruct (expandNode _ _ _ _ _) as [n | [V Q]]; [discriminate |].
      eapply Hlater; [| exact Hr]. reflexivity.
  - injection Hr as -> ->. unfold updateProgress in Hcall.
    destruct onProgress as [callback |]; [| discriminate].
    destruct (Z.eqb_spec ((statesExplored st + 1) mod 100) 0) as [Hmod |]; [| discriminate].
    exists callback, (statesExplored st + 1), (ProofNode.depth current), (host st).
    repeat split; [lia | exact Hmod | exact Hcall].
Qed.
End loop.

(** *** Results of [findTransformationProof] *)

Section budgets.
Context {H : Type}.
Variables (S T : BooleanExpression) (options : ProofSearchOptions H).

Lemma findTransformationProof_exception (fuel : nat) (host : H)
      (message : string) (h : H) :
  findTransformationProof fuel S T options host = Some (Error message, h) →
  ∃ callback count depth host',
    onProgress options = Some callback ∧ 0 < count ∧
    count mod 100 = 0 ∧
    callback count depth host' = (Error message, h).
Proof.
  unfold findTransformationProof, searchFrom.
  destruct (equals S T); [discriminate |].
  intros Hr. apply searchLoop_exception in Hr as (cb & n & d & h0 & Hcb & Hn & Hrest).
  exists cb, n, d, h0. split; [exact Hcb |]. split; [simpl in Hn; lia | exact Hrest].
Qed.

Lemma findTransformationProof_terminates (host : H) :
  ∃ outcome,
    (∀ fuel, (iterationBound options ≤ fuel)%nat →
             findTransformationProof fuel S T options host = Some outcome) ∧
    (∀ r, outcome.1 = Ok r → totalStatesExplored r ≤ Z.max 1 (maxStatesOf options)) ∧
    (neverThrows options → ∃ r, outcome.1 = Ok r).
Proof.
  unfold iterationBound.
  assert (Hends : ∃ outcome,
            findTransformationProof (Z.to_nat (Z.max 1 (maxStatesOf options))) S T
              options host = Some outcome).
  { unfold findTransformationProof, searchFrom.
    destruct (equals S T); [eauto |].
    apply searchLoop_terminates. simpl. lia. }
  destruct Hends as [[outcome h] Hr]. exists (outcome, h).
  assert (Hall : ∀ fuel, (Z.to_nat (Z.max 1 (maxStatesOf options)) ≤ fuel)%nat →
            findTransformationProof fuel S T options host = Some (outcome, h)).
  { intros fuel Hfuel. revert Hr. unfold findTransformationProof, searchFrom.
    destruct (equals S T); [done |].
    intros Hr. eapply searchLoop_more_fuel; [exact Hr | exact Hfuel]. }
  split; [exact Hall |]. split.
  - simpl. intros r ->. revert Hr. unfold findTransformationProof, searchFrom.
    destruct (equals S T).
    + intros [= <- _]. simpl. lia.
    + intros Hr. eapply searchLoop_states_bound; [| exact Hr]. simpl. lia.
  - intros Hnever. destruct outcome as [r | message]; [by exists r |].
    apply findTransformationProof_exception in Hr
      as (cb & n & d & h0 & Hcb & _ & _ & Hthrow).
    destruct (Hnever cb Hcb n d h0) as [h' Hok]. congruence.
Qed.

Lemma findTransformationProof_found_length (fuel : nat) (host : H)
      (r : TransformationProof) (h : H) :
  equals S T = false →
  findTransformationProof fuel S T options host = Some (Ok r, h) →
  found r = true → getLength T ≤ maxExpressionLengthOf options.
Proof.
  unfold findTransformationProof, searchFrom. intros -> Hr Hfound.
  eapply searchLoop_found_length; [exact Hr | exact Hfound].
Qed.

End budgets.

(** C8, the claim as stated fails: with [maxStates = 0] the search from
    [a] to [b] takes one node from the queue before it stops, more than
    [maxStates]. *)
Lemma dequeues_at_most_maxStates_counterexample :
  ∃ r, findTransformationProof 1 (Var "a") (Var "b")
         (mkOptions None (Some 0) None None None) tt = Some (Ok r, tt) ∧
       found r = false ∧ totalStatesExplored r = 1 ∧
       ¬ (totalStatesExplored r ≤ 0).
Proof. eexists. split; [reflexivity |]. simpl. repeat split. lia. Qed.

(** C8 (termination), amended: for all expressions [S] and [T] and all
    options, the loop of [findTransformationProof] ends: with fuel for
    [max(1, maxStates)] iterations the call is over, with the same outcome
    for any larger fuel.  The outcome is a returned result whenever the
    progress callback does not throw (otherwise the call may end by the
    exception of the callback), and the number of nodes a returned result
    counts as taken from the queue is at most [max(1, maxStates)]. *)
Theorem findTransformationProof_halts {H : Type} (S T : BooleanExpression)
        (options : ProofSearchOptions H) (host : H) :
  ∃ outcome,
    (∀ fuel, (iterationBound options ≤ fuel)%nat →
             findTransformationProof fuel S T options host = Some outcome) ∧
    (∀ r, outcome.1 = Ok r → totalStatesExplored r ≤ Z.max 1 (maxStatesOf options)) ∧
    (neverThrows options → ∃ r, outcome.1 = Ok r).
Proof. apply findTransformationProof_terminates. Qed.

(** C9 (length gate before the target test): every transformation the
    driver hands to the search has size at most [maxExpressionLength]; so
    when [T] differs from [S] and is longer than [maxExpressionLength], the
    search is over after [max(1, maxStates)] iterations whatever [maxDepth]
    and [maxStates] are, it returns a result whenever the progress callback
    does not throw, and a result it returns has [found = false]. *)
Theorem long_target_not_found {H : Type} (S T : BooleanExpression)
        (options : ProofSearchOptions H) (host : H) :
  equals S T = false →
  maxExpressionLengthOf options < getLength T →
  (∀ e t, In t (getAllPossibleTransformations (rulesOf options) e
                  (maxExpressionLengthOf options)) →
          getLength (Transformation.newExpression t) ≤ maxExpressionLengthOf options) ∧
  ∃ outcome,
    (∀ fuel, (iterationBound options ≤ fuel)%nat →
             findTransformationProof fuel S T options host = Some outcome) ∧
    (∀ r, outcome.1 = Ok r → found r = false) ∧
    (neverThrows options → ∃ r, outcome.1 = Ok r).
Proof.
  intros Hne Hlong. split.
  - intros e t. apply getAllPossibleTransformations_length.
  - destruct (findTransformationProof_terminates S T options host)
      as ([outcome h] & Hr & _ & Hreturns).
    exists (outcome, h). split; [exact Hr |]. split; [| exact Hreturns].
    simpl. intros r ->.
    destruct (found r) eqn:Hfound; [| reflexivity].
    pose proof (findTransformationProof_found_length S T options _ host r h Hne
                  (Hr _ (Nat.le_refl _)) Hfound).
    lia.
Qed.

Lemma long_target_not_found_witness :
  ∃ r, (∀ fuel,
          (iterationBound (mkOptions (H := unit) None None (Some 2%Z) None None) ≤ fuel)%nat →
          findTransformationProof fuel (Var "a") (Conjunction (Var "a") TrueConstant)
            (mkOptions None None (Some 2) None None) tt = Some (Ok r, tt)) ∧
       found r = false.
Proof.
  destruct (long_target_not_found (Var "a") (Conjunction (Var "a") TrueConstant)
              (mkOptions None None (Some 2) None None) tt)
    as (_ & [outcome h] & Hr & Hfound & Hreturns).
  - reflexivity.
  - reflexivity.
  - destruct Hreturns as [r Hok]; [intros cb Hcb; discriminate |].
    simpl in Hok. subst outcome. destruct h.
    exists r. split; [exact Hr | by apply Hfound].
Defined.

(** *** The progress callback *)









(** *** Rules keep names well formed *)

Ltac destruct_apply H :=
  repeat match type of H with
         | context [match ?x with _ => _ end] =>
             is_var x; destruct x; simpl in H; try discriminate H
         | context [if ?c then _ else _] =>
             destruct c; simpl in H; try discriminate H
         | context [isTrueConstant ?x] => is_var x; destruct x; simpl in H; try discriminate H
         | context [isFalseConstant ?x] => is_var x; destruct x; simpl in H; try discriminate H
         | context [isConjunction ?x] => is_var x; destruct x; simpl in H; try discriminate H
         | context [isDisjunction ?x] => is_var x; destruct x; simpl in H; try discriminate H
         | context [field_left ?x] => is_var x; destruct x; simpl in H; try discriminate H
         | context [field_right ?x] => is_var x; destruct x; simpl in H; try discriminate H
         end.

Lemma catalogue_preservesNames : preservesNames ALL_TRANSFORMATION_RULES.
Proof.
  intros r e e' Hin Hwf Happ. unfold ALL_TRANSFORMATION_RULES in Hin. simpl in Hin.
  repeat (destruct Hin as [<- | Hin]); try contradiction; simpl in Happ.
  all: unfold ExcludedMiddle_canApply, Contradiction_canApply in Happ.
  all: destruct_apply Happ; try (injection Happ as <-); simpl in *;
       rewrite ?clone_id;
       repeat match goal with
              | H : (_ && _)%bool = true |- _ => apply andb_true_iff in H as [? ?]
              end;
       repeat match goal with
              | |- (_ && _)%bool = true => apply andb_true_iff; split
              end;
       try done.
Qed.

Lemma preservesNames_sublist (rules rules' : list TransformationRule) :
  (∀ r, In r rules' → In r rules) → preservesNames rules → preservesNames rules'.
Proof. intros Hsub Hp r e e' Hin. apply Hp. by apply Hsub. Qed.

Lemma rewriteStep_wellNamed (rules : list TransformationRule) (e e' : BooleanExpression) :
  preservesNames rules → rewriteStep rules e e' →
  wellNamed e = true → wellNamed e' = true.
Proof.
  intros Hp. induction 1 as [r e e' Hin _ Happ | e e' _ IH | op l l' r _ IH | op l r r' _ IH];
    simpl; intros Hwf.
  - by eapply Hp.
  - by apply IH.
  - apply andb_true_iff in Hwf as [Hl Hr]. by rewrite IH, Hr.
  - apply andb_true_iff in Hwf as [Hl Hr]. by rewrite IH, Hl.
Qed.

Lemma rewriteSequence_wellNamed (rules : list TransformationRule) (maxLength : Z)
      (n : nat) (e e' : BooleanExpression) :
  preservesNames rules → rewriteSequence rules maxLength n e e' →
  wellNamed e = true → wellNamed e' = true.
Proof.
  intros Hp. induction 1 as [e | n e1 e2 e3 _ IH Hstep _]; intros Hwf; [done |].
  eapply rewriteStep_wellNamed; [exact Hp | exact Hstep | by apply IH].
Qed.

(** *** Breadth-first search finds a shortest rewrite sequence *)

Section minimality.
Context {H : Type}.
Variables (S T : BooleanExpression).
Variables (maxDepth maxStates maxLength : Z).
Variable rules : list TransformationRule.
Variable onProgress : option (ProgressCallback H).
Hypothesis S_named : wellNamed S = true.
Hypothesis rules_named : preservesNames rules.

Let Inv := searchInvariant rules maxLength S T.
Let OK := nodeOK rules maxLength S.
Let reach := rewriteSequence rules maxLength.

(** Every expression a rewrite sequence of length [k] leads to is visited,
    unless a node of depth below [k] still waits in the queue. *)
Lemma frontier (q : list ProofNode.t) (V : gset string) :
  Inv q V →
  ∀ k e, reach k S e →
    getHash e ∈ V ∨ ∃ n, In n q ∧ ProofNode.depth n < Z.of_nat k.
Proof.
  intros HI k e Hseq.
  enough (∀ s, rewriteSequence rules maxLength k s e → s = S →
               getHash e ∈ V ∨ ∃ n, In n q ∧ ProofNode.depth n < Z.of_nat k) as Haux
    by (by apply (Haux S)).
  clear Hseq. intros s Hseq.
  induction Hseq as [e1 | k e1 e2 e3 Hseq IH Hstep Hlen]; intros ->.
  - left. apply (inv_start _ _ _ _ _ _ HI).
  - destruct (IH eq_refl) as [Hvis | (n & Hn & Hd)].
    + assert (Hwf : wellNamed e2 = true)
        by (eapply rewriteSequence_wellNamed; eauto).
      destruct (inv_closed _ _ _ _ _ _ HI e2 Hwf Hvis) as [(n & Hn & He) | Hsucc].
      * right. exists n. split; [exact Hn |].
        pose proof (inv_shortest _ _ _ _ _ _ HI k e2 n Hseq Hn He). lia.
      * left. by apply Hsucc.
    + right. exists n. split; [exact Hn | lia].
Qed.

Lemma initial_invariant :
  equals S T = false →
  Inv [ProofNode.mk S None None None 0] (setAdd (getHash S) ∅).
Proof.
  intros Hne.
  assert (Hroot : OK (ProofNode.mk S None None None 0)).
  { constructor; simpl; [exact S_named | lia | reflexivity | constructor]. }
  assert (Hin : ∀ e, wellNamed e = true → getHash e ∈ setAdd (getHash S) ∅ → e = S).
  { intros e Hwf [Heq | Hempty]%elem_of_setAdd.
    - by apply getHash_inj.
    - by apply not_elem_of_empty in Hempty. }
  constructor.
  - repeat constructor.
  - constructor; [| constructor]. split; [exact Hroot |].
    apply elem_of_setAdd. by left.
  - intros e Hwf Hvis. left. eexists. split; [by left |].
    simpl. symmetry. by apply Hin.
  - intros k e n _ [<- | []] _. simpl. lia.
  - apply elem_of_setAdd. by left.
  - intros e Hwf Hvis. by rewrite (Hin e Hwf Hvis).
Qed.

Section expansion.
Variables (c : ProofNode.t) (rest : list ProofNode.t) (V : gset string).
Hypothesis HI : Inv (c :: rest) V.

Let ts := getAllPossibleTransformations rules (ProofNode.expression c) maxLength.

Let child (t : Transformation.t) : ProofNode.t :=
  ProofNode.mk (Transformation.newExpression t) (Some c)
    (Some (Transformation.rule t)) (Some (Transformation.appliedToSubexpression t))
    (ProofNode.depth c + 1).

Lemma current_OK : OK c.
Proof.
  pose proof (inv_nodes _ _ _ _ _ _ HI) as Hn.
  apply Forall_cons in Hn as [[Hc _] _]. exact Hc.
Qed.

Lemma rest_depths (n : ProofNode.t) :
  In n rest → ProofNode.depth c ≤ ProofNode.depth n ≤ ProofNode.depth c + 1.
Proof.
  intros Hn. pose proof (inv_sorted _ _ _ _ _ _ HI) as Hs.
  apply StronglySorted_cons in Hs as [Hall _].
  rewrite Forall_forall in Hall. apply Hall. by apply list_elem_of_In.
Qed.

Lemma child_OK (t : Transformation.t) : In t ts → OK (child t).
Proof.
  intros Ht. destruct current_OK as [Hwf Hd Hchain Hseq].
  pose proof (getAllPossibleTransformations_sound _ _ _ _ Ht) as Hstep.
  pose proof (getAllPossibleTransformations_length _ _ _ _ Ht) as Hlen.
  constructor; simpl.
  - eapply rewriteStep_wellNamed; eauto.
  - lia.
  - rewrite length_app, Hchain. simpl.
    replace (Z.to_nat (ProofNode.depth c + 1))
      with (Datatypes.S (Z.to_nat (ProofNode.depth c))) by lia.
    lia.
  - replace (Z.to_nat (ProofNode.depth c + 1))
      with (Datatypes.S (Z.to_nat (ProofNode.depth c))) by lia.
    econstructor; eauto.
Qed.

(** A transformation whose hash is new lies further from the start than
    the node being expanded. *)
Lemma unvisited_is_deeper (e : BooleanExpression) (k : nat) :
  getHash e ∉ V → reach k S e → ProofNode.depth c + 1 ≤ Z.of_nat k.
Proof.
  intros Hnew Hseq.
  destruct (frontier _ _ HI k e Hseq) as [Hvis | (n & Hn & Hd)]; [done |].
  destruct Hn as [<- | Hn]; [lia |].
  pose proof (rest_depths n Hn). lia.
Qed.

Lemma expand_found (n : ProofNode.t) :
  expandNode T c ts V rest = inl n →
  OK n ∧ ProofNode.expression n = T ∧
  ProofNode.depth n = ProofNode.depth c + 1 ∧
  ∀ k, reach k S T → ProofNode.depth n ≤ Z.of_nat k.
Proof.
  intros Hex. apply expandNode_inl in Hex as (t & Ht & -> & Heq & Hnew).
  apply equals_true in Heq.
  split; [by apply child_OK |]. split; [exact Heq |]. split; [reflexivity |].
  intros k Hseq. simpl. apply (unvisited_is_deeper (Transformation.newExpression t)).
  - exact Hnew.
  - by rewrite Heq.
Qed.

Lemma expand_invariant (V' : gset string) (Q' : list ProofNode.t) :
  expandNode T c ts V rest = inr (V', Q') → Inv Q' V'.
Proof.
  intros Hex.
  apply expandNode_inr in Hex as (news & -> & Hsub & Hnew & Hall & Hnews).
  rewrite Forall_forall in Hnews.
  assert (Hnews' : ∀ n, In n news →
            ∃ t, In t ts ∧ n = child t ∧
                 equals (Transformation.newExpression t) T = false ∧
                 (getHash (Transformation.newExpression t) ∉ V) ∧
                 getHash (Transformation.newExpression t) ∈ V').
  { intros n Hn. apply Hnews. by apply list_elem_of_In. }
  clear Hnews.
  destruct HI as [Hsorted Hnodes Hclosed Hshort Hstart Htarget].
  apply StronglySorted_cons in Hsorted as [Hc_rest Hsorted].
  apply Forall_cons in Hnodes as [[Hc _] Hnodes].
  assert (Hsame : ∀ e n, wellNamed e = true → In n news →
            getHash (ProofNode.expression n) = getHash e → ProofNode.expression n = e).
  { intros e n Hwf Hn Hhash.
    destruct (Hnews' n Hn) as (t & Ht & -> & _).
    apply getHash_inj; [| exact Hwf | exact Hhash].
    apply (child_OK t Ht). }
  constructor.
  - apply StronglySorted_app_2; [| exact Hsorted |].
    + intros x1 x2 Hx1%list_elem_of_In Hx2%list_elem_of_In.
      destruct (Hnews' x2 Hx2) as (t & _ & -> & _).
      pose proof (rest_depths x1 Hx1). unfold depthOrder. simpl. lia.
    + clear - Hnews'. induction news as [| n news' IH]; [constructor |].
      constructor.
      * apply IH. intros m Hm. apply Hnews'. by right.
      * apply Forall_forall. intros m Hm%list_elem_of_In.
        destruct (Hnews' n ltac:(by left)) as (t & _ & -> & _).
        destruct (Hnews' m ltac:(by right)) as (t' & _ & -> & _).
        unfold depthOrder. simpl. lia.
  - apply Forall_app. split.
    + eapply Forall_impl; [exact Hnodes |].
      intros n [Hn Hv]. split; [exact Hn | by apply Hsub].
    + apply Forall_forall. intros n Hn%list_elem_of_In.
      destruct (Hnews' n Hn) as (t & Ht & -> & _ & _ & Hv).
      split; [by apply child_OK | exact Hv].
  - intros e Hwf Hvis.
    destruct (Hnew _ Hvis) as [Hold | (n & Hn & Hhash)].
    + destruct (Hclosed e Hwf Hold) as [(n & [<- | Hn] & He) | Hsucc].
      * right. intros e' Hstep Hlen. rewrite <- He in Hstep.
        destruct (getAllPossibleTransformations_complete rules _ e'
                    Hstep maxLength Hlen) as (t & Ht & <-).
        by apply Hall.
      * left. exists n. split; [apply in_app_iff; by left | exact He].
      * right. intros e' Hstep Hlen. apply Hsub. by apply Hsucc.
    + left. exists n. split; [apply in_app_iff; by right |]. by apply Hsame.
  - intros k e n Hseq [Hn | Hn]%in_app_iff He.
    + apply (Hshort k e n Hseq); [by right | exact He].
    + destruct (Hnews' n Hn) as (t & Ht & -> & _ & Hfresh & _). simpl in *.
      apply (unvisited_is_deeper e); [by rewrite <- He | exact Hseq].
  - by apply Hsub.
  - intros e Hwf Hvis.
    destruct (Hnew _ Hvis) as [Hold | (n & Hn & Hhash)]; [by apply Htarget |].
    rewrite <- (Hsame e n Hwf Hn Hhash).
    by destruct (Hnews' n Hn) as (t & Ht & -> & Hne & _).
Qed.
End expansion.

Let loop := searchLoop S T maxDepth maxStates maxLength rules onProgress.

(** Once a node at depth [maxDepth] has been skipped only such nodes remain
    in the queue and nothing more is found; until then the invariant of the
    breadth-first search holds. *)
Lemma searchLoop_shortest (fuel : nat) :
  ∀ (st : SearchState) (r : TransformationProof) (h : H),
    Inv (queue st) (visited st) ∨
    Forall (fun n => maxDepth ≤ ProofNode.depth n) (queue st) →
    loop fuel st = Some (Ok r, h) → found r = true →
    shortestProof rules maxLength S T r.
Proof.
  induction fuel as [| fuel IH]; intros st r h Hst Hr Hfound; [discriminate |].
  unfold loop in *. simpl in Hr.
  destruct (queue st) as [| c rest] eqn:Hq.
  { injection Hr as <- _. discriminate Hfound. }
  destruct (updateProgress _ _ _ _) as [[[] | message] host']; [| discriminate].
  destruct (Z.geb_spec (statesExplored st + 1) maxStates).
  { injection Hr as <- _. discriminate Hfound. }
  destruct (Z.geb_spec (ProofNode.depth c) maxDepth) as [Hdeep | Hshallow].
  - (* the node is skipped *)
    eapply IH; [| exact Hr | exact Hfound]. simpl. right.
    destruct Hst as [HI | Hall].
    + apply Forall_forall. intros n Hn%list_elem_of_In.
      pose proof (rest_depths c rest (visited st) HI n Hn). lia.
    + by apply Forall_cons in Hall as [_ Hall].
  - destruct Hst as [HI | Hall];
      [| apply Forall_cons in Hall as [Hc _]; lia].
    destruct (expandNode _ _ _ _ _) as [n | [V Q]] eqn:Hex.
    + injection Hr as <- _.
      apply (expand_found c rest (visited st) HI) in Hex
        as ([_ Hd Hchain Hseq] & HT & _ & Hmin).
      unfold shortestProof, reconstructProof. simpl.
      rewrite length_imap, Hchain. simpl. rewrite Nat.sub_0_r. split.
      * by rewrite <- HT.
      * intros k Hk. specialize (Hmin k Hk). lia.
    + eapply IH; [| exact Hr | exact Hfound]. simpl. left.
      by apply (expand_invariant c rest (visited st) HI).
Qed.

Lemma searchFrom_shortest (fuel : nat) (host : H) (r : TransformationProof) (h : H) :
  searchFrom S T maxDepth maxStates maxLength rules onProgress fuel host = Some (Ok r, h) →
  found r = true →
  shortestProof rules maxLength S T r.
Proof.
  unfold searchFrom. intros Hr Hfound.
  destruct (equals S T) eqn:Heq.
  - injection Hr as <- _. apply equals_true in Heq.
    unfold shortestProof. simpl. split.
    + rewrite <- Heq. constructor.
    + intros k _. lia.
  - apply (searchLoop_shortest fuel (initialState S host) r h);
      [| exact Hr | exact Hfound].
    left. simpl.
    replace ({[ getHash S ]} : gset string) with (setAdd (getHash S) ∅).
    + by apply initial_invariant.
    + rewrite setAdd_union. apply set_eq. intros x.
      rewrite elem_of_union, elem_of_singleton.
      split; [intros [-> | []%not_elem_of_empty]; reflexivity | by left].
Qed.
End minimality.

(** The search from [¬(a ∧ b)] to [¬a ∨ ¬b] with the options [{}]: one rule
    application, De Morgan's law, found while the first node is expanded. *)
Example search_de_morgan :
  ∃ r, findTransformationProof 1
         (Negation (Conjunction (Var "a") (Var "b")))
         (Disjunction (Negation (Var "a")) (Negation (Var "b")))
         defaultOptions tt = Some (Ok r, tt) ∧
       found r = true ∧ searchDepth r = 1 ∧ totalStatesExplored r = 1 ∧
       map (fun s => (ProofStep.expression s, name <$> ProofStep.rule s,
                      ProofStep.stepNumber s)) (steps r) =
       [ (Negation (Conjunction (Var "a") (Var "b")), None, 1);
         (Disjunction (Negation (Var "a")) (Negation (Var "b")),
          Some "De Morgan's Law (AND)", 2) ].
Proof.
  eexists. split; [vm_compute; reflexivity |]. repeat split.
Qed.

(** Why the names matter.  [Variable] takes any string as a name, and
    outside the identifiers two expressions can have one hash: the names
    [a), VAR(b] and [b), VAR(c], which no parser of the repository produces,
    make [(a ∧ Q) ∧ (P ∧ c)] and [(P ∧ c) ∧ (a ∧ Q)] collide.  The search
    that starts at the first takes the second, one commutation away, for
    visited and never puts it in the queue; the target, one more rule
    application away from it, is found after four rule applications instead
    of two. *)
Lemma hash_collision_hides_shorter_proof :
  getHash (Conjunction (Conjunction (Var "a") (Var "b), VAR(c"))
                       (Conjunction (Var "a), VAR(b") (Var "c"))) =
  getHash (Conjunction (Conjunction (Var "a), VAR(b") (Var "c"))
                       (Conjunction (Var "a") (Var "b), VAR(c"))) ∧
  ∃ r, findTransformationProof 16
         (Conjunction (Conjunction (Var "a") (Var "b), VAR(c"))
                      (Conjunction (Var "a), VAR(b") (Var "c")))
         (Conjunction (Var "c")
            (Conjunction (Var "a), VAR(b")
               (Conjunction (Var "a") (Var "b), VAR(c"))))
         (mkOptions None None None (Some [CommutativityAND; CommutativityANDAND]) None)
         tt = Some (Ok r, tt) ∧
       found r = true ∧ length (steps r) = 5%nat ∧
       rewriteSequence [CommutativityAND; CommutativityANDAND] 15 2
         (Conjunction (Conjunction (Var "a") (Var "b), VAR(c"))
                      (Conjunction (Var "a), VAR(b") (Var "c")))
         (Conjunction (Var "c")
            (Conjunction (Var "a), VAR(b")
               (Conjunction (Var "a") (Var "b), VAR(c")))) ∧
       ¬ shortestProof [CommutativityAND; CommutativityANDAND] 15
           (Conjunction (Conjunction (Var "a") (Var "b), VAR(c"))
                        (Conjunction (Var "a), VAR(b") (Var "c")))
           (Conjunction (Var "c")
              (Conjunction (Var "a), VAR(b")
                 (Conjunction (Var "a") (Var "b), VAR(c"))))
           r.
Proof.
  split; [reflexivity |].
  eexists. split; [vm_compute; reflexivity |].
  assert (Hshort : rewriteSequence [CommutativityAND; CommutativityANDAND] 15 2
            (Conjunction (Conjunction (Var "a") (Var "b), VAR(c"))
                         (Conjunction (Var "a), VAR(b") (Var "c")))
            (Conjunction (Var "c")
               (Conjunction (Var "a), VAR(b")
                  (Conjunction (Var "a") (Var "b), VAR(c"))))).
  { eapply sequence_step; [eapply sequence_step; [apply sequence_empty | |] | |].
    - eapply (rewrite_root _ CommutativityAND); [by left | reflexivity | reflexivity].
    - vm_compute. discriminate.
    - eapply (rewrite_root _ CommutativityANDAND);
        [right; by left | reflexivity | reflexivity].
    - vm_compute. discriminate. }
  split; [reflexivity |]. split; [reflexivity |]. split; [exact Hshort |].
  intros [_ Hmin]. specialize (Hmin 2%nat Hshort). simpl in Hmin. lia.
Qed.

(** C2 (shortest proof).  Expressions have identifiers as variable names,
    and the rules in use keep them so (as the rules of the catalogue do).
    Then the search is over after [max(1, maxStates)] iterations, it returns
    a result whenever the progress callback does not throw, and when the
    result has [found = true] the steps after the first are a sequence of
    single-position rule applications from [S] to [T], each producing an
    expression of size at most [maxExpressionLength], and no such sequence
    from [S] to [T] has fewer rule applications than [steps.length - 1]. *)
Theorem proof_is_shortest {H : Type} (S T : BooleanExpression)
        (options : ProofSearchOptions H) (host : H) :
  wellNamed S = true →
  preservesNames (rulesOf options) →
  ∃ outcome,
    (∀ fuel, (iterationBound options ≤ fuel)%nat →
             findTransformationProof fuel S T options host = Some outcome) ∧
    (neverThrows options → ∃ r, outcome.1 = Ok r) ∧
    (∀ r, outcome.1 = Ok r → found r = true →
          shortestProof (rulesOf options) (maxExpressionLengthOf options) S T r).
Proof.
  intros Hnamed Hrules.
  destruct (findTransformationProof_terminates S T options host)
    as ([outcome h] & Hr & _ & Hreturns).
  exists (outcome, h). split; [exact Hr |]. split; [exact Hreturns |].
  simpl. intros r -> Hfound.
  eapply (searchFrom_shortest S T (maxDepthOf options) (maxStatesOf options)
            (maxExpressionLengthOf options) (rulesOf options) (onProgress options)
            Hnamed Hrules);
    [apply (Hr _ (Nat.le_refl _)) | exact Hfound].
Qed.

Lemma proof_is_shortest_witness :
  ∃ r, (∀ fuel, (iterationBound (H := unit) defaultOptions ≤ fuel)%nat →
                findTransformationProof fuel
                  (Negation (Conjunction (Var "a") (Var "b")))
                  (Disjunction (Negation (Var "a")) (Negation (Var "b")))
                  defaultOptions tt = Some (Ok r, tt)) ∧
       (found r = true →
        shortestProof (rulesOf (H := unit) defaultOptions)
          (maxExpressionLengthOf (H := unit) defaultOptions)
          (Negation (Conjunction (Var "a") (Var "b")))
          (Disjunction (Negation (Var "a")) (Negation (Var "b"))) r).
Proof.
  destruct (proof_is_shortest (Negation (Conjunction (Var "a") (Var "b")))
              (Disjunction (Negation (Var "a")) (Negation (Var "b")))
              defaultOptions tt)
    as ([outcome h] & Hr & Hreturns & Hshortest).
  - reflexivity.
  - exact catalogue_preservesNames.
  - destruct Hreturns as [r Hok]; [intros cb Hcb; discriminate |].
    simpl in Hok. subst outcome. destruct h.
    exists r. split; [exact Hr | by apply Hshortest].
Defined.

(** * Further properties of the logic core *)

(** ** expressions.ts *)

(** [evaluate] reads the assignment at the variables of the expression
    only: two assignments that agree there, on what is present and what is
    missing, give the same result or both make it throw. *)
Theorem evaluate_agrees_on_variables (e : BooleanExpression) (σ1 σ2 : Assignment) :
  (∀ v, v ∈ getVariables e → σ1 !! v = σ2 !! v) →
  evaluate e σ1 = evaluate e σ2.
Proof.
  induction e as [n | a IHa | o l IHl r IHr | |]; simpl; intros Hagree; auto.
  - apply Hagree. by apply elem_of_singleton.
  - by rewrite IHa.
  - rewrite IHl, IHr; [reflexivity | |];
      intros v Hv; apply Hagree; apply elem_of_union; auto.
Qed.

Lemma evaluate_agrees_on_variables_witness :
  evaluate (Conjunction (Var "a") (Negation (Var "b")))
    (<[ "a" := true ]> (<[ "b" := false ]> ∅)) =
  evaluate (Conjunction (Var "a") (Negation (Var "b")))
    (<[ "c" := true ]> (<[ "a" := true ]> (<[ "b" := false ]> ∅))).
Proof.
  apply (evaluate_agrees_on_variables (Conjunction (Var "a") (Negation (Var "b")))).
  intros v Hv. simpl in Hv.
  apply elem_of_union in Hv as [Hv | Hv]; apply elem_of_singleton in Hv;
    subst v; reflexivity.
Defined.

(** When [evaluate] throws, a variable of the expression is missing from
    the assignment. *)
Theorem evaluate_throws_missing_variable (e : BooleanExpression) (σ : Assignment) :
  evaluate e σ = None → ∃ v, v ∈ getVariables e ∧ σ !! v = None.
Proof.
  intros Hnone.
  destruct (decide (getVariables e ⊆ dom σ)) as [Hsub | Hnot].
  - rewrite evaluate_covered in Hnone by exact Hsub. discriminate.
  - destruct (set_Forall_dec (fun v => v ∈ dom σ) (getVariables e)) as [Hall | Hex].
    + exfalso. apply Hnot. intros v Hv. by apply Hall.
    + apply not_set_Forall_Exists in Hex; [| apply _].
      destruct Hex as (v & Hv & Hmiss). exists v. split; [exact Hv |].
      simpl in Hmiss. by apply not_elem_of_dom in Hmiss.
Qed.

Lemma evaluate_throws_missing_variable_witness :
  ∃ v, v ∈ getVariables (Conjunction (Var "a") (Var "x")) ∧
       (<[ "a" := true ]> ∅ : Assignment) !! v = None.
Proof.
  apply (evaluate_throws_missing_variable (Conjunction (Var "a") (Var "x"))).
  reflexivity.
Defined.

(** The converse fails: [&&] and [||] skip their right operand when the left
    one decides, so an expression can evaluate although one of its variables
    is missing. *)
Example evaluate_short_circuit :
  evaluate (Conjunction FalseConstant (Var "x")) ∅ = Some false ∧
  evaluate (Disjunction TrueConstant (Var "x")) ∅ = Some true ∧
  evaluate (Implication FalseConstant (Var "x")) ∅ = Some true ∧
  evaluate (Biconditional FalseConstant (Var "x")) ∅ = None ∧
  evaluate (Conjunction (Var "x") FalseConstant) ∅ = None.
Proof. repeat split. Qed.

(** [equals] is an equivalence relation on expressions: besides being
    reflexive it is symmetric and transitive, and equal expressions have the
    same length and the same variables. *)
Theorem equals_equivalence (e1 e2 e3 : BooleanExpression) :
  equals e1 e1 = true ∧
  equals e1 e2 = equals e2 e1 ∧
  (equals e1 e2 = true → equals e2 e3 = true → equals e1 e3 = true) ∧
  (equals e1 e2 = true →
   getLength e1 = getLength e2 ∧ getVariables e1 = getVariables e2).
Proof.
  split; [apply equals_refl |]. split; [| split].
  - destruct (equals e1 e2) eqn:H12.
    + apply equals_true in H12 as ->. symmetry. apply equals_refl.
    + destruct (equals e2 e1) eqn:H21; [| reflexivity].
      apply equals_true in H21 as ->. by rewrite equals_refl in H12.
  - intros ->%equals_true ->%equals_true. apply equals_refl.
  - by intros ->%equals_true.
Qed.

(** An expression of length [n] has at most [(n + 1) / 2] distinct
    variables, so that a truth table is generated for every expression of
    length up to 30. *)
Theorem variables_bounded_by_length (e : BooleanExpression) :
  2 * Z.of_nat (size (getVariables e)) ≤ getLength e + 1 ∧
  (getLength e ≤ 30 → ∃ table, generateTruthTable e = Ok table).
Proof.
  assert (Hsize : 2 * Z.of_nat (size (getVariables e)) ≤ getLength e + 1).
  { induction e as [n | a IHa | o l IHl r IHr | |]; cbn [getVariables getLength].
    - rewrite size_singleton. lia.
    - lia.
    - pose proof (size_union_alt (getVariables l) (getVariables r)) as Hu.
      pose proof (subseteq_size (getVariables r ∖ getVariables l) (getVariables r)
                    ltac:(apply subseteq_difference_l; reflexivity)).
      lia.
    - rewrite size_empty. lia.
    - rewrite size_empty. lia. }
  split; [exact Hsize |].
  intros Hlen. rewrite generateTruthTable_small; [eauto |].
  unfold MAX_TRUTH_TABLE_VARIABLES. lia.
Qed.

(** ** rules.ts *)

Lemma catalogue_no_new_variables_sub (r : TransformationRule) (e e' : BooleanExpression) :
  In r ALL_TRANSFORMATION_RULES → apply r e = Returned e' →
  getVariables e' ⊆ getVariables e.
Proof.
  intros Hin Happ. unfold ALL_TRANSFORMATION_RULES in Hin. simpl in Hin.
  repeat (destruct Hin as [<- | Hin]); try contradiction; simpl in Happ.
  all: unfold ExcludedMiddle_canApply, Contradiction_canApply in Happ.
  all: destruct_apply Happ; try (injection Happ as <-); simpl in *;
       rewrite ?clone_id;
       apply elem_of_subseteq; intros v;
       rewrite ?elem_of_union, ?elem_of_empty; tauto.
Qed.

(** No rule of the catalogue brings in a variable: whatever [apply] returns
    is built from the variables of its input (and constants), so that the
    variables of an expression can only become fewer along a proof. *)
Theorem catalogue_no_new_variables (r : TransformationRule) (e e' : BooleanExpression) :
  In r ALL_TRANSFORMATION_RULES → apply r e = Returned e' →
  getVariables e' ⊆ getVariables e ∧
  (size (getVariables e') ≤ size (getVariables e))%nat.
Proof.
  intros Hin Happ.
  pose proof (catalogue_no_new_variables_sub r e e' Hin Happ) as Hsub.
  split; [exact Hsub | by apply subseteq_size].
Qed.

Lemma catalogue_no_new_variables_witness :
  getVariables (Var "p") ⊆
    getVariables (Disjunction (Var "p") (Conjunction (Var "p") (Var "q"))) ∧
  (size (getVariables (Var "p")) ≤
     size (getVariables (Disjunction (Var "p") (Conjunction (Var "p") (Var "q")))))%nat.
Proof.
  apply (catalogue_no_new_variables Simplification2Or
           (Disjunction (Var "p") (Conjunction (Var "p") (Var "q"))) (Var "p")).
  - unfold ALL_TRANSFORMATION_RULES. simpl. tauto.
  - reflexivity.
Defined.

(** Rules that undo each other.  For each pair below, when the first rule
    is applied to an expression it accepts, the second rule accepts the
    result and takes it back to the expression: the three commutativity
    rules undo themselves, the De Morgan, implication-elimination,
    distributivity and equivalence rules and their reverse forms undo each
    other, and idempotence and simplification with [true] undo the reverse
    idempotence and reverse simplification rules. *)
Theorem reverse_rules_undo (forward backward : TransformationRule)
        (e e' : BooleanExpression) :
  In (forward, backward)
     [ (CommutativityAND, CommutativityAND);
       (CommutativityOR, CommutativityOR);
       (CommutativityIFF, CommutativityIFF);
       (DeMorganAND, DeMorganANDReverse); (DeMorganANDReverse, DeMorganAND);
       (DeMorganOR, DeMorganORReverse); (DeMorganORReverse, DeMorganOR);
       (ImplicationElimination, ImplicationEliminationReverse);
       (ImplicationEliminationReverse, ImplicationElimination);
       (DistributivityAND, DistributivityANDReverse);
       (DistributivityANDReverse, DistributivityAND);
       (DistributivityOR, DistributivityORReverse);
       (DistributivityORReverse, DistributivityOR);
       (Equivalence, EquivalenceReverse); (EquivalenceReverse, Equivalence);
       (IdempotenceReverseOR, Idempotence); (IdempotenceReverseAND, Idempotence);
       (Simplification1AndReverse, SimplificationWithTrue);
       (Simplification1OrReverse, SimplificationWithTrue) ] →
  canApply forward e = true → apply forward e = Returned e' →
  canApply backward e' = true ∧ apply backward e' = Returned e.
Proof.
  intros Hin Hcan Happ. simpl in Hin.
  repeat (destruct Hin as [[= <- <-] | Hin]); try contradiction; simpl in *.
  all: unfold IdempotenceReverse_canApply, Simplification1Reverse_canApply in *.
  all: try (injection Happ as <-); simpl;
       rewrite ?clone_id, ?equals_refl; simpl.
  all: try (destruct_shape Hcan; simpl in *;
            try (injection Happ as <-); simpl;
            equals_subst; rewrite ?equals_refl; simpl; auto; fail).
  all: try (destruct e; simpl; auto; fail).
Qed.

Lemma reverse_rules_undo_witness :
  canApply DeMorganANDReverse
    (Disjunction (Negation (Var "p")) (Negation (Var "q"))) = true ∧
  apply DeMorganANDReverse (Disjunction (Negation (Var "p")) (Negation (Var "q"))) =
    Returned (Negation (Conjunction (Var "p") (Var "q"))).
Proof.
  apply (reverse_rules_undo DeMorganAND DeMorganANDReverse
           (Negation (Conjunction (Var "p") (Var "q")))).
  - simpl. tauto.
  - reflexivity.
  - reflexivity.
Defined.

(** ** truthTable.ts: the rows enumerate the assignments *)

Lemma denote_agrees (e : BooleanExpression) (σ1 σ2 : Assignment) :
  (∀ v, v ∈ getVariables e → default false (σ1 !! v) = default false (σ2 !! v)) →
  denote σ1 e = denote σ2 e.
Proof.
  induction e as [n | a IHa | o l IHl r IHr | |]; simpl; intros Hagree; auto.
  - apply Hagree. by apply elem_of_singleton.
  - by rewrite IHa.
  - rewrite IHl, IHr; [reflexivity | |];
      intros v Hv; apply Hagree; apply elem_of_union; auto.
Qed.

(** The boolean stored for bit position [p] of row [i] is bit [p] of [i]. *)
Lemma stored_bit_testbit (i p : Z) :
  0 ≤ p → negb (Z.land (Z.shiftr i p) 1 =? 0) = Z.testbit i p.
Proof.
  intros Hp. rewrite Z.testbit_eqb by lia.
  change 1 with (Z.ones 1) at 1. rewrite Z.land_ones by lia.
  rewrite Z.shiftr_div_pow2 by lia. change (2 ^ 1) with 2.
  pose proof (Z.mod_pos_bound (i / 2 ^ p) 2 ltac:(lia)).
  destruct (Z.eqb_spec ((i / 2 ^ p) mod 2) 0), (Z.eqb_spec ((i / 2 ^ p) mod 2) 1);
    simpl; lia || reflexivity.
Qed.

Lemma rowAssignment_testbit (vars : list string) (i : Z) (n : nat) (v : string) :
  "__proto__" ∉ vars → NoDup vars → vars !! n = Some v →
  rowAssignment vars i !! v =
    Some (Z.testbit i (Z.of_nat (length vars) - 1 - Z.of_nat n)).
Proof.
  intros Hplain Hnd Hn. unfold rowAssignment.
  rewrite (assignVariables_lookup _ _ _ _ _ n v Hplain Hnd Hn).
  apply lookup_lt_Some in Hn.
  rewrite stored_bit_testbit by lia. do 2 f_equal.
Qed.

Lemma testbit_high_part (b : bool) (i k p : Z) :
  0 ≤ i < 2 ^ k → 0 ≤ p ≤ k →
  Z.testbit (Z.b2z b * 2 ^ k + i) p = if p =? k then b else Z.testbit i p.
Proof.
  intros Hi Hp. rewrite !Z.testbit_eqb by lia.
  destruct (Z.eqb_spec p k) as [-> | Hne].
  - rewrite Z.div_add_l by lia. rewrite Z.div_small by lia.
    destruct b; reflexivity.
  - replace (2 ^ k) with (2 ^ (k - p - 1) * 2 * 2 ^ p).
    + rewrite !Z.mul_assoc, Z.div_add_l by lia.
      rewrite Z.add_comm, Z_mod_plus_full. reflexivity.
    + transitivity (2 ^ ((k - p - 1) + 1 + p)); [| f_equal; lia].
      rewrite !Z.pow_add_r by lia. reflexivity.
Qed.

(** Every choice of booleans for the variables is the bit pattern of a row
    number. *)
Lemma row_number_exists (f : string → bool) (vars : list string) :
  ∃ i, 0 ≤ i < 2 ^ Z.of_nat (length vars) ∧
       ∀ (n : nat) (v : string), vars !! n = Some v →
         Z.testbit i (Z.of_nat (length vars) - 1 - Z.of_nat n) = f v.
Proof.
  induction vars as [| w vars (i & Hi & Hbits)].
  - exists 0. split; [simpl; lia |]. intros n v Hn. discriminate.
  - set (k := Z.of_nat (length vars)) in *.
    assert (Hk : 0 ≤ k) by lia.
    assert (Hlen : Z.of_nat (length (w :: vars)) = k + 1) by (simpl; lia).
    rewrite Hlen.
    exists (Z.b2z (f w) * 2 ^ k + i). split.
    + rewrite Z.pow_add_r by lia. destruct (f w); simpl Z.b2z; lia.
    + intros n v Hn. destruct n as [| n]; simpl in Hn.
      * injection Hn as <-.
        rewrite testbit_high_part by lia.
        destruct (Z.eqb_spec (k + 1 - 1 - Z.of_nat 0) k); [reflexivity | lia].
      * pose proof (lookup_lt_Some _ _ _ Hn) as Hlt.
        rewrite testbit_high_part by lia.
        destruct (Z.eqb_spec (k + 1 - 1 - Z.of_nat (S n)) k); [lia |].
        rewrite <- (Hbits n v Hn). f_equal. lia.
Qed.

(** Row numbers below [2^k] with the same [k] low bits are equal. *)
Lemma row_number_unique (k i j : Z) :
  0 ≤ k → 0 ≤ i < 2 ^ k → 0 ≤ j < 2 ^ k →
  (∀ p, 0 ≤ p < k → Z.testbit i p = Z.testbit j p) → i = j.
Proof.
  intros Hk Hi Hj Hbits. apply Z.bits_inj'. intros p Hp.
  destruct (Z_lt_dec p k) as [Hlt | Hge]; [apply Hbits; lia |].
  assert (Hhigh : ∀ a, 0 ≤ a < 2 ^ k → Z.testbit a p = false).
  { intros a Ha. destruct (Z.eq_dec a 0) as [-> | Hne]; [apply Z.bits_0 |].
    apply Z.bits_above_log2; [lia |].
    assert (Z.log2 a < k) by (apply Z.log2_lt_pow2; lia). lia. }
  by rewrite !Hhigh.
Qed.

Lemma rowAssignment_complete (vars : list string) (σ : Assignment) :
  "__proto__" ∉ vars → NoDup vars → dom σ = list_to_set vars →
  ∃ i, 0 ≤ i < 2 ^ Z.of_nat (length vars) ∧ rowAssignment vars i = σ.
Proof.
  intros Hplain Hnd Hdom.
  destruct (row_number_exists (fun v => default false (σ !! v)) vars) as (i & Hi & Hbits).
  exists i. split; [exact Hi |]. apply map_eq. intros v.
  destruct (decide (v ∈ vars)) as [Hv | Hv].
  - apply list_elem_of_lookup in Hv as [n Hn].
    rewrite (rowAssignment_testbit vars i n v Hplain Hnd Hn), (Hbits n v Hn).
    assert (Hin : v ∈ dom σ).
    { rewrite Hdom. apply elem_of_list_to_set. by eapply list_elem_of_lookup_2. }
    apply elem_of_dom in Hin as [b ->]. reflexivity.
  - assert (Hrow : rowAssignment vars i !! v = None).
    { apply not_elem_of_dom. rewrite rowAssignment_dom by exact Hplain.
      by rewrite elem_of_list_to_set. }
    rewrite Hrow. symmetry. apply not_elem_of_dom. rewrite Hdom.
    by rewrite elem_of_list_to_set.
Qed.

Lemma rowAssignment_inj (vars : list string) (i j : Z) :
  "__proto__" ∉ vars → NoDup vars →
  0 ≤ i < 2 ^ Z.of_nat (length vars) → 0 ≤ j < 2 ^ Z.of_nat (length vars) →
  rowAssignment vars i = rowAssignment vars j → i = j.
Proof.
  intros Hplain Hnd Hi Hj Heq.
  apply (row_number_unique (Z.of_nat (length vars))); try lia.
  intros p Hp.
  destruct (lookup_lt_is_Some_2 vars (length vars - 1 - Z.to_nat p)%nat ltac:(lia))
    as [v Hv].
  pose proof (rowAssignment_testbit vars i _ v Hplain Hnd Hv) as H1.
  pose proof (rowAssignment_testbit vars j _ v Hplain Hnd Hv) as H2.
  rewrite Heq, H2 in H1. injection H1 as H1.
  replace (Z.of_nat (length vars) - 1 - Z.of_nat (length vars - 1 - Z.to_nat p)) with p
    in H1 by lia.
  by symmetry.
Qed.

Lemma row_matching (σ : Assignment) (vars : list string) :
  "__proto__" ∉ vars → NoDup vars →
  ∃ i, 0 ≤ i < 2 ^ Z.of_nat (length vars) ∧
       ∀ v, v ∈ vars → rowAssignment vars i !! v = Some (default false (σ !! v)).
Proof.
  intros Hplain Hnd.
  destruct (row_number_exists (fun v => default false (σ !! v)) vars) as (i & Hi & Hbits).
  exists i. split; [exact Hi |]. intros v [n Hn]%list_elem_of_lookup.
  by rewrite (rowAssignment_testbit vars i n v Hplain Hnd Hn), (Hbits n v Hn).
Qed.

Lemma makeRow_result (e : BooleanExpression) (i : Z) :
  wellNamed e = true →
  result (makeRow e (sortedVariables e) i) =
  denote (rowAssignment (sortedVariables e) i) e.
Proof.
  intros Hnamed. destruct (makeRow_evaluates e i Hnamed) as [Hasg Hev].
  rewrite Hasg, evaluate_covered in Hev by (by rewrite rowAssignment_covers).
  by injection Hev as <-.
Qed.

(** The rows of the table of [e] show every value [e] takes: under any
    assignment, [e] has the value recorded in some row. *)
Lemma table_row_for (e : BooleanExpression) (σ : Assignment) :
  wellNamed e = true →
  ∃ i, 0 ≤ i < 2 ^ Z.of_nat (size (getVariables e)) ∧
       denote σ e = result (makeRow e (sortedVariables e) i).
Proof.
  intros Hnamed.
  destruct (row_matching σ (sortedVariables e) (wellNamed_no_proto e Hnamed)
              (sortedVariables_NoDup e)) as (i & Hi & Hrow).
  rewrite sortedVariables_length in Hi.
  exists i. split; [exact Hi |]. rewrite makeRow_result by exact Hnamed.
  apply denote_agrees. intros v Hv.
  rewrite Hrow by (by apply sortedVariables_elem_of). reflexivity.
Qed.

Lemma table_rows_elem (e : BooleanExpression) (row : TruthTableRow) :
  row ∈ map (makeRow e (sortedVariables e))
          (seqZ 0 (2 ^ Z.of_nat (size (getVariables e)))) ↔
  ∃ i, 0 ≤ i < 2 ^ Z.of_nat (size (getVariables e)) ∧
       row = makeRow e (sortedVariables e) i.
Proof.
  rewrite list_elem_of_fmap. split.
  - intros (i & -> & Hi). apply elem_of_seqZ in Hi. exists i. split; [lia | done].
  - intros (i & Hi & ->). exists i. split; [done |]. apply elem_of_seqZ. lia.
Qed.

Lemma filter_length_all {A : Type} (p : A → bool) (l : list A) :
  length (List.filter p l) = length l ↔ Forall (fun x => p x = true) l.
Proof.
  induction l as [| x l IH]; simpl.
  - split; [constructor | reflexivity].
  - pose proof (List.filter_length_le p l) as Hle.
    destruct (p x) eqn:Hx; simpl; rewrite Forall_cons.
    + split; [intros [=]; split; [done | by apply IH] |].
      intros [_ Hall]. f_equal. by apply IH.
    + split; [intros; lia | intros [? _]; congruence].
Qed.

Lemma filter_length_none {A : Type} (p : A → bool) (l : list A) :
  length (List.filter p l) = 0%nat ↔ Forall (fun x => p x = false) l.
Proof.
  induction l as [| x l IH]; simpl.
  - split; [constructor | reflexivity].
  - destruct (p x) eqn:Hx; simpl; rewrite Forall_cons.
    + split; [discriminate | intros [? _]; congruence].
    + rewrite IH. tauto.
Qed.

(** What [analyzeTruthTable] reports about the table of an expression
    over identifiers: [isTautology] holds exactly when the expression is true under every
    assignment of its variables, [isContradiction] exactly when it is false
    under every one, and [isContingent] exactly when neither holds; the
    table has [2^k] rows. *)
Theorem analyzeTruthTable_semantics (e : BooleanExpression) (table : TruthTable) :
  wellNamed e = true →
  generateTruthTable e = Ok table →
  (isTautology (analyzeTruthTable table) = true ↔
   ∀ σ, getVariables e ⊆ dom σ → evaluate e σ = Some true) ∧
  (isContradiction (analyzeTruthTable table) = true ↔
   ∀ σ, getVariables e ⊆ dom σ → evaluate e σ = Some false) ∧
  isContingent (analyzeTruthTable table) =
    negb (isTautology (analyzeTruthTable table)) &&
    negb (isContradiction (analyzeTruthTable table)) ∧
  totalRows (analyzeTruthTable table) = 2 ^ Z.of_nat (size (getVariables e)) ∧
  0 ≤ satisfiableCount (analyzeTruthTable table) ≤ totalRows (analyzeTruthTable table).
Proof.
  intros Hnamed Hgen.
  destruct (Z_le_gt_dec (Z.of_nat (size (getVariables e))) MAX_TRUTH_TABLE_VARIABLES)
    as [Hk | Hk].
  2: { destruct (generateTruthTable_large e ltac:(lia)) as [m Hm]. congruence. }
  rewrite generateTruthTable_small in Hgen by exact Hk. injection Hgen as <-.
  unfold analyzeTruthTable. cbn [rows isTautology isContradiction isContingent
                                 totalRows satisfiableCount].
  set (k := Z.of_nat (size (getVariables e))) in *.
  set (rs := map (makeRow e (sortedVariables e)) (seqZ 0 (2 ^ k))).
  assert (Hpow : 0 < 2 ^ k) by (apply Z.pow_pos_nonneg; lia).
  assert (Hlen : Z.of_nat (length rs) = 2 ^ k).
  { unfold rs. rewrite length_map, length_seqZ. lia. }
  pose proof (List.filter_length_le result rs) as Hle.
  assert (Hvalue : ∀ σ b, getVariables e ⊆ dom σ →
            (evaluate e σ = Some b ↔ denote σ e = b)).
  { intros σ b Hsub. rewrite evaluate_covered by exact Hsub.
    split; [by intros [=] | by intros ->]. }
  assert (Hall : ∀ b, Forall (fun row => result row = b) rs ↔
                      ∀ σ, getVariables e ⊆ dom σ → evaluate e σ = Some b).
  { intros b. rewrite Forall_forall. split.
    - intros Hrows σ Hsub. apply Hvalue; [exact Hsub |].
      destruct (table_row_for e σ Hnamed) as (i & Hi & ->).
      apply Hrows. apply table_rows_elem. eauto.
    - intros Hsem row (i & Hi & ->)%table_rows_elem.
      rewrite makeRow_result by exact Hnamed. apply Hvalue; [| apply Hsem].
      all: by rewrite rowAssignment_covers. }
  split; [| split; [| split; [| split]]].
  - rewrite <- Hall, <- filter_length_all, Z.eqb_eq. lia.
  - rewrite <- Hall, <- filter_length_none, Z.eqb_eq. lia.
  - destruct (Z.eqb_spec (Z.of_nat (length (List.filter result rs))) (Z.of_nat (length rs))),
      (Z.eqb_spec (Z.of_nat (length (List.filter result rs))) 0),
      (Z.ltb_spec 0 (Z.of_nat (length (List.filter result rs)))),
      (Z.ltb_spec (Z.of_nat (length (List.filter result rs))) (Z.of_nat (length rs)));
      simpl; lia || reflexivity.
  - exact Hlen.
  - lia.
Qed.

Lemma analyzeTruthTable_semantics_witness :
  ∃ table,
    generateTruthTable (Disjunction (Var "a") (Negation (Var "a"))) = Ok table ∧
    (isTautology (analyzeTruthTable table) = true ↔
     ∀ σ, getVariables (Disjunction (Var "a") (Negation (Var "a"))) ⊆ dom σ →
          evaluate (Disjunction (Var "a") (Negation (Var "a"))) σ = Some true) ∧
    isTautology (analyzeTruthTable table) = true.
Proof.
  eexists. split; [reflexivity |].
  split; [| reflexivity].
  eapply (analyzeTruthTable_semantics (Disjunction (Var "a") (Negation (Var "a")))).
  - reflexivity.
  - reflexivity.
Defined.

Lemma table_assignments (e : BooleanExpression) (n : Z) :
  wellNamed e = true →
  map assignment (map (makeRow e (sortedVariables e)) (seqZ 0 n)) =
  map (rowAssignment (sortedVariables e)) (seqZ 0 n).
Proof.
  intros Hnamed. rewrite map_map. apply map_ext. intros i.
  by destruct (makeRow_evaluates e i Hnamed) as [-> _].
Qed.

Lemma makeRow_inj (e : BooleanExpression) (i j : Z) :
  wellNamed e = true →
  0 ≤ i < 2 ^ Z.of_nat (size (getVariables e)) →
  0 ≤ j < 2 ^ Z.of_nat (size (getVariables e)) →
  assignment (makeRow e (sortedVariables e) i) =
  assignment (makeRow e (sortedVariables e) j) → i = j.
Proof.
  intros Hnamed Hi Hj Heq.
  destruct (makeRow_evaluates e i Hnamed) as [Hai _],
    (makeRow_evaluates e j Hnamed) as [Haj _].
  rewrite Hai, Haj in Heq. rewrite <- sortedVariables_length in Hi, Hj.
  by apply (rowAssignment_inj (sortedVariables e) i j (wellNamed_no_proto e Hnamed)
              (sortedVariables_NoDup e)).
Qed.

(** The rows of the truth table of an expression over identifiers
    enumerate the assignments of its variables, each exactly once: the assignments of the rows are
    pairwise different, and an assignment is that of some row exactly when
    it is defined on the variables of the expression and nothing else. *)
Theorem truth_table_enumerates (e : BooleanExpression) (table : TruthTable) :
  wellNamed e = true →
  generateTruthTable e = Ok table →
  NoDup (map assignment (rows table)) ∧
  ∀ σ : Assignment, σ ∈ map assignment (rows table) ↔ dom σ = getVariables e.
Proof.
  intros Hnamed Hgen.
  destruct (Z_le_gt_dec (Z.of_nat (size (getVariables e))) MAX_TRUTH_TABLE_VARIABLES)
    as [Hk | Hk].
  2: { destruct (generateTruthTable_large e ltac:(lia)) as [m Hm]. congruence. }
  rewrite generateTruthTable_small in Hgen by exact Hk. injection Hgen as <-.
  cbn [rows]. rewrite table_assignments by exact Hnamed.
  set (k := Z.of_nat (size (getVariables e))) in *.
  assert (Hpow : 0 < 2 ^ k) by (apply Z.pow_pos_nonneg; lia).
  pose proof (wellNamed_no_proto e Hnamed) as Hplain.
  split.
  - apply NoDup_fmap_2_strong; [| apply NoDup_seqZ].
    intros i j Hi%elem_of_seqZ Hj%elem_of_seqZ Heq.
    apply (rowAssignment_inj (sortedVariables e) i j Hplain (sortedVariables_NoDup e));
      rewrite ?sortedVariables_length; fold k; lia || exact Heq.
  - intros σ. rewrite list_elem_of_fmap. split.
    + intros (i & -> & _). by apply rowAssignment_covers.
    + intros Hdom.
      destruct (rowAssignment_complete (sortedVariables e) σ Hplain
                  (sortedVariables_NoDup e))
        as (i & Hi & Hrow).
      { by rewrite sortedVariables_to_set. }
      rewrite sortedVariables_length in Hi. fold k in Hi.
      exists i. split; [done |]. apply elem_of_seqZ. lia.
Qed.

Lemma truth_table_enumerates_witness :
  ∃ table,
    generateTruthTable (Conjunction (Var "a") (Var "b")) = Ok table ∧
    NoDup (map assignment (rows table)) ∧
    ∀ σ : Assignment, σ ∈ map assignment (rows table) ↔
                      dom σ = getVariables (Conjunction (Var "a") (Var "b")).
Proof.
  eexists. split; [reflexivity |].
  apply (truth_table_enumerates (Conjunction (Var "a") (Var "b"))).
  - reflexivity.
  - reflexivity.
Defined.

(** For an expression over identifiers [findSatisfyingAssignments]
    returns, without repetition, exactly the assignments of the variables
    of the expression under which it evaluates to [true]; with more than 15
    variables it raises the error of [generateTruthTable]. *)
Theorem findSatisfyingAssignments_spec (e : BooleanExpression) :
  wellNamed e = true →
  (Z.of_nat (size (getVariables e)) ≤ 15 →
   ∃ found, findSatisfyingAssignments e = Ok found ∧ NoDup found ∧
     ∀ σ : Assignment,
       σ ∈ found ↔ dom σ = getVariables e ∧ evaluate e σ = Some true) ∧
  (15 < Z.of_nat (size (getVariables e)) →
   ∃ message, findSatisfyingAssignments e = Error message).
Proof.
  intros Hnamed. pose proof (wellNamed_no_proto e Hnamed) as Hplain.
  unfold findSatisfyingAssignments. split.
  2: { intros Hk. destruct (generateTruthTable_large e Hk) as [m ->]. eauto. }
  intros Hk. rewrite generateTruthTable_small by exact Hk.
  eexists. split; [reflexivity |]. cbn [rows].
  set (k := Z.of_nat (size (getVariables e))) in *.
  set (rs := map (makeRow e (sortedVariables e)) (seqZ 0 (2 ^ k))).
  assert (Hpow : 0 < 2 ^ k) by (apply Z.pow_pos_nonneg; lia).
  assert (Hrs : ∀ row, row ∈ rs ↔ ∃ i, 0 ≤ i < 2 ^ k ∧ row = makeRow e (sortedVariables e) i)
    by apply table_rows_elem.
  split.
  - apply NoDup_fmap_2_strong.
    + intros r1 r2 Hr1%list_elem_of_In Hr2%list_elem_of_In Heq.
      apply List.filter_In in Hr1 as [Hr1%list_elem_of_In _].
      apply List.filter_In in Hr2 as [Hr2%list_elem_of_In _].
      apply Hrs in Hr1 as (i & Hi & ->). apply Hrs in Hr2 as (j & Hj & ->).
      by rewrite (makeRow_inj e i j Hnamed Hi Hj Heq).
    + apply NoDup_ListNoDup, List.NoDup_filter, NoDup_ListNoDup. unfold rs.
      apply NoDup_fmap_2_strong; [| apply NoDup_seqZ].
      intros i j Hi%elem_of_seqZ Hj%elem_of_seqZ Heq.
      apply (makeRow_inj e i j Hnamed); fold k; [lia | lia | by rewrite Heq].
  - intros σ. rewrite list_elem_of_fmap. split.
    + intros (row & -> & Hrow%list_elem_of_In).
      apply List.filter_In in Hrow as [(i & Hi & ->)%list_elem_of_In%Hrs Htrue].
      destruct (makeRow_evaluates e i Hnamed) as [Hasg Hev].
      rewrite Hev, Htrue. split; [| reflexivity].
      rewrite Hasg. by apply rowAssignment_covers.
    + intros [Hdom Htrue].
      destruct (rowAssignment_complete (sortedVariables e) σ Hplain
                  (sortedVariables_NoDup e))
        as (i & Hi & Hrow).
      { by rewrite sortedVariables_to_set. }
      rewrite sortedVariables_length in Hi. fold k in Hi.
      destruct (makeRow_evaluates e i Hnamed) as [Hasg Hev].
      exists (makeRow e (sortedVariables e) i). split; [congruence |].
      apply list_elem_of_In, List.filter_In. split.
      * apply list_elem_of_In, Hrs. eauto.
      * rewrite Hasg, Hrow, Htrue in Hev. by injection Hev as <-.
Qed.

Lemma findSatisfyingAssignments_spec_witness :
  ∃ found, findSatisfyingAssignments (Conjunction (Var "a") (Negation (Var "b"))) =
             Ok found ∧
    NoDup found ∧
    ∀ σ : Assignment,
      σ ∈ found ↔
      dom σ = getVariables (Conjunction (Var "a") (Negation (Var "b"))) ∧
      evaluate (Conjunction (Var "a") (Negation (Var "b"))) σ = Some true.
Proof.
  apply (proj1 (findSatisfyingAssignments_spec
                  (Conjunction (Var "a") (Negation (Var "b"))) eq_refl)).
  vm_compute. discriminate.
Defined.

(** ** truthTable.ts: equivalence of two expressions *)

(** Below [2^31] and for shifts below 32 the 32-bit shift of the source is
    the shift on integers. *)
Lemma signedRightShift_small (i p : Z) :
  0 ≤ i < 2 ^ 31 → 0 ≤ p < 32 → signedRightShift i p = Z.shiftr i p.
Proof.
  intros Hi Hp. unfold signedRightShift, toInt32.
  rewrite (Z.mod_small i) by lia. rewrite (Z.mod_small p) by lia.
  destruct (Z.ltb_spec i (2 ^ 31)); [reflexivity | lia].
Qed.

Lemma assignBits_small (len i j : Z) (rest : list string) (σ : Assignment) :
  0 ≤ i < 2 ^ 31 → 0 ≤ j → j + Z.of_nat (length rest) ≤ len → len ≤ 32 →
  assignBits len i j rest σ = assignVariables len i j rest σ.
Proof.
  intros Hi. revert j σ.
  induction rest as [| v rest IH]; intros j σ Hj Hlen Hmax; [reflexivity |].
  simpl in *. rewrite signedRightShift_small by lia. apply IH; lia.
Qed.

Lemma equivalence_rows (e1 e2 : BooleanExpression) (i : Z) :
  Z.of_nat (size (getVariables e1 ∪ getVariables e2)) ≤ 31 →
  0 ≤ i < 2 ^ Z.of_nat (size (getVariables e1 ∪ getVariables e2)) →
  assignBits (Z.of_nat (length (sortedVariables (Conjunction e1 e2)))) i 0
    (sortedVariables (Conjunction e1 e2)) ∅ =
  rowAssignment (sortedVariables (Conjunction e1 e2)) i.
Proof.
  intros Hk Hi. unfold rowAssignment.
  pose proof (sortedVariables_length (Conjunction e1 e2)) as Hlen.
  cbn [getVariables] in Hlen.
  apply assignBits_small; try lia.
  split; [lia |]. eapply Z.lt_le_trans; [apply Hi |].
  apply Z.pow_le_mono_r; lia.
Qed.

Lemma areExpressionsEquivalent_iff (e1 e2 : BooleanExpression) :
  wellNamed e1 = true → wellNamed e2 = true →
  Z.of_nat (size (getVariables e1 ∪ getVariables e2)) ≤ 31 →
  (areExpressionsEquivalent e1 e2 = true ↔
   ∀ σ : Assignment, getVariables e1 ∪ getVariables e2 ⊆ dom σ →
                     evaluate e1 σ = evaluate e2 σ).
Proof.
  intros Hnamed1 Hnamed2 Hk.
  assert (Hnamed : wellNamed (Conjunction e1 e2) = true)
    by (simpl; by rewrite Hnamed1, Hnamed2).
  pose proof (wellNamed_no_proto _ Hnamed) as Hplain.
  unfold areExpressionsEquivalent.
  change (merge_sort String.le (elements (getVariables e1 ∪ getVariables e2)))
    with (sortedVariables (Conjunction e1 e2)).
  pose proof (sortedVariables_length (Conjunction e1 e2)) as Hlen.
  cbn [getVariables] in Hlen.
  set (vars := sortedVariables (Conjunction e1 e2)) in *.
  set (k := Z.of_nat (size (getVariables e1 ∪ getVariables e2))) in *.
  assert (Hpow : 0 < 2 ^ k) by (apply Z.pow_pos_nonneg; lia).
  assert (Hcover : ∀ i, getVariables e1 ⊆ dom (rowAssignment vars i) ∧
                        getVariables e2 ⊆ dom (rowAssignment vars i)).
  { intros i. unfold vars.
    rewrite (rowAssignment_covers (Conjunction e1 e2)) by exact Hnamed.
    cbn [getVariables]. split; [apply union_subseteq_l | apply union_subseteq_r]. }
  rewrite forallb_forall. split.
  - intros Hrows σ Hsub.
    apply union_subseteq in Hsub as [Hsub1 Hsub2].
    destruct (row_matching σ vars Hplain (sortedVariables_NoDup _)) as (i & Hi & Hrow).
    rewrite Hlen in Hi. fold k in Hi.
    specialize (Hrows i ltac:(apply list_elem_of_In, elem_of_seqZ; rewrite Hlen; fold k; lia)).
    cbv beta zeta in Hrows.
    pose proof (equivalence_rows e1 e2 i Hk Hi) as Hrw. fold vars in Hrw.
    rewrite Hrw in Hrows. clear Hrw.
    destruct (Hcover i) as [Hc1 Hc2].
    rewrite (evaluate_covered e1 _ Hc1), (evaluate_covered e2 _ Hc2) in Hrows.
    apply eqb_prop in Hrows.
    rewrite (evaluate_covered e1 σ Hsub1), (evaluate_covered e2 σ Hsub2). f_equal.
    assert (Hagree : ∀ e, getVariables e ⊆ getVariables e1 ∪ getVariables e2 →
              denote σ e = denote (rowAssignment vars i) e).
    { intros e He. apply denote_agrees. intros v Hv.
      rewrite Hrow; [reflexivity |].
      apply (sortedVariables_elem_of (Conjunction e1 e2)). cbn [getVariables].
      by apply He. }
    rewrite !Hagree by (apply union_subseteq_l || apply union_subseteq_r).
    exact Hrows.
  - intros Hsem i Hi%list_elem_of_In%elem_of_seqZ. rewrite Hlen in Hi.
    cbv beta zeta.
    pose proof (equivalence_rows e1 e2 i Hk ltac:(lia)) as Hrw. fold vars in Hrw.
    rewrite Hrw. clear Hrw.
    destruct (Hcover i) as [Hc1 Hc2].
    specialize (Hsem (rowAssignment vars i) ltac:(by apply union_subseteq)).
    rewrite (evaluate_covered e1 _ Hc1), (evaluate_covered e2 _ Hc2) in *.
    injection Hsem as ->. apply eqb_reflx.
Qed.

(** [areExpressionsEquivalent] decides semantic equivalence: for two
    expressions over identifiers with at most 31 variables between them it
    returns [true]
    exactly when they evaluate to the same boolean under every assignment of
    their variables.  (From 32 variables on the 32-bit shift [i >> bitPosition]
    no longer reads bit [bitPosition] of the row number.) *)
Theorem areExpressionsEquivalent_spec (e1 e2 : BooleanExpression) :
  wellNamed e1 = true → wellNamed e2 = true →
  Z.of_nat (size (getVariables e1 ∪ getVariables e2)) ≤ 31 →
  (areExpressionsEquivalent e1 e2 = true ↔
   ∀ σ : Assignment, getVariables e1 ∪ getVariables e2 ⊆ dom σ →
                     evaluate e1 σ = evaluate e2 σ).
Proof. apply areExpressionsEquivalent_iff. Qed.

Lemma areExpressionsEquivalent_spec_witness :
  areExpressionsEquivalent
    (Implication (Var "p") (Var "q"))
    (Disjunction (Negation (Var "p")) (Var "q")) = true ↔
  ∀ σ : Assignment,
    getVariables (Implication (Var "p") (Var "q")) ∪
    getVariables (Disjunction (Negation (Var "p")) (Var "q")) ⊆ dom σ →
    evaluate (Implication (Var "p") (Var "q")) σ =
    evaluate (Disjunction (Negation (Var "p")) (Var "q")) σ.
Proof.
  apply (areExpressionsEquivalent_spec (Implication (Var "p") (Var "q"))
           (Disjunction (Negation (Var "p")) (Var "q"))).
  - reflexivity.
  - reflexivity.
  - vm_compute. discriminate.
Defined.

(** Every rule of the catalogue rewrites an expression over identifiers
    that it accepts into one that [areExpressionsEquivalent] finds
    equivalent. *)
Theorem catalogue_rules_equivalent (r : TransformationRule) (e e' : BooleanExpression) :
  wellNamed e = true →
  In r ALL_TRANSFORMATION_RULES → canApply r e = true → apply r e = Returned e' →
  Z.of_nat (size (getVariables e)) ≤ 31 →
  areExpressionsEquivalent e e' = true.
Proof.
  intros Hnamed Hin Hcan Happ Hk.
  pose proof (catalogue_preservesNames r e e' Hin Hnamed Happ) as Hnamed'.
  pose proof (catalogue_no_new_variables_sub r e e' Hin Happ) as Hsub.
  assert (Hunion : getVariables e ∪ getVariables e' = getVariables e).
  { apply set_eq. intros v. rewrite elem_of_union. split; [| tauto].
    intros [Hv | Hv]; [done | by apply Hsub]. }
  apply areExpressionsEquivalent_iff; [exact Hnamed | exact Hnamed' | |];
    rewrite Hunion; [exact Hk |].
  intros σ Hdom.
  destruct (catalogue_sound_denote r e Hin Hcan) as (e'' & Happ' & Hsound).
  rewrite Happ in Happ'. injection Happ' as <-.
  rewrite !evaluate_covered; [by rewrite Hsound | | done].
  by transitivity (getVariables e).
Qed.

Lemma catalogue_rules_equivalent_witness :
  areExpressionsEquivalent
    (Negation (Conjunction (Var "p") (Var "q")))
    (Disjunction (Negation (Var "p")) (Negation (Var "q"))) = true.
Proof.
  apply (catalogue_rules_equivalent DeMorganAND).
  - reflexivity.
  - unfold ALL_TRANSFORMATION_RULES. simpl. tauto.
  - reflexivity.
  - reflexivity.
  - vm_compute. discriminate.
Defined.

(** ** truthTable.ts: the compact table *)

Lemma compactRows_cons (row : TruthTableRow) (rs : list TruthTableRow) :
  compactRows (row :: rs) =
  String (if result row then "1"%char else "0"%char) (compactRows rs).
Proof.
  cbn [compactRows]. destruct (result row); by rewrite append_cons, append_nil.
Qed.

Lemma compactRows_length (rs : list TruthTableRow) :
  String.length (compactRows rs) = length rs.
Proof.
  induction rs as [| row rs IH]; [reflexivity |].
  rewrite compactRows_cons. simpl. by rewrite IH.
Qed.

Lemma compactRows_get (rs : list TruthTableRow) (n : nat) :
  String.get n (compactRows rs) =
  (fun row => if result row then "1"%char else "0"%char) <$> rs !! n.
Proof.
  revert n. induction rs as [| row rs IH]; intros n; [by destruct n |].
  rewrite compactRows_cons. destruct n as [| n]; simpl; [reflexivity | apply IH].
Qed.

(** [generateCompactTruthTable] on an expression over identifiers with
    [k] variables, [k] at most 6, returns a string of [2^k] characters, the character at
    index [i] being ['1'] or ['0'] as the expression is true or false under
    the assignment of row [i]; the special case of an expression without
    variables agrees with the general one.  With more than 6 variables it
    raises an error. *)
Theorem generateCompactTruthTable_spec (e : BooleanExpression) :
  wellNamed e = true →
  (Z.of_nat (size (getVariables e)) ≤ 6 →
   ∃ s, generateCompactTruthTable e = Some (Ok s) ∧
     Z.of_nat (String.length s) = 2 ^ Z.of_nat (size (getVariables e)) ∧
     ∀ i, 0 ≤ i < 2 ^ Z.of_nat (size (getVariables e)) →
       ∃ b, evaluate e (rowAssignment (sortedVariables e) i) = Some b ∧
            String.get (Z.to_nat i) s = Some (if b then "1"%char else "0"%char)) ∧
  (6 < Z.of_nat (size (getVariables e)) →
   generateCompactTruthTable e =
     Some (Error "Expression has too many variables for compact representation")).
Proof.
  intros Hnamed.
  unfold generateCompactTruthTable. rewrite sortedVariables_length.
  set (n := size (getVariables e)).
  assert (Hpow : 0 < 2 ^ Z.of_nat n) by (apply Z.pow_pos_nonneg; lia).
  split.
  - intros Hk.
    assert (Hgeneral :
      ∃ s, Some (Ok (compactRows (map (makeRow e (sortedVariables e))
                                     (seqZ 0 (2 ^ Z.of_nat n))))) = Some (Ok s) ∧
           Z.of_nat (String.length s) = 2 ^ Z.of_nat n ∧
           ∀ i, 0 ≤ i < 2 ^ Z.of_nat n →
             ∃ b, evaluate e (rowAssignment (sortedVariables e) i) = Some b ∧
                  String.get (Z.to_nat i) s = Some (if b then "1"%char else "0"%char)).
    { eexists. split; [reflexivity |]. split.
      - rewrite compactRows_length, length_map, length_seqZ. lia.
      - intros i Hi. destruct (makeRow_evaluates e i Hnamed) as [Hasg Hev].
        exists (result (makeRow e (sortedVariables e) i)).
        split; [by rewrite <- Hasg |].
        rewrite compactRows_get, list_lookup_fmap, lookup_seqZ_lt by lia.
        simpl. by replace (0 + Z.of_nat (Z.to_nat i)) with i by lia. }
    destruct (Nat.eqb_spec n 0) as [Hzero | Hpos].
    + (* no variables: the single row is the evaluation under {} *)
      clear Hgeneral.
      assert (Hvars : sortedVariables e = []).
      { apply length_zero_iff_nil. by rewrite sortedVariables_length. }
      destruct (evaluate_is_Some e ∅) as [b Hb].
      { replace (getVariables e) with (∅ : gset string); [apply empty_subseteq |].
        symmetry. apply leibniz_equiv. by apply size_empty_iff. }
      rewrite Hb, Hvars, Hzero.
      exists (if b then "1" else "0"). split; [by destruct b |].
      split; [by destruct b |].
      intros i Hi. exists b. replace i with 0 by (simpl in Hi; lia).
      split; [exact Hb | by destruct b].
    + destruct (Nat.ltb_spec 6 n); [lia |].
      rewrite generateTruthTable_small by (unfold MAX_TRUTH_TABLE_VARIABLES; lia).
      exact Hgeneral.
  - intros Hk. destruct (Nat.eqb_spec n 0); [lia |].
    destruct (Nat.ltb_spec 6 n); [reflexivity | lia].
Qed.

Lemma generateCompactTruthTable_spec_witness :
  ∃ s, generateCompactTruthTable (Implication (Var "p") (Var "q")) = Some (Ok s) ∧
    Z.of_nat (String.length s) =
      2 ^ Z.of_nat (size (getVariables (Implication (Var "p") (Var "q")))) ∧
    ∀ i, 0 ≤ i < 2 ^ Z.of_nat (size (getVariables (Implication (Var "p") (Var "q")))) →
      ∃ b, evaluate (Implication (Var "p") (Var "q"))
             (rowAssignment (sortedVariables (Implication (Var "p") (Var "q"))) i) =
             Some b ∧
           String.get (Z.to_nat i) s = Some (if b then "1"%char else "0"%char).
Proof.
  apply (proj1 (generateCompactTruthTable_spec (Implication (Var "p") (Var "q"))
                  eq_refl)).
  vm_compute. discriminate.
Defined.

(** ** proofSystem.ts: the proof a search returns *)

Lemma rewriteAt_rewriteStep (rules : list TransformationRule) (rule : TransformationRule)
      (sub e e' : BooleanExpression) :
  In rule rules → rewriteAt rule sub e e' → rewriteStep rules e e'.
Proof.
  intros Hin. induction 1; [by eapply rewrite_root | | |]; by constructor.
Qed.

(** Each transformation the driver returns names the rule and the
    subexpression it comes from. *)
Lemma getAllPossibleTransformations_rewriteAt (rules : list TransformationRule)
      (e : BooleanExpression) :
  ∀ (maxLength : Z) (t : Transformation.t),
    In t (getAllPossibleTransformations rules e maxLength) →
    In (Transformation.rule t) rules ∧
    rewriteAt (Transformation.rule t) (Transformation.appliedToSubexpression t) e
      (Transformation.newExpression t).
Proof.
  induction e as [n | a IHa | op l IHl r IHr | |]; intros maxLength t;
    rewrite getAllPossibleTransformations_unfold, in_app_iff;
    (intros [Hroot | Hsub];
     [apply In_rootTransformations in Hroot as (rl & Hin & Hcan & Happ & _ & ->);
      simpl; split; [exact Hin | by constructor] |]);
    simpl in Hsub; try contradiction.
  - apply In_liftTransformations in Hsub as (t0 & Ht0 & _ & ->). simpl.
    destruct (IHa _ _ Ht0). split; [done | by constructor].
  - apply in_app_iff in Hsub as [Hl | Hr].
    + apply In_liftTransformations in Hl as (t0 & Ht0 & _ & ->). simpl.
      destruct (IHl _ _ Ht0). split; [done | by constructor].
    + apply In_liftTransformations in Hr as (t0 & Ht0 & _ & ->). simpl.
      destruct (IHr _ _ Ht0). split; [done | by constructor].
Qed.

Lemma last_cons {A : Type} (l : list A) :
  ∀ s d : A, List.last (s :: l) d = List.last l s.
Proof.
  induction l as [| s' l IH]; intros s d; [reflexivity |].
  change (List.last (s :: s' :: l) d) with (List.last (s' :: l) d).
  by rewrite (IH s' d), (IH s' s).
Qed.

Lemma validSteps_app (rules : list TransformationRule) (maxLength : Z)
      (steps1 steps2 : list ProofStep.t) :
  ∀ (previous : BooleanExpression) (number : Z) (first : ProofStep.t),
    ProofStep.expression first = previous →
    validSteps rules maxLength previous number steps1 →
    validSteps rules maxLength (ProofStep.expression (List.last steps1 first))
      (number + Z.of_nat (length steps1)) steps2 →
    validSteps rules maxLength previous number (steps1 ++ steps2).
Proof.
  induction steps1 as [| s steps1 IH]; intros previous number first Hfirst H1 H2.
  - simpl in *. rewrite Hfirst, Z.add_0_r in H2. exact H2.
  - destruct H1 as (Hnum & Hrule & Hlen & H1). simpl.
    split; [exact Hnum |]. split; [exact Hrule |]. split; [exact Hlen |].
    apply (IH _ _ s eq_refl H1).
    replace (number + 1 + Z.of_nat (length steps1))
      with (number + Z.of_nat (length (s :: steps1))) by (simpl; lia).
    by rewrite <- (last_cons steps1 s first).
Qed.

Section search_nodes.
Variable rules : list TransformationRule.
Variable maxLength : Z.
Variable S : BooleanExpression.

Lemma searchNode_chain (n : ProofNode.t) :
  searchNode rules maxLength S n →
  0 ≤ ProofNode.depth n ∧
  length (nodeChain n) = Datatypes.S (Z.to_nat (ProofNode.depth n)).
Proof.
  induction 1 as [| p e rule sub _ [Hd Hchain] _ _ _]; simpl; [split; [lia | done] |].
  split; [lia |]. rewrite length_app, Hchain. simpl. lia.
Qed.

Lemma searchNode_sequence (n : ProofNode.t) :
  searchNode rules maxLength S n →
  rewriteSequence rules maxLength (Z.to_nat (ProofNode.depth n)) S
    (ProofNode.expression n).
Proof.
  induction 1 as [| p e rule sub Hp IH Hin Hat Hlen]; simpl; [constructor |].
  destruct (searchNode_chain p Hp) as [Hd _].
  replace (Z.to_nat (ProofNode.depth p + 1))
    with (Datatypes.S (Z.to_nat (ProofNode.depth p))) by lia.
  econstructor; [exact IH | by eapply rewriteAt_rewriteStep | exact Hlen].
Qed.

(** The steps reconstructed from a node of the search. *)
Lemma searchNode_steps (n : ProofNode.t) :
  searchNode rules maxLength S n →
  ∃ others,
    reconstructProof n = ProofStep.mk S None None 1 :: others ∧
    length others = Z.to_nat (ProofNode.depth n) ∧
    validSteps rules maxLength S 2 others ∧
    ProofStep.expression (List.last others (ProofStep.mk S None None 1)) =
      ProofNode.expression n.
Proof.
  induction 1 as [| p e rule sub Hp (others & Hrec & Hlen & Hvalid & Hlast) Hin Hat Hle].
  - exists []. repeat split.
  - destruct (searchNode_chain p Hp) as [Hd Hchain].
    exists (others ++ [ProofStep.mk e (Some rule) (Some sub)
                         (Z.of_nat (Datatypes.S (length others)) + 1)]).
    unfold reconstructProof in *. cbn [nodeChain ProofNode.parent].
    rewrite imap_app, Hrec. cbn [imap ProofNode.expression ProofNode.rule
                                  ProofNode.appliedToSubexpression app].
    split.
    { by rewrite Nat.add_0_r, Hchain, Hlen. }
    split.
    { rewrite length_app, Hlen. simpl. lia. }
    split.
    + apply (validSteps_app _ _ _ _ _ _ (ProofStep.mk S None None 1) eq_refl Hvalid).
      rewrite Hlast. simpl. split; [lia |]. split; [eauto 6 |]. split; [exact Hle | done].
    + by rewrite last_last.
Qed.

Lemma searchNode_valid (n : ProofNode.t) :
  searchNode rules maxLength S n →
  validProof rules maxLength S (ProofNode.expression n) (reconstructProof n) ∧
  Z.of_nat (length (reconstructProof n)) = ProofNode.depth n + 1.
Proof.
  intros Hn. destruct (searchNode_chain n Hn) as [Hd _].
  destruct (searchNode_steps n Hn) as (others & -> & Hlen & Hvalid & Hlast).
  split; [| simpl; lia]. simpl. auto 6.
Qed.

Lemma recorded_weaken (V V' : gset string) (n : ProofNode.t) :
  V ⊆ V' → recorded rules maxLength S V n → recorded rules maxLength S V' n.
Proof. intros Hsub (Hn & Hnd & Hin). repeat split; auto. Qed.

Lemma recorded_child (V V' : gset string) (c : ProofNode.t) (t : Transformation.t) :
  recorded rules maxLength S V c → V ⊆ V' →
  In t (getAllPossibleTransformations rules (ProofNode.expression c) maxLength) →
  getHash (Transformation.newExpression t) ∉ V →
  getHash (Transformation.newExpression t) ∈ V' →
  recorded rules maxLength S V'
    (ProofNode.mk (Transformation.newExpression t) (Some c)
       (Some (Transformation.rule t)) (Some (Transformation.appliedToSubexpression t))
       (ProofNode.depth c + 1)).
Proof.
  intros (Hc & Hnd & Hin) Hsub Ht Hfresh Hnew.
  destruct (getAllPossibleTransformations_rewriteAt _ _ _ _ Ht) as [Hrule Hat].
  pose proof (getAllPossibleTransformations_length _ _ _ _ Ht) as Hlen.
  split; [by constructor |].
  unfold chainHashes in *. cbn [nodeChain ProofNode.parent].
  rewrite map_app. cbn [map ProofNode.expression]. split.
  - apply NoDup_app. split; [exact Hnd |]. split; [| apply NoDup_singleton].
    intros h Hh Hh'. apply list_elem_of_singleton in Hh' as ->.
    apply Hfresh. by apply Hin.
  - intros h [Hh | Hh%list_elem_of_singleton]%elem_of_app; [| by subst h].
    apply Hsub. by apply Hin.
Qed.
End search_nodes.

Section found_node.
Context {H : Type}.
Variables (S T : BooleanExpression).
Variables (maxDepth maxStates maxLength : Z).
Variable rules : list TransformationRule.
Variable onProgress : option (ProgressCallback H).

Let loop := searchLoop (H := H) S T maxDepth maxStates maxLength rules onProgress.

(** A search that reports [found] returns the steps of a node of the
    search whose expression is the target. *)
Lemma searchLoop_found_node (fuel : nat) :
  ∀ (st : SearchState) (r : TransformationProof) (h : H),
    Forall (recorded rules maxLength S (visited st)) (queue st) →
    loop fuel st = Some (Ok r, h) → found r = true →
    ∃ n, searchNode rules maxLength S n ∧ NoDup (chainHashes n) ∧
         ProofNode.expression n = T ∧
         0 < ProofNode.depth n ≤ maxDepth ∧
         steps r = reconstructProof n ∧ searchDepth r = ProofNode.depth n.
Proof.
  induction fuel as [| fuel IH]; intros st r h Hq Hr Hfound; [discriminate |].
  unfold loop in *. simpl in Hr.
  destruct (queue st) as [| c rest]; [injection Hr as <- _; discriminate |].
  destruct (updateProgress _ _ _ _) as [[[] | message] host']; [| discriminate].
  destruct (Z.geb_spec (statesExplored st + 1) maxStates);
    [injection Hr as <- _; discriminate |].
  apply Forall_cons in Hq as [Hc Hrest].
  destruct (Z.geb_spec (ProofNode.depth c) maxDepth).
  - eapply IH; [| exact Hr | exact Hfound]. exact Hrest.
  - destruct (expandNode _ _ _ _ _) as [n | [V Q]] eqn:Hex.
    + injection Hr as <- _.
      apply expandNode_inl in Hex as (t & Ht & -> & Heq & Hfresh).
      destruct (recorded_child rules maxLength S (visited st)
                  (setAdd (getHash (Transformation.newExpression t)) (visited st))
                  c t Hc) as (Hn & Hnd & _); auto.
      { intros x Hx. apply elem_of_setAdd. by right. }
      { apply elem_of_setAdd. by left. }
      eexists. split; [exact Hn |]. split; [exact Hnd |].
      apply equals_true in Heq. simpl.
      destruct Hc as [Hc _]. destruct (searchNode_chain _ _ _ _ Hc) as [Hd _].
      repeat split; auto; lia.
    + apply expandNode_inr in Hex as (news & -> & Hsub & _ & _ & Hnews).
      eapply IH; [| exact Hr | exact Hfound]. simpl.
      apply Forall_app. split.
      * eapply Forall_impl; [exact Hrest |]. intros n. by apply recorded_weaken.
      * eapply Forall_impl; [exact Hnews |].
        intros n (t & Ht & -> & _ & Hfresh & Hnew).
        by apply (recorded_child rules maxLength S (visited st)).
Qed.
End found_node.

Lemma findTransformationProof_found_node {H : Type} (fuel : nat) (S T : BooleanExpression)
      (options : ProofSearchOptions H) (host : H) (r : TransformationProof) (h : H) :
  findTransformationProof fuel S T options host = Some (Ok r, h) → found r = true →
  ∃ n, searchNode (rulesOf options) (maxExpressionLengthOf options) S n ∧
       NoDup (chainHashes n) ∧ ProofNode.expression n = T ∧
       0 ≤ ProofNode.depth n ≤ Z.max 0 (maxDepthOf options) ∧
       steps r = reconstructProof n ∧ searchDepth r = ProofNode.depth n.
Proof.
  unfold findTransformationProof, searchFrom. intros Hr Hfound.
  destruct (equals S T) eqn:Heq.
  - injection Hr as <- _. apply equals_true in Heq as <-.
    exists (ProofNode.mk S None None None 0).
    split; [constructor |]. split; [apply NoDup_singleton |].
    repeat split; simpl; lia.
  - destruct (searchLoop_found_node S T (maxDepthOf options) (maxStatesOf options)
                (maxExpressionLengthOf options) (rulesOf options) (onProgress options)
                fuel (initialState S host) r h)
      as (n & Hn & Hnd & HT & Hd & Hsteps & Hdepth); [| exact Hr | exact Hfound |].
    + constructor; [| constructor]. simpl. split; [constructor |].
      split; [apply NoDup_singleton |].
      intros x ->%list_elem_of_singleton. by apply elem_of_singleton.
    + exists n. repeat split; auto; lia.
Qed.

Lemma returned_proof_valid_aux {H : Type} (fuel : nat) (S T : BooleanExpression)
      (options : ProofSearchOptions H) (host : H) (r : TransformationProof) (h : H) :
  findTransformationProof fuel S T options host = Some (Ok r, h) → found r = true →
  validProof (rulesOf options) (maxExpressionLengthOf options) S T (steps r) ∧
  searchDepth r = Z.of_nat (length (steps r)) - 1 ∧
  searchDepth r ≤ Z.max 0 (maxDepthOf options).
Proof.
  intros Hr Hfound.
  destruct (findTransformationProof_found_node fuel S T options host r h Hr Hfound)
    as (n & Hn & _ & HT & Hd & -> & ->).
  destruct (searchNode_valid _ _ _ n Hn) as [Hvalid Hlen].
  rewrite HT in Hvalid. split; [exact Hvalid |]. lia.
Qed.

(** The proof a search returns can be checked step by step: its first
    step is the start expression, without a rule and numbered 1; every
    later step names a rule of the rules in use and a subexpression of the
    step before that the rule accepts, and its expression is the step
    before with that subexpression rewritten by the rule, of size at most
    [maxExpressionLength]; the steps are numbered consecutively and the last
    one is the target.  [searchDepth] is the number of rule applications,
    at most [maxDepth], or [0] when [maxDepth] is negative and the start
    expression is the target. *)
Theorem returned_proof_is_valid {H : Type} (fuel : nat) (S T : BooleanExpression)
        (options : ProofSearchOptions H) (host : H) (r : TransformationProof) (h : H) :
  findTransformationProof fuel S T options host = Some (Ok r, h) → found r = true →
  validProof (rulesOf options) (maxExpressionLengthOf options) S T (steps r) ∧
  searchDepth r = Z.of_nat (length (steps r)) - 1 ∧
  searchDepth r ≤ Z.max 0 (maxDepthOf options).
Proof. apply returned_proof_valid_aux. Qed.

Lemma returned_proof_is_valid_witness :
  ∃ r, findTransformationProof 1
         (Negation (Conjunction (Var "a") (Var "b")))
         (Disjunction (Negation (Var "a")) (Negation (Var "b")))
         defaultOptions tt = Some (Ok r, tt) ∧
       validProof (rulesOf (H := unit) defaultOptions)
         (maxExpressionLengthOf (H := unit) defaultOptions)
         (Negation (Conjunction (Var "a") (Var "b")))
         (Disjunction (Negation (Var "a")) (Negation (Var "b"))) (steps r) ∧
       searchDepth r = Z.of_nat (length (steps r)) - 1 ∧
       searchDepth r ≤ Z.max 0 (maxDepthOf (H := unit) defaultOptions).
Proof.
  eexists. split; [vm_compute; reflexivity |].
  eapply (returned_proof_is_valid 1 (Negation (Conjunction (Var "a") (Var "b")))
            (Disjunction (Negation (Var "a")) (Negation (Var "b")))
            defaultOptions tt).
  - vm_compute. reflexivity.
  - reflexivity.
Defined.

Lemma reconstructProof_hashes (n : ProofNode.t) :
  map (fun step => getHash (ProofStep.expression step)) (reconstructProof n) =
  map (fun node => getHash (ProofNode.expression node)) (nodeChain n).
Proof.
  unfold reconstructProof. generalize (nodeChain n). intros l.
  enough (Hgen : ∀ f : nat → ProofNode.t → ProofStep.t,
            (∀ i node, ProofStep.expression (f i node) = ProofNode.expression node) →
            map (fun step => getHash (ProofStep.expression step)) (imap f l) =
            map (fun node => getHash (ProofNode.expression node)) l)
    by (by apply Hgen).
  induction l as [| node l IH]; intros f Hf; [reflexivity |].
  simpl. rewrite Hf. f_equal. apply IH. intros i node'. apply Hf.
Qed.

(** No expression occurs twice in a returned proof: the hashes of its steps
    are pairwise different. *)
Theorem returned_proof_has_no_repetition {H : Type} (fuel : nat)
        (S T : BooleanExpression) (options : ProofSearchOptions H) (host : H)
        (r : TransformationProof) (h : H) :
  findTransformationProof fuel S T options host = Some (Ok r, h) → found r = true →
  NoDup (map (fun step => getHash (ProofStep.expression step)) (steps r)).
Proof.
  intros Hr Hfound.
  destruct (findTransformationProof_found_node fuel S T options host r h Hr Hfound)
    as (n & _ & Hnd & _ & _ & -> & _).
  unfold chainHashes in Hnd. by rewrite reconstructProof_hashes.
Qed.

Lemma returned_proof_has_no_repetition_witness :
  ∃ r, findTransformationProof 1
         (Negation (Conjunction (Var "a") (Var "b")))
         (Disjunction (Negation (Var "a")) (Negation (Var "b")))
         defaultOptions tt = Some (Ok r, tt) ∧
       NoDup (map (fun step => getHash (ProofStep.expression step)) (steps r)).
Proof.
  eexists. split; [vm_compute; reflexivity |].
  eapply (returned_proof_has_no_repetition 1
            (Negation (Conjunction (Var "a") (Var "b")))
            (Disjunction (Negation (Var "a")) (Negation (Var "b")))
            defaultOptions tt).
  - vm_compute. reflexivity.
  - reflexivity.
Defined.

(** ** proofSystem.ts: what a found proof means *)

Lemma rewriteStep_sound (rules : list TransformationRule) (e e' : BooleanExpression) :
  (∀ r, In r rules → In r ALL_TRANSFORMATION_RULES) →
  rewriteStep rules e e' →
  getVariables e' ⊆ getVariables e ∧ ∀ σ, denote σ e = denote σ e'.
Proof.
  intros Hrules.
  induction 1 as [r e e' Hin Hcan Happ | e e' _ [IHv IHd] | op l l' r _ [IHv IHd]
                 | op l r r' _ [IHv IHd]].
  - split; [by eapply catalogue_no_new_variables_sub; eauto |].
    destruct (catalogue_sound_denote r e (Hrules r Hin) Hcan) as (e'' & Happ' & Hsound).
    rewrite Happ in Happ'. by injection Happ' as <-.
  - split; [exact IHv |]. intros σ. simpl. by rewrite IHd.
  - split; [simpl; by apply union_mono_r |].
    intros σ. destruct op; simpl; by rewrite IHd.
  - split; [simpl; by apply union_mono_l |].
    intros σ. destruct op; simpl; by rewrite IHd.
Qed.

Lemma rewriteSequence_sound (rules : list TransformationRule) (maxLength : Z)
      (k : nat) (e e' : BooleanExpression) :
  (∀ r, In r rules → In r ALL_TRANSFORMATION_RULES) →
  rewriteSequence rules maxLength k e e' →
  getVariables e' ⊆ getVariables e ∧ ∀ σ, denote σ e = denote σ e'.
Proof.
  intros Hrules. induction 1 as [e | k e1 e2 e3 _ [IHv IHd] Hstep _]; [done |].
  destruct (rewriteStep_sound rules e2 e3 Hrules Hstep) as [Hv Hd].
  split; [by transitivity (getVariables e2) |].
  intros σ. by rewrite IHd.
Qed.

Lemma found_proof_sound_aux {H : Type} (fuel : nat) (S T : BooleanExpression)
      (options : ProofSearchOptions H) (host : H) (r : TransformationProof) (h : H) :
  (∀ rule, In rule (rulesOf options) → In rule ALL_TRANSFORMATION_RULES) →
  findTransformationProof fuel S T options host = Some (Ok r, h) → found r = true →
  getVariables T ⊆ getVariables S ∧
  ∀ σ : Assignment, getVariables S ⊆ dom σ → evaluate S σ = evaluate T σ.
Proof.
  intros Hrules Hr Hfound.
  destruct (findTransformationProof_found_node fuel S T options host r h Hr Hfound)
    as (n & Hn & _ & HT & _).
  pose proof (searchNode_sequence _ _ _ n Hn) as Hseq. rewrite HT in Hseq.
  destruct (rewriteSequence_sound _ _ _ _ _ Hrules Hseq) as [Hv Hd].
  split; [exact Hv |]. intros σ Hdom.
  rewrite !evaluate_covered; [by rewrite Hd | by transitivity (getVariables S) | done].
Qed.

(** A search with rules of the catalogue is sound: when it reports
    [found], the target uses no variable the start expression does not use,
    and the two expressions evaluate to the same boolean under every
    assignment of the variables of the start expression. *)
Theorem found_proof_is_sound {H : Type} (fuel : nat) (S T : BooleanExpression)
        (options : ProofSearchOptions H) (host : H) (r : TransformationProof) (h : H) :
  (∀ rule, In rule (rulesOf options) → In rule ALL_TRANSFORMATION_RULES) →
  findTransformationProof fuel S T options host = Some (Ok r, h) → found r = true →
  getVariables T ⊆ getVariables S ∧
  ∀ σ : Assignment, getVariables S ⊆ dom σ → evaluate S σ = evaluate T σ.
Proof. apply found_proof_sound_aux. Qed.

Lemma found_proof_is_sound_witness :
  ∃ r, findTransformationProof 1
         (Negation (Conjunction (Var "a") (Var "b")))
         (Disjunction (Negation (Var "a")) (Negation (Var "b")))
         defaultOptions tt = Some (Ok r, tt) ∧
       getVariables (Disjunction (Negation (Var "a")) (Negation (Var "b"))) ⊆
         getVariables (Negation (Conjunction (Var "a") (Var "b"))) ∧
       ∀ σ : Assignment,
         getVariables (Negation (Conjunction (Var "a") (Var "b"))) ⊆ dom σ →
         evaluate (Negation (Conjunction (Var "a") (Var "b"))) σ =
         evaluate (Disjunction (Negation (Var "a")) (Negation (Var "b"))) σ.
Proof.
  eexists. split; [vm_compute; reflexivity |].
  eapply (found_proof_is_sound 1 (Negation (Conjunction (Var "a") (Var "b")))
            (Disjunction (Negation (Var "a")) (Negation (Var "b")))
            defaultOptions tt).
  - intros rule Hrule. exact Hrule.
  - vm_compute. reflexivity.
  - reflexivity.
Defined.

(** ** proofSystem.ts: the driver *)

Lemma getAllPossibleTransformations_rewriteAt_complete (rules : list TransformationRule)
      (rule : TransformationRule) (sub e e' : BooleanExpression) :
  In rule rules → rewriteAt rule sub e e' →
  ∀ maxLength : Z, getLength e' ≤ maxLength →
    In (Transformation.mk e' rule sub) (getAllPossibleTransformations rules e maxLength).
Proof.
  intros Hin.
  induction 1 as [e' Hcan Happ | e e' _ IH | op l l' r _ IH | op l r r' _ IH];
    intros maxLength Hlen;
    rewrite getAllPossibleTransformations_unfold, in_app_iff.
  - left. apply In_rootTransformations. exists rule. simpl. auto.
  - right. simpl. apply In_liftTransformations.
    exists (Transformation.mk e' rule sub). simpl. split; [| done].
    apply IH. simpl in Hlen. lia.
  - right. simpl. apply in_app_iff. left. apply In_liftTransformations.
    exists (Transformation.mk l' rule sub). simpl. split; [| done].
    apply IH. simpl in Hlen. lia.
  - right. simpl. apply in_app_iff. right. apply In_liftTransformations.
    exists (Transformation.mk r' rule sub). simpl. split; [| done].
    apply IH. simpl in Hlen. lia.
Qed.

(** What the driver returns for an expression [e]: exactly the triples of a
    new expression, a rule and a subexpression such that the rule is one of
    the rules in use, accepts the subexpression and returns for it, the new
    expression is [e] with that occurrence rewritten, and the new expression
    has size at most [maxLength].  A rule that throws is skipped; the
    budgets handed down to the subexpressions lose nothing. *)
Theorem getAllPossibleTransformations_exact (rules : list TransformationRule)
        (e : BooleanExpression) (maxLength : Z) (t : Transformation.t) :
  In t (getAllPossibleTransformations rules e maxLength) ↔
  In (Transformation.rule t) rules ∧
  rewriteAt (Transformation.rule t) (Transformation.appliedToSubexpression t) e
    (Transformation.newExpression t) ∧
  getLength (Transformation.newExpression t) ≤ maxLength.
Proof.
  split.
  - intros Ht. destruct (getAllPossibleTransformations_rewriteAt _ _ _ _ Ht).
    repeat split; auto. by eapply getAllPossibleTransformations_length.
  - intros (Hin & Hat & Hlen). destruct t as [e' rule sub].
    by apply getAllPossibleTransformations_rewriteAt_complete.
Qed.

(** ** proofSystem.ts: budgets *)

Section budget_monotone.
Context {H : Type}.
Variables (S T : BooleanExpression).
Variable maxLength : Z.
Variable rules : list TransformationRule.
Variable onProgress : option (ProgressCallback H).

Let loop (maxDepth maxStates : Z) :=
  searchLoop (H := H) S T maxDepth maxStates maxLength rules onProgress.

(** Once every node in the queue is at depth [maxDepth] or deeper, all are
    skipped and nothing is found. *)
Lemma deep_queue_not_found (maxDepth maxStates : Z) (fuel : nat) :
  ∀ (st : SearchState) (r : TransformationProof) (h : H),
    Forall (fun n => maxDepth ≤ ProofNode.depth n) (queue st) →
    loop maxDepth maxStates fuel st = Some (Ok r, h) → found r = false.
Proof.
  induction fuel as [| fuel IH]; intros st r h Hq Hr; [discriminate |].
  unfold loop in *. simpl in Hr.
  destruct (queue st) as [| c rest]; [by injection Hr as <- _ |].
  destruct (updateProgress _ _ _ _) as [[[] | message] host']; [| discriminate].
  destruct (Z.geb_spec (statesExplored st + 1) maxStates); [by injection Hr as <- _ |].
  apply Forall_cons in Hq as [Hc Hrest].
  destruct (Z.geb_spec (ProofNode.depth c) maxDepth); [| lia].
  eapply IH; [| exact Hr]. exact Hrest.
Qed.

(** The queue stays ordered by depth: new nodes are one deeper than the
    node taken from the front. *)
Lemma expandNode_sorted (c : ProofNode.t) (rest : list ProofNode.t)
      (ts : list Transformation.t) (V V' : gset string) (Q' : list ProofNode.t) :
  StronglySorted depthOrder (c :: rest) →
  expandNode T c ts V rest = inr (V', Q') →
  StronglySorted depthOrder Q'.
Proof.
  intros Hsorted Hex.
  apply StronglySorted_cons in Hsorted as [Hc Hsorted].
  apply expandNode_inr in Hex as (news & -> & _ & _ & _ & Hnews).
  rewrite Forall_forall in Hc, Hnews.
  apply StronglySorted_app_2; [| exact Hsorted |].
  - intros x1 x2 Hx1 Hx2.
    destruct (Hnews x2 Hx2) as (t & _ & -> & _).
    specialize (Hc x1 Hx1). unfold depthOrder in *. simpl. lia.
  - clear - Hnews. induction news as [| n news IH]; [constructor |].
    constructor.
    + apply IH. intros m Hm. apply Hnews. by right.
    + apply Forall_forall. intros m Hm.
      destruct (Hnews n ltac:(by left)) as (t & _ & -> & _).
      destruct (Hnews m ltac:(by right)) as (t' & _ & -> & _).
      unfold depthOrder. simpl. lia.
Qed.

Lemma searchLoop_budget_monotone (maxDepth maxStates maxDepth' maxStates' : Z)
      (fuel : nat) :
  maxDepth ≤ maxDepth' → maxStates ≤ maxStates' →
  ∀ (st : SearchState) (r : TransformationProof) (h : H),
    StronglySorted depthOrder (queue st) →
    loop maxDepth maxStates fuel st = Some (Ok r, h) → found r = true →
    loop maxDepth' maxStates' fuel st = Some (Ok r, h).
Proof.
  intros Hdepth Hstates.
  induction fuel as [| fuel IH]; intros st r h Hsorted Hr Hfound; [discriminate |].
  unfold loop in *. simpl in *.
  destruct (queue st) as [| c rest] eqn:Hq; [injection Hr as <- _; discriminate |].
  destruct (updateProgress _ _ _ _) as [[[] | message] host']; [| discriminate].
  destruct (Z.geb_spec (statesExplored st + 1) maxStates);
    [injection Hr as <- _; discriminate |].
  destruct (Z.geb_spec (statesExplored st + 1) maxStates'); [lia |].
  destruct (Z.geb_spec (ProofNode.depth c) maxDepth) as [Hdeep | Hshallow].
  - (* skipped under the small budget: nothing is found from here on *)
    exfalso.
    assert (Hnone : found r = false); [| congruence].
    apply (deep_queue_not_found maxDepth maxStates fuel _ r h) in Hr; [done |].
    simpl. apply StronglySorted_cons in Hsorted as [Hc _].
    eapply Forall_impl; [exact Hc |]. intros n Hn. unfold depthOrder in Hn. lia.
  - destruct (Z.geb_spec (ProofNode.depth c) maxDepth'); [lia |].
    destruct (expandNode _ _ _ _ _) as [n | [V Q]] eqn:Hex; [exact Hr |].
    apply IH; [| exact Hr | exact Hfound]. simpl.
    by eapply expandNode_sorted.
Qed.
End budget_monotone.

Lemma findTransformationProof_budget_monotone {H : Type} (fuel : nat)
        (S T : BooleanExpression) (options options' : ProofSearchOptions H) (host : H)
        (r : TransformationProof) (h : H) :
  maxExpressionLengthOf options' = maxExpressionLengthOf options →
  rulesOf options' = rulesOf options →
  onProgress options' = onProgress options →
  maxDepthOf options ≤ maxDepthOf options' →
  maxStatesOf options ≤ maxStatesOf options' →
  findTransformationProof fuel S T options host = Some (Ok r, h) → found r = true →
  findTransformationProof fuel S T options' host = Some (Ok r, h).
Proof.
  unfold findTransformationProof, searchFrom.
  intros -> -> -> Hdepth Hstates Hr Hfound.
  destruct (equals S T); [exact Hr |].
  apply (searchLoop_budget_monotone S T _ _ _ (maxDepthOf options) (maxStatesOf options));
    auto.
  simpl. repeat constructor.
Qed.

(** Larger budgets find the same proof: when a search reports [found], the
    search with a larger [maxDepth] and a larger [maxStates], and otherwise
    the same options, returns the same result. *)
Theorem larger_budgets_find_same_proof {H : Type} (fuel : nat)
        (S T : BooleanExpression) (options options' : ProofSearchOptions H) (host : H)
        (r : TransformationProof) (h : H) :
  maxExpressionLengthOf options' = maxExpressionLengthOf options →
  rulesOf options' = rulesOf options →
  onProgress options' = onProgress options →
  maxDepthOf options ≤ maxDepthOf options' →
  maxStatesOf options ≤ maxStatesOf options' →
  findTransformationProof fuel S T options host = Some (Ok r, h) → found r = true →
  findTransformationProof fuel S T options' host = Some (Ok r, h).
Proof. apply findTransformationProof_budget_monotone. Qed.

Lemma larger_budgets_find_same_proof_witness :
  ∃ r, findTransformationProof 1
         (Negation (Conjunction (Var "a") (Var "b")))
         (Disjunction (Negation (Var "a")) (Negation (Var "b")))
         (mkOptions (Some 2) (Some 5) None None None) tt = Some (Ok r, tt) ∧
       findTransformationProof 1
         (Negation (Conjunction (Var "a") (Var "b")))
         (Disjunction (Negation (Var "a")) (Negation (Var "b")))
         defaultOptions tt = Some (Ok r, tt).
Proof.
  eexists. split; [vm_compute; reflexivity |].
  eapply (larger_budgets_find_same_proof 1
            (Negation (Conjunction (Var "a") (Var "b")))
            (Disjunction (Negation (Var "a")) (Negation (Var "b")))
            (mkOptions (Some 2) (Some 5) None None None) defaultOptions tt).
  - reflexivity.
  - reflexivity.
  - reflexivity.
  - vm_compute. discriminate.
  - vm_compute. discriminate.
  - vm_compute. reflexivity.
  - reflexivity.
Defined.

(** ** proofSystem.ts: the quick check *)

(** [isTransformationPossible] is over after at most 1000 nodes, whatever
    budgets it is given, and returns an answer whenever the progress
    callback does not throw; and when it answers [true] for options whose
    [maxDepth] and [maxStates] are absent or not [0], the search with these
    options finds a proof.  (A [maxDepth] or [maxStates] of [0] is replaced
    by 10 or 1000 in the quick check, which then searches further than the
    search proper.) *)
Theorem isTransformationPossible_spec {H : Type} (S T : BooleanExpression)
        (options : ProofSearchOptions H) (host : H) :
  ∃ answer,
    (∀ fuel, (1000 ≤ fuel)%nat →
             isTransformationPossible fuel S T options host = Some answer) ∧
    (neverThrows options → ∃ b, answer.1 = Ok b) ∧
    (maxDepth options ≠ Some 0 → maxStates options ≠ Some 0 →
     answer.1 = Ok true →
     ∃ r, (∀ fuel, (1000 ≤ fuel)%nat →
                   findTransformationProof fuel S T options host =
                     Some (Ok r, answer.2)) ∧
          found r = true).
Proof.
  destruct (findTransformationProof_terminates S T (quickCheckOptions options) host)
    as ([outcome h] & Hr & _ & Hreturns).
  assert (Hbound : (iterationBound (quickCheckOptions options) ≤ 1000)%nat).
  { unfold iterationBound, maxStatesOf, quickCheckOptions. simpl. lia. }
  exists (match outcome with Ok r => Ok (found r) | Error message => Error message end, h).
  split; [| split].
  - intros fuel Hfuel. unfold isTransformationPossible.
    rewrite Hr by lia. by destruct outcome.
  - intros Hnever. destruct Hreturns as [r Hok]; [exact Hnever |].
    simpl in Hok. subst outcome. by exists (found r).
  - simpl. intros Hdepth Hstates Hanswer.
    destruct outcome as [r | message]; [| discriminate].
    injection Hanswer as Hfound. exists r. split; [| exact Hfound].
    intros fuel Hfuel.
    apply (findTransformationProof_budget_monotone fuel S T (quickCheckOptions options)
             options);
      try reflexivity; try exact Hfound; [| | apply Hr; lia].
    + unfold maxDepthOf, quickCheckOptions. simpl.
      destruct (maxDepth options) as [[| d | d] |]; simpl; try lia. congruence.
    + unfold maxStatesOf, quickCheckOptions. simpl.
      destruct (maxStates options) as [[| m | m] |]; simpl; try lia. congruence.
Qed.

(** With [maxDepth = 0] the quick check answers [true] where the search
    with the same options finds nothing. *)
Example isTransformationPossible_zero_depth :
  isTransformationPossible 1000
    (Negation (Conjunction (Var "a") (Var "b")))
    (Disjunction (Negation (Var "a")) (Negation (Var "b")))
    (mkOptions (Some 0) None None None None) tt = Some (Ok true, tt) ∧
  ∃ r, findTransformationProof 1000
         (Negation (Conjunction (Var "a") (Var "b")))
         (Disjunction (Negation (Var "a")) (Negation (Var "b")))
         (mkOptions (Some 0) None None None None) tt = Some (Ok r, tt) ∧
       found r = false.
Proof.
  split; [vm_compute; reflexivity |].
  eexists. split; [vm_compute; reflexivity | reflexivity].
Qed.

(** ** proofSystem.ts: a search that finds nothing *)

Section exhausted.
Context {H : Type}.
Variables (S T : BooleanExpression).
Variables (maxDepth maxStates maxLength : Z).
Variable rules : list TransformationRule.
Variable onProgress : option (ProgressCallback H).
Hypothesis S_named : wellNamed S = true.
Hypothesis rules_named : preservesNames rules.

Let loop := searchLoop (H := H) S T maxDepth maxStates maxLength rules onProgress.

(** The state of the search: the breadth-first invariant, until a node at
    depth [maxDepth] is skipped; from then on every expression within
    [maxDepth] rule applications has been visited and only nodes to be
    skipped remain. *)
Let drained (q : list ProofNode.t) (V : gset string) : Prop :=
  (∀ k e, rewriteSequence rules maxLength k S e → Z.of_nat k ≤ maxDepth →
          getHash e ∈ V) ∧
  (∀ e, wellNamed e = true → getHash e ∈ V → equals e T = false) ∧
  Forall (fun n => maxDepth ≤ ProofNode.depth n) q.

Lemma searchLoop_exhausted (fuel : nat) :
  ∀ (st : SearchState) (r : TransformationProof) (h : H),
    searchInvariant rules maxLength S T (queue st) (visited st) ∨
    drained (queue st) (visited st) →
    loop fuel st = Some (Ok r, h) → found r = false →
    totalStatesExplored r < maxStates →
    ∀ k, Z.of_nat k ≤ maxDepth → ¬ rewriteSequence rules maxLength k S T.
Proof.
  induction fuel as [| fuel IH]; intros st r h Hst Hr Hfound Hstates; [discriminate |].
  unfold loop in *. simpl in Hr.
  destruct (queue st) as [| c rest] eqn:Hq.
  { (* the queue is empty *)
    intros k Hk Hseq.
    assert (HT : wellNamed T = true) by (by eapply rewriteSequence_wellNamed).
    assert (Hvisited : getHash T ∈ visited st ∧
                       ∀ e, wellNamed e = true → getHash e ∈ visited st →
                            equals e T = false).
    { destruct Hst as [HI | (Hall & Hno & _)].
      - split; [| apply (inv_no_target _ _ _ _ _ _ HI)].
        destruct (frontier S T maxLength rules S_named rules_named _ _ HI k T Hseq)
          as [Hv | (n & [] & _)]. exact Hv.
      - split; [by eapply Hall | exact Hno]. }
    destruct Hvisited as [Hv Hno]. specialize (Hno T HT Hv).
    by rewrite equals_refl in Hno. }
  destruct (updateProgress _ _ _ _) as [[[] | message] host']; [| discriminate].
  destruct (Z.geb_spec (statesExplored st + 1) maxStates).
  { injection Hr as <- _. simpl in Hstates. lia. }
  destruct (Z.geb_spec (ProofNode.depth c) maxDepth) as [Hdeep | Hshallow].
  - (* the node is skipped *)
    eapply IH; [| exact Hr | exact Hfound | exact Hstates]. simpl. right.
    destruct Hst as [HI | (Hall & Hno & Hdeepq)].
    + assert (Hrest : Forall (fun n => maxDepth ≤ ProofNode.depth n) rest).
      { apply Forall_forall. intros n Hn%list_elem_of_In.
        pose proof (rest_depths S T maxLength rules c rest (visited st) HI n Hn). lia. }
      split; [| split; [apply (inv_no_target _ _ _ _ _ _ HI) | exact Hrest]].
      intros k e Hseq Hk.
      destruct (frontier S T maxLength rules S_named rules_named _ _ HI k e Hseq)
        as [Hv | (n & Hn & Hd)]; [exact Hv |].
      exfalso. destruct Hn as [<- | Hn]; [lia |].
      rewrite Forall_forall in Hrest.
      specialize (Hrest n ltac:(by apply list_elem_of_In)). lia.
    + split; [exact Hall |]. split; [exact Hno |].
      by apply Forall_cons in Hdeepq as [_ Hdeepq].
  - destruct Hst as [HI | (_ & _ & Hdeepq)];
      [| apply Forall_cons in Hdeepq as [Hc _]; lia].
    destruct (expandNode _ _ _ _ _) as [n | [V Q]] eqn:Hex.
    + injection Hr as <- _. discriminate Hfound.
    + eapply IH; [| exact Hr | exact Hfound | exact Hstates]. simpl. left.
      by apply (expand_invariant S T maxLength rules S_named rules_named c rest
                  (visited st) HI).
Qed.
End exhausted.

(** A search that ends without a proof and without using up [maxStates]
    has tried everything within its depth: when the variable names of the
    start expression are identifiers, the rules keep them so, the result has
    [found = false] and [totalStatesExplored] below [maxStates], no sequence
    of at most [maxDepth] rule applications, each producing an expression of
    size at most [maxExpressionLength], leads from the start expression to
    the target. *)
Theorem exhausted_search_is_complete {H : Type} (fuel : nat) (S T : BooleanExpression)
        (options : ProofSearchOptions H) (host : H) (r : TransformationProof) (h : H) :
  wellNamed S = true →
  preservesNames (rulesOf options) →
  findTransformationProof fuel S T options host = Some (Ok r, h) →
  found r = false →
  totalStatesExplored r < maxStatesOf options →
  ∀ k, Z.of_nat k ≤ maxDepthOf options →
       ¬ rewriteSequence (rulesOf options) (maxExpressionLengthOf options) k S T.
Proof.
  unfold findTransformationProof, searchFrom. intros Hnamed Hrules Hr Hfound Hstates.
  destruct (equals S T) eqn:Heq; [injection Hr as <- _; discriminate |].
  apply (searchLoop_exhausted S T (maxDepthOf options) (maxStatesOf options)
           (maxExpressionLengthOf options) (rulesOf options) (onProgress options)
           Hnamed Hrules fuel (initialState S host) r h); auto.
  left. simpl.
  replace ({[ getHash S ]} : gset string) with (setAdd (getHash S) ∅).
  - by apply initial_invariant.
  - rewrite setAdd_union. apply set_eq. intros x.
    rewrite elem_of_union, elem_of_singleton.
    split; [intros [-> | []%not_elem_of_empty]; reflexivity | by left].
Qed.

Lemma exhausted_search_is_complete_witness :
  ∃ r, findTransformationProof 10 (Conjunction (Var "a") (Var "b")) (Var "a")
         (mkOptions None None None (Some [CommutativityAND]) None) tt = Some (Ok r, tt) ∧
       found r = false ∧ totalStatesExplored r = 2 ∧
       ∀ k, Z.of_nat k ≤ 15 →
            ¬ rewriteSequence [CommutativityAND] 15 k
                (Conjunction (Var "a") (Var "b")) (Var "a").
Proof.
  eexists. split; [vm_compute; reflexivity |].
  split; [reflexivity |]. split; [reflexivity |].
  eapply (exhausted_search_is_complete 10 (Conjunction (Var "a") (Var "b")) (Var "a")
            (mkOptions None None None (Some [CommutativityAND]) None) tt).
  - reflexivity.
  - apply (preservesNames_sublist ALL_TRANSFORMATION_RULES);
      [| apply catalogue_preservesNames].
    intros rule [<- | []]. unfold ALL_TRANSFORMATION_RULES. simpl. tauto.
  - vm_compute. reflexivity.
  - reflexivity.
  - vm_compute. reflexivity.
Defined.

(** ** store/appStore.ts *)

(** What the progress callback keeps of the host, the search keeps,
    however it ends. *)
Lemma searchLoop_host_preserved {H : Type} (P : H → Prop) (S T : BooleanExpression)
      (maxDepth maxStates maxLength : Z) (rules : list TransformationRule)
      (callback : ProgressCallback H) (fuel : nat) :
  (∀ count depth h, P h → P (callback count depth h).2) →
  ∀ (st : SearchState) (outcome : Result TransformationProof) (h : H),
    P (host st) →
    searchLoop S T maxDepth maxStates maxLength rules (Some callback) fuel st =
      Some (outcome, h) →
    P h.
Proof.
  intros Hcb. induction fuel as [| fuel IH]; intros st outcome h Hhost Hr;
    [discriminate |].
  simpl in Hr.
  destruct (queue st) as [| current rest]; [by injection Hr as _ <- |].
  assert (Hnext : P (updateProgress (Some callback) (statesExplored st + 1)
                       (ProofNode.depth current) (host st)).2).
  { unfold updateProgress.
    destruct ((statesExplored st + 1) mod 100 =? 0); [by apply Hcb | exact Hhost]. }
  change (if (statesExplored st + 1) mod 100 =? 0
          then callback (statesExplored st + 1) (ProofNode.depth current) (host st)
          else (Ok tt, host st))
    with (updateProgress (Some callback) (statesExplored st + 1)
            (ProofNode.depth current) (host st)) in Hr.
  destruct (updateProgress _ _ _ _) as [[[] | message] host'];
    [| by injection Hr as _ <-].
  simpl in Hnext.
  destruct (Z.geb_spec (statesExplored st + 1) maxStates); [by injection Hr as _ <- |].
  destruct (Z.geb_spec (ProofNode.depth current) maxDepth).
  - eapply IH; [| exact Hr]. exact Hnext.
  - destruct (expandNode _ _ _ _ _) as [n | [V Q]]; [by injection Hr as _ <- |].
    eapply IH; [| exact Hr]. exact Hnext.
Qed.

Lemma findTransformationProof_host_preserved {H : Type} (P : H → Prop)
      (S T : BooleanExpression) (options : ProofSearchOptions H)
      (callback : ProgressCallback H) (fuel : nat) (host : H)
      (outcome : Result TransformationProof) (h : H) :
  onProgress options = Some callback →
  (∀ count depth h, P h → P (callback count depth h).2) →
  P host →
  findTransformationProof fuel S T options host = Some (outcome, h) → P h.
Proof.
  unfold findTransformationProof, searchFrom. intros -> Hcb Hhost Hr.
  destruct (equals S T); [by injection Hr as _ <- |].
  eapply (searchLoop_host_preserved P); [exact Hcb | | exact Hr]. exact Hhost.
Qed.

Lemma history_filter_NoDup (expr : string) (history : list string) :
  NoDup history →
  NoDup (expr :: List.filter (fun h => negb (String.eqb h expr)) history).
Proof.
  intros Hnd. apply NoDup_cons. split.
  - intros Hin%list_elem_of_In%List.filter_In. destruct Hin as [_ Hne].
    by rewrite String.eqb_refl in Hne.
  - by apply NoDup_ListNoDup, List.NoDup_filter, NoDup_ListNoDup.
Qed.

(** Every action of the store that does not parse text keeps the
    invariant of the store, which holds initially: the history never holds
    more than 20 entries or an entry twice, and the depth of the proof
    search stays between 1 and 30, whatever integer [setMaxProofDepth] is
    given: it stores the integer brought into that range.  (Depths are
    integers here; [NaN] is not among them.) *)
Theorem store_invariant :
  storeInvariant AppStore.initialState ∧
  (∀ (a : AppStore.Action) (s : AppStore.ExpressionState),
      storeInvariant s → storeInvariant (AppStore.run a s)) ∧
  (∀ (depth : Z) (s : AppStore.ExpressionState),
      AppStore.maxProofDepth (AppStore.setMaxProofDepth depth s) =
        if depth <? 1 then 1 else if 30 <? depth then 30 else depth) ∧
  (∀ (fuel : nat) (s s' : AppStore.ExpressionState),
      storeInvariant s → AppStore.searchForProof fuel s = Some s' → storeInvariant s').
Proof.
  split; [| split; [| split]].
  - unfold storeInvariant. simpl. split; [constructor | split; lia].
  - intros a s (Hnd & Hlen & Hdepth).
    destruct a; unfold storeInvariant; simpl; auto;
      try (split; [constructor | split; simpl; lia]); try (repeat split; auto; lia).
    + unfold AppStore.generateTruthTableForCurrent.
      destruct (AppStore.currentExpression s) as [e |]; [| done].
      by destruct (generateTruthTable e).
    + split; [| split; [| exact Hdepth]].
      * eapply sublist_NoDup; [by apply (history_filter_NoDup expr) |].
        apply sublist_skip, sublist_take.
      * rewrite length_take. lia.
  - intros depth s. simpl.
    destruct (Z.ltb_spec depth 1); [lia |].
    destruct (Z.ltb_spec 30 depth); lia.
  - intros fuel s s' Hinv Hsearch. unfold AppStore.searchForProof in Hsearch.
    destruct (AppStore.currentExpression s) as [current |];
      [| by injection Hsearch as <-].
    destruct (AppStore.targetExpression s) as [target |];
      [| by injection Hsearch as <-].
    destruct (findTransformationProof _ _ _ _ _) as [[outcome h] |] eqn:Hfind;
      [| discriminate].
    apply (findTransformationProof_host_preserved storeInvariant _ _ _
             (returning AppStore.reportProgress)) in Hfind;
      [| reflexivity | by intros count depth h' | exact Hinv].
    destruct outcome as [proof | message]; by injection Hsearch as <-.
Qed.

(** [addToHistory] puts the expression in front, once.  The old entries
    that differ from it follow in their old order, the 19 first of them:
    what is beyond is dropped, so that 20 entries remain at most; when the
    old history has fewer than 20 entries nothing is dropped. *)
Theorem addToHistory_most_recent_first (expr : string) (s : AppStore.ExpressionState) :
  ∃ older dropped,
    AppStore.expressionHistory (AppStore.addToHistory expr s) = expr :: older ∧
    filter (λ h, h ≠ expr) (AppStore.expressionHistory s) = older ++ dropped ∧
    length older = (19 `min` length (older ++ dropped))%nat ∧
    (expr ∉ older) ∧
    (older `sublist_of` AppStore.expressionHistory s) ∧
    ((length (AppStore.expressionHistory s) < 20)%nat → dropped = []).
Proof.
  set (others := List.filter (fun h => negb (String.eqb h expr))
                   (AppStore.expressionHistory s)).
  assert (Hfilter : filter (λ h, h ≠ expr) (AppStore.expressionHistory s) = others).
  { unfold others. induction (AppStore.expressionHistory s) as [| h l IH];
      [reflexivity |].
    rewrite filter_cons. simpl. destruct (String.eqb_spec h expr) as [-> | Hne].
    - by rewrite decide_False by (intros Hne; by apply Hne).
    - rewrite decide_True by done. simpl. by rewrite IH. }
  assert (Hothers : ∀ h, h ∈ others ↔ h ∈ AppStore.expressionHistory s ∧ h ≠ expr).
  { intros h. unfold others. rewrite !list_elem_of_In, List.filter_In, negb_true_iff.
    by rewrite String.eqb_neq. }
  assert (Hlength : (length others ≤ length (AppStore.expressionHistory s))%nat)
    by apply List.filter_length_le.
  exists (take 19 others), (drop 19 others).
  split; [reflexivity |]. split; [by rewrite take_drop |].
  split; [| split; [| split]].
  - rewrite take_drop, length_take. lia.
  - intros Hin%(subseteq_take 19 others). by apply Hothers in Hin as [_ Hne].
  - transitivity others; [apply sublist_take |].
    unfold others. clear. induction (AppStore.expressionHistory s) as [| h l IH];
      simpl; [constructor |].
    destruct (negb (String.eqb h expr)); by constructor.
  - intros Hlen. apply drop_ge. lia.
Qed.

Lemma activeRules_elem (selected : gset string) (rule : TransformationRule) :
  In rule (AppStore.activeRules selected) ↔
  In rule ALL_TRANSFORMATION_RULES ∧ name rule ∈ selected.
Proof.
  unfold AppStore.activeRules. rewrite List.filter_In.
  by rewrite bool_decide_eq_true.
Qed.

(** [toggleRule] flips the selection of one rule and leaves the others as
    they are; toggled twice, a rule is back where it was.  With all rules
    selected every rule of the catalogue is handed to the search, with none
    selected none. *)
Theorem toggleRule_flips (ruleName : string) (s : AppStore.ExpressionState) :
  (ruleName ∈ AppStore.selectedRules (AppStore.toggleRule ruleName s) ↔
   ruleName ∉ AppStore.selectedRules s) ∧
  (∀ other, other ≠ ruleName →
     (other ∈ AppStore.selectedRules (AppStore.toggleRule ruleName s) ↔
      other ∈ AppStore.selectedRules s)) ∧
  AppStore.selectedRules (AppStore.toggleRule ruleName (AppStore.toggleRule ruleName s)) =
    AppStore.selectedRules s ∧
  AppStore.activeRules (AppStore.selectedRules (AppStore.selectAllRules s)) =
    ALL_TRANSFORMATION_RULES ∧
  AppStore.activeRules (AppStore.selectedRules (AppStore.deselectAllRules s)) = [].
Proof.
  assert (Hmem : ∀ (V : gset string) (x : string),
            x ∈ (if decide (ruleName ∈ V) then V ∖ {[ ruleName ]} else setAdd ruleName V) ↔
            (x = ruleName ∧ ruleName ∉ V) ∨ (x ≠ ruleName ∧ x ∈ V)).
  { intros V x. destruct (decide (ruleName ∈ V)) as [Hin | Hout].
    - rewrite elem_of_difference, elem_of_singleton. split.
      + intros [Hx Hne]. by right.
      + intros [[_ Hout] | [Hne Hx]]; [done | by split].
    - rewrite elem_of_setAdd. split.
      + intros [-> | Hx]; [by left |]. right. split; [| done]. by intros ->.
      + intros [[-> _] | [_ Hx]]; [by left | by right]. }
  assert (Hsame : ∀ V : gset string,
            ruleName ∈ (if decide (ruleName ∈ V) then V ∖ {[ ruleName ]}
                        else setAdd ruleName V) ↔ ruleName ∉ V).
  { intros V. rewrite Hmem. split; [| by left]. by intros [[_ Hout] | [Hne _]]. }
  assert (Hother : ∀ (V : gset string) (other : string), other ≠ ruleName →
            (other ∈ (if decide (ruleName ∈ V) then V ∖ {[ ruleName ]}
                      else setAdd ruleName V) ↔ other ∈ V)).
  { intros V other Hne. rewrite Hmem. split; [| by right].
    by intros [[-> _] | [_ Hx]]. }
  split; [| split; [| split; [| split]]]; simpl.
  - apply Hsame.
  - apply Hother.
  - apply set_eq. intros x.
    destruct (decide (x = ruleName)) as [-> | Hne].
    + rewrite Hsame, Hsame.
      destruct (decide (ruleName ∈ AppStore.selectedRules s)); tauto.
    + by rewrite !Hother.
  - vm_compute. reflexivity.
  - reflexivity.
Qed.

Lemma validSteps_rules (rules : list TransformationRule) (maxLength : Z)
      (steps : list ProofStep.t) :
  ∀ (previous : BooleanExpression) (number : Z),
    validSteps rules maxLength previous number steps →
    Forall (fun step => ∀ rule, ProofStep.rule step = Some rule → In rule rules) steps.
Proof.
  induction steps as [| step steps IH]; intros previous number Hvalid; [constructor |].
  destruct Hvalid as (_ & (rule & sub & Hrule & _ & Hin & _) & _ & Hrest).
  constructor; [| by eapply IH].
  intros rule' Hrule'. rewrite Hrule in Hrule'. by injection Hrule' as <-.
Qed.

(** [searchForProof] with both expressions set: the search returns, and
    the state afterwards is the state before with the proof stored, the
    search flag off and the progress cleared, whatever progress was reported
    in between.  When the stored proof has [found = true], it is a valid
    proof from the current expression to the target, whose steps only use
    rules selected in the store, with at most [maxProofDepth] rule
    applications; and the two expressions evaluate alike under every
    assignment of the variables of the current expression. *)
Theorem searchForProof_result (s : AppStore.ExpressionState) (S T : BooleanExpression) :
  AppStore.currentExpression s = Some S →
  AppStore.targetExpression s = Some T →
  ∃ proof,
    (∀ fuel, (Z.to_nat 10000 ≤ fuel)%nat →
       AppStore.searchForProof fuel s =
         Some (AppStore.setProof (Some proof) false None s)) ∧
    (found proof = true →
     validProof (AppStore.activeRules (AppStore.selectedRules s)) 15 S T (steps proof) ∧
     searchDepth proof ≤ Z.max 0 (AppStore.maxProofDepth s) ∧
     Forall (fun step => ∀ rule, ProofStep.rule step = Some rule →
                                 name rule ∈ AppStore.selectedRules s) (steps proof) ∧
     ∀ σ : Assignment, getVariables S ⊆ dom σ → evaluate S σ = evaluate T σ).
Proof.
  intros Hcurrent Htarget.
  set (options := mkOptions (Some (AppStore.maxProofDepth s)) None None
                    (Some (AppStore.activeRules (AppStore.selectedRules s)))
                    (Some (returning AppStore.reportProgress))).
  destruct (findTransformationProof_terminates S T options
              (AppStore.setProof None true None s)) as ([outcome h] & Hr & _ & Hreturns).
  destruct Hreturns as [proof Hok].
  { intros callback [= <-] count depth h'. by eexists. }
  simpl in Hok. subst outcome.
  assert (Hbound : iterationBound options = Z.to_nat 10000) by reflexivity.
  pose proof (Hr (Z.to_nat 10000) ltac:(lia)) as Hrun.
  assert (Hhost : ∃ progress, h = AppStore.setProof None true progress s).
  { apply (findTransformationProof_host_preserved
             (fun h => ∃ progress, h = AppStore.setProof None true progress s)
             S T options (returning AppStore.reportProgress) (Z.to_nat 10000)
             (AppStore.setProof None true None s) (Ok proof) h eq_refl);
      [| by exists None | exact Hrun].
    intros count depth h' [progress ->]. by eexists. }
  destruct Hhost as [progress ->].
  exists proof. split.
  - intros fuel Hfuel. unfold AppStore.searchForProof.
    rewrite Hcurrent, Htarget. fold options. rewrite Hr by lia. reflexivity.
  - intros Hfound.
    assert (Hrules : rulesOf options = AppStore.activeRules (AppStore.selectedRules s))
      by reflexivity.
    assert (Hlength : maxExpressionLengthOf options = 15) by reflexivity.
    assert (Hmax : maxDepthOf options = AppStore.maxProofDepth s) by reflexivity.
    destruct (returned_proof_valid_aux _ S T options _ proof _ Hrun Hfound)
      as (Hvalid & _ & Hdepth).
    assert (Hcatalogue : ∀ rule, In rule (rulesOf options) →
                                 In rule ALL_TRANSFORMATION_RULES).
    { rewrite Hrules. intros rule Hrule. by apply activeRules_elem in Hrule as [Hin _]. }
    destruct (found_proof_sound_aux _ S T options _ proof _ Hcatalogue Hrun Hfound)
      as [_ Hsound].
    rewrite Hrules, Hlength in Hvalid. rewrite Hmax in Hdepth.
    clearbody options. clear Hrun Hr.
    split; [exact Hvalid |]. split; [exact Hdepth |]. split; [| exact Hsound].
    destruct (steps proof) as [| first others]; [done |].
    destruct Hvalid as (_ & Hnone & _ & _ & Hothers & _).
    constructor; [intros rule Hrule; congruence |].
    eapply Forall_impl; [by eapply validSteps_rules |].
    intros step Hstep rule Hrule. specialize (Hstep rule Hrule).
    apply activeRules_elem in Hstep as [_ Hselected]. exact Hselected.
Qed.

Lemma searchForProof_result_witness :
  ∃ proof,
    (∀ fuel, (Z.to_nat 10000 ≤ fuel)%nat →
       AppStore.searchForProof fuel
         (AppStore.mkState (Some (Negation (Negation (Var "a")))) "!!a" None
            None "" None (Some (Var "a")) "a" None None false None false None
            AppStore.allRuleNames 15 true [] true true) =
       Some (AppStore.setProof (Some proof) false None
               (AppStore.mkState (Some (Negation (Negation (Var "a")))) "!!a" None
                  None "" None (Some (Var "a")) "a" None None false None false None
                  AppStore.allRuleNames 15 true [] true true))) ∧
    (found proof = true →
     validProof (AppStore.activeRules AppStore.allRuleNames) 15
       (Negation (Negation (Var "a"))) (Var "a") (steps proof) ∧
     searchDepth proof ≤ Z.max 0 15 ∧
     Forall (fun step => ∀ rule, ProofStep.rule step = Some rule →
                                 name rule ∈ AppStore.allRuleNames) (steps proof) ∧
     ∀ σ : Assignment, getVariables (Negation (Negation (Var "a"))) ⊆ dom σ →
       evaluate (Negation (Negation (Var "a"))) σ = evaluate (Var "a") σ).
Proof.
  apply (searchForProof_result
           (AppStore.mkState (Some (Negation (Negation (Var "a")))) "!!a" None
              None "" None (Some (Var "a")) "a" None None false None false None
              AppStore.allRuleNames 15 true [] true true)
           (Negation (Negation (Var "a"))) (Var "a")).
  - reflexivity.
  - reflexivity.
Defined.

(** ** constructor.ts: parsing what [toString] prints *)

Section operands.
Variable parseInner : list Token → option (Result ParseResult).

(** What [parseNegation] returns, every binary level returns when a closing
    parenthesis or nothing follows. *)
Lemma levels_pass_negation (fuel : nat) (ts r : list Token) (e : BooleanExpression) :
  parseNegation parseInner ts = Some (Ok (e, r)) →
  (∀ o, In o ["&"; "|"; "=>"; "<=>"] → stops o r) →
  parseBiconditional parseInner fuel ts = Some (Ok (e, r)).
Proof.
  intros Hn Hr.
  unfold parseBiconditional, parseImplication, parseDisjunction, parseConjunction.
  repeat (apply parseLevel_stops; [| apply Hr; simpl; tauto]).
  exact Hn.
Qed.

(** Two operands with one operator between them, closed: the level of the
    operator builds the node, the levels below see one operand each and
    the levels above pass the node on. *)
Lemma parseBiconditional_operands (fuel : nat) (op : Operator)
      (ts r1 r : list Token) (l x : BooleanExpression) :
  parseNegation parseInner ts = Some (Ok (l, getOperatorSymbol op :: r1)) →
  parseNegation parseInner r1 = Some (Ok (x, r)) →
  (∀ o, In o ["&"; "|"; "=>"; "<=>"] → stops o r) →
  parseBiconditional parseInner (S fuel) ts = Some (Ok (BinaryOperation op l x, r)).
Proof.
  intros H1 H2 Hstop.
  assert (Hc2 : parseConjunction parseInner (S fuel) r1 = Some (Ok (x, r))).
  { apply parseLevel_stops; [exact H2 | apply Hstop; simpl; tauto]. }
  assert (Hd2 : parseDisjunction parseInner (S fuel) r1 = Some (Ok (x, r))).
  { apply parseLevel_stops; [exact Hc2 | apply Hstop; simpl; tauto]. }
  assert (Hi2 : parseImplication parseInner (S fuel) r1 = Some (Ok (x, r))).
  { apply parseLevel_stops; [exact Hd2 | apply Hstop; simpl; tauto]. }
  destruct op; simpl getOperatorSymbol in H1;
    unfold parseBiconditional, parseImplication, parseDisjunction, parseConjunction.
  - apply parseLevel_stops; [| apply Hstop; simpl; tauto].
    apply parseLevel_stops; [| apply Hstop; simpl; tauto].
    apply parseLevel_stops; [| apply Hstop; simpl; tauto].
    eapply parseLevel_once; [apply H1 | apply H2 | apply Hstop; simpl; tauto].
  - apply parseLevel_stops; [| apply Hstop; simpl; tauto].
    apply parseLevel_stops; [| apply Hstop; simpl; tauto].
    eapply parseLevel_once; [| apply Hc2 | apply Hstop; simpl; tauto].
    apply parseLevel_stops; [apply H1 | reflexivity].
  - apply parseLevel_stops; [| apply Hstop; simpl; tauto].
    eapply parseLevel_once; [| apply Hd2 | apply Hstop; simpl; tauto].
    apply parseLevel_stops; [| reflexivity].
    apply parseLevel_stops; [apply H1 | reflexivity].
  - eapply parseLevel_once; [| apply Hi2 | apply Hstop; simpl; tauto].
    apply parseLevel_stops; [| reflexivity].
    apply parseLevel_stops; [| reflexivity].
    apply parseLevel_stops; [apply H1 | reflexivity].
Qed.

Lemma parseNegation_constant (rest : list Token) :
  parseNegation parseInner ("true" :: rest) = Some (Ok (TrueConstant, rest)) ∧
  parseNegation parseInner ("false" :: rest) = Some (Ok (FalseConstant, rest)).
Proof. done. Qed.

Lemma parseNegation_atom (y : string) (rest : list Token) :
  isValidVariableName y = true →
  parseNegation parseInner (y :: rest) = Some (Ok (Var y, rest)).
Proof.
  intros Hy. destruct (valid_plain y Hy) as (_ & _ & Hn).
  rewrite parseNegation_primary by exact Hn. by apply parsePrimary_atom.
Qed.

Lemma parseNegation_group (ts rest : list Token) (e : BooleanExpression) :
  parseInner (ts ++ ")" :: rest) = Some (Ok (e, ")" :: rest)) →
  parseNegation parseInner ("(" :: ts ++ [")"] ++ rest) = Some (Ok (e, rest)).
Proof.
  intros Hin. rewrite parseNegation_primary by reflexivity.
  apply parsePrimary_group. exact Hin.
Qed.

Lemma parseNegation_not (ts rest : list Token) (e : BooleanExpression) :
  parseNegation parseInner ts = Some (Ok (e, rest)) →
  parseNegation parseInner ("!" :: ts) = Some (Ok (Negation e, rest)).
Proof. intros Hn. cbn [parseNegation]. by rewrite String.eqb_refl, Hn. Qed.
End operands.

Lemma tokensOf_not_nil (e : BooleanExpression) : tokensOf e ≠ [].
Proof.
  destruct e as [n | [] | op l r | |]; simpl; try discriminate.
  destruct (shouldParenthesize l); [discriminate |].
  intros Hnil. apply app_eq_nil in Hnil as [_ Hnil]. discriminate.
Qed.

Lemma parenDepth_le_length (e : BooleanExpression) :
  (parenDepth e ≤ length (tokensOf e))%nat.
Proof.
  induction e as [n | a IHa | op l IHl r IHr | |]; simpl; try lia.
  - destruct a; cbn [tokensOf parenDepth length] in *;
      rewrite ?length_app in *; cbn [length] in *; lia.
  - rewrite length_app. simpl.
    destruct (shouldParenthesize l), (shouldParenthesize r);
      simpl; rewrite ?length_app; simpl; lia.
Qed.

(** The descent on the tokens of a printed expression, as an operand and
    as a whole. *)
Lemma parse_printed (e : BooleanExpression) :
  wellNamed e = true →
  (∀ (fuel : nat) (rest : list Token), (parenDepth e ≤ fuel)%nat →
     parseNegation (parseExpression fuel) (operandTokens e ++ rest) =
       Some (Ok (e, rest))) ∧
  (∀ (fuel : nat) (rest : list Token),
     ((if isBinaryOperation e then parenDepth e else S (parenDepth e)) ≤ fuel)%nat →
     (∀ o, In o ["&"; "|"; "=>"; "<=>"] → stops o rest) →
     parseExpression fuel (tokensOf e ++ rest) = Some (Ok (e, rest))).
Proof.
  induction e as [n | a IHa | op l IHl r IHr | |]; intros Hnamed.
  - (* a variable *)
    assert (Hop : ∀ fuel rest,
              parseNegation (parseExpression fuel) (operandTokens (Var n) ++ rest) =
                Some (Ok (Var n, rest))).
    { intros fuel rest. by apply parseNegation_atom. }
    split; [intros; apply Hop |].
    intros [| fuel] rest Hfuel Hrest; [simpl in Hfuel; lia |].
    cbn [parseExpression]. apply levels_pass_negation; [apply Hop | exact Hrest].
  - (* a negation *)
    simpl in Hnamed. destruct (IHa Hnamed) as [IHop IHall].
    assert (Hop : ∀ fuel rest, (parenDepth (Negation a) ≤ fuel)%nat →
              parseNegation (parseExpression fuel) (tokensOf (Negation a) ++ rest) =
                Some (Ok (Negation a, rest))).
    { intros fuel rest Hfuel.
      destruct a as [m | b | op l r | |]; cbn [tokensOf] in *;
        rewrite <- ?app_comm_cons; apply parseNegation_not.
      - apply (IHop fuel rest). simpl in *. lia.
      - apply (IHop fuel rest). exact Hfuel.
      - rewrite <- app_assoc. apply parseNegation_group.
        apply IHall; [exact Hfuel | intros o Ho; by apply stops_close].
      - apply (parseNegation_group _ ["true"]).
        apply (IHall fuel (")" :: rest)); [exact Hfuel | intros o Ho; by apply stops_close].
      - apply (parseNegation_group _ ["false"]).
        apply (IHall fuel (")" :: rest)); [exact Hfuel | intros o Ho; by apply stops_close]. }
    split; [exact Hop |].
    intros [| fuel] rest Hfuel Hrest; [simpl in Hfuel; lia |].
    cbn [parseExpression]. apply levels_pass_negation; [| exact Hrest].
    apply Hop. cbn [isBinaryOperation] in Hfuel. lia.
  - (* a binary operation *)
    simpl in Hnamed. apply andb_true_iff in Hnamed as [Hl Hr].
    destruct (IHl Hl) as [IHlop _], (IHr Hr) as [IHrop _].
    assert (Hall : ∀ fuel rest, (parenDepth (BinaryOperation op l r) ≤ fuel)%nat →
              (∀ o, In o ["&"; "|"; "=>"; "<=>"] → stops o rest) →
              parseExpression fuel (tokensOf (BinaryOperation op l r) ++ rest) =
                Some (Ok (BinaryOperation op l r, rest))).
    { intros [| fuel] rest Hfuel Hrest; [simpl in Hfuel; lia |].
      simpl in Hfuel. cbn [parseExpression tokensOf].
      fold (operandTokens l). fold (operandTokens r).
      rewrite <- app_assoc, <- app_comm_cons.
      destruct (length (operandTokens l ++ getOperatorSymbol op :: operandTokens r ++ rest))
        as [| k] eqn:Hlen.
      { rewrite length_app in Hlen. simpl in Hlen. lia. }
      eapply parseBiconditional_operands; [| | exact Hrest].
      - apply IHlop. lia.
      - apply IHrop. lia. }
    split; [| exact Hall].
    intros fuel rest Hfuel. unfold operandTokens. cbn [shouldParenthesize isBinaryOperation].
    rewrite <- app_comm_cons, <- app_assoc. apply parseNegation_group.
    apply Hall; [exact Hfuel | intros o Ho; by apply stops_close].
  - split.
    + intros fuel rest _. apply parseNegation_constant.
    + intros [| fuel] rest Hfuel Hrest; [simpl in Hfuel; lia |].
      cbn [parseExpression]. apply levels_pass_negation; [| exact Hrest].
      apply parseNegation_constant.
  - split.
    + intros fuel rest _. apply parseNegation_constant.
    + intros [| fuel] rest Hfuel Hrest; [simpl in Hfuel; lia |].
      cbn [parseExpression]. apply levels_pass_negation; [| exact Hrest].
      apply parseNegation_constant.
Qed.

Lemma constructAST_tokensOf (e : BooleanExpression) :
  wellNamed e = true → constructAST (tokensOf e) = Some (Ok e).
Proof.
  intros Hnamed. unfold constructAST.
  pose proof (tokensOf_not_nil e) as Hnil.
  pose proof (parenDepth_le_length e) as Hdepth.
  destruct (parse_printed e Hnamed) as [_ Hall].
  specialize (Hall (S (length (tokensOf e))) []). rewrite app_nil_r in Hall.
  rewrite Hall; [by destruct (tokensOf e) | | done].
  destruct (isBinaryOperation e); lia.
Qed.

(** ** constructor.ts: tokenizing what [toString] prints *)

Lemma word_char_facts (c : ascii) :
  is_word_char c = true →
  isPrintable c = true ∧ isSeparator c = false ∧
  byteIs c 61 = false ∧ byteIs c 60 = false ∧ byteIs c 32 = false.
Proof.
  destruct c as [[] [] [] [] [] [] [] []]; vm_compute; intros H;
    try discriminate H; repeat split.
Qed.

Lemma printable_not_space (c : ascii) : isPrintable c = true → byteIs c 32 = false.
Proof.
  destruct c as [[] [] [] [] [] [] [] []]; vm_compute; intros H;
    try discriminate H; reflexivity.
Qed.

Lemma whitespacePrefix_printable (c : ascii) (rest : string) :
  isPrintable c = true → whitespacePrefix (String c rest) = None.
Proof.
  destruct c as [[] [] [] [] [] [] [] []]; vm_compute; intros H;
    try discriminate H; by destruct rest as [| c2 [| c3 rest]].
Qed.

Lemma whitespacePrefix_space (c : ascii) (rest : string) :
  byteIs c 32 = true → whitespacePrefix (String c rest) = Some rest.
Proof.
  destruct c as [[] [] [] [] [] [] [] []]; vm_compute; intros H;
    try discriminate H; reflexivity.
Qed.

Lemma spaced_collapse (fuel : nat) :
  ∀ (s : string) (b : bool),
    spaced s b = true → (String.length s ≤ fuel)%nat →
    collapseWhitespace fuel s b = s.
Proof.
  induction fuel as [| fuel IH]; intros [| c s] b Hs Hlen; simpl in Hlen;
    try reflexivity; try lia.
  cbn [collapseWhitespace]. cbn [spaced] in Hs.
  destruct (byteIs c 32) eqn:Hc.
  - apply andb_true_iff in Hs as [Hb Hs]. apply negb_true_iff in Hb as ->.
    rewrite whitespacePrefix_space by exact Hc.
    rewrite IH by (exact Hs || lia).
    f_equal. destruct c as [[] [] [] [] [] [] [] []]; try discriminate Hc. reflexivity.
  - apply andb_true_iff in Hs as [Hp Hs].
    rewrite whitespacePrefix_printable by exact Hp.
    by rewrite IH by (exact Hs || lia).
Qed.

Lemma spaced_dropLeading (s : string) :
  spaced s true = true → dropLeadingSpaces s = s.
Proof.
  destruct s as [| c s]; [reflexivity |]. simpl.
  destruct (byteIs c 32); [discriminate | reflexivity].
Qed.

Lemma spaced_dropTrailing (s : string) :
  ∀ b, spaced s b = true → dropTrailingSpaces s = s.
Proof.
  induction s as [| c s IH]; intros b Hs; [reflexivity |].
  cbn [spaced] in Hs. cbn [dropTrailingSpaces].
  destruct (byteIs c 32) eqn:Hc.
  - apply andb_true_iff in Hs as [_ Hs]. rewrite (IH true Hs).
    destruct s; [discriminate Hs | reflexivity].
  - apply andb_true_iff in Hs as [_ Hs]. rewrite (IH false Hs).
    by destruct s.
Qed.

Lemma normalizeWhitespace_spaced (s : string) :
  spaced s true = true → normalizeWhitespace s = s.
Proof.
  intros Hs. unfold normalizeWhitespace.
  assert (Hfalse : spaced s false = true).
  { destruct s as [| c s]; [discriminate Hs |]. cbn [spaced] in *.
    destruct (byteIs c 32); [discriminate Hs | exact Hs]. }
  rewrite (spaced_collapse _ s false Hfalse (Nat.le_refl _)).
  rewrite spaced_dropLeading by exact Hs. by apply (spaced_dropTrailing s true).
Qed.

Lemma spaced_app (s1 s2 : string) :
  ∀ b, spaced s1 b = true → spaced s2 false = true → spaced (s1 +:+ s2) b = true.
Proof.
  induction s1 as [| c s1 IH]; intros b H1 H2.
  - rewrite append_nil. by destruct b.
  - rewrite append_cons. cbn [spaced] in *.
    destruct (byteIs c 32).
    + apply andb_true_iff in H1 as [-> H1]. by rewrite (IH true).
    + apply andb_true_iff in H1 as [-> H1]. by rewrite (IH false).
Qed.

Lemma spaced_any (s : string) (b : bool) :
  spaced s true = true → spaced s b = true.
Proof.
  destruct b; [done |]. destruct s as [| c s]; [discriminate |]. cbn [spaced].
  by destruct (byteIs c 32).
Qed.

Lemma spaced_word (w : string) :
  string_forallb is_word_char w = true → w ≠ "" → spaced w true = true.
Proof.
  intros Hw Hne. destruct w as [| c w]; [done |]. clear Hne.
  assert (Hgen : ∀ (v : string) (b : bool), string_forallb is_word_char v = true →
            spaced v false = true).
  { induction v as [| d v IH]; intros b Hv; [reflexivity |].
    simpl in Hv. apply andb_true_iff in Hv as [Hd Hv].
    destruct (word_char_facts d Hd) as (Hp & _ & _ & _ & Hsp).
    cbn [spaced]. rewrite Hsp, Hp. by apply (IH false). }
  simpl in Hw. apply andb_true_iff in Hw as [Hc Hw].
  destruct (word_char_facts c Hc) as (Hp & _ & _ & _ & Hsp).
  cbn [spaced]. rewrite Hsp, Hp. by apply (Hgen w false).
Qed.

Lemma spaced_wrap (s : string) :
  spaced s true = true → spaced ("(" +:+ s +:+ ")") true = true.
Proof.
  intros Hs. rewrite append_cons, append_nil. cbn [spaced].
  change (byteIs "(" 32) with false. change (isPrintable "(") with true. cbn [andb].
  apply spaced_app; [by apply spaced_any | reflexivity].
Qed.

Lemma spaced_toString (e : BooleanExpression) :
  wellNamed e = true → spaced (toString e) true = true.
Proof.
  induction e as [n | a IHa | op l IHl r IHr | |]; intros Hnamed;
    try reflexivity.
  - simpl in *. apply spaced_word; [by apply valid_name_word_chars |].
    by destruct n.
  - simpl in Hnamed. specialize (IHa Hnamed).
    assert (Hplain : spaced ("!" +:+ toString a) true = true).
    { rewrite append_cons, append_nil. cbn [spaced].
      change (byteIs "!" 32) with false. change (isPrintable "!") with true.
      by apply spaced_any. }
    assert (Hgroup : spaced ("!(" +:+ toString a +:+ ")") true = true).
    { change ("!(" +:+ toString a +:+ ")") with ("!" +:+ ("(" +:+ toString a +:+ ")")).
      rewrite append_cons, append_nil. cbn [spaced].
      change (byteIs "!" 32) with false. change (isPrintable "!") with true.
      cbn [andb]. apply spaced_any. by apply spaced_wrap. }
    destruct a; assumption.
  - simpl in Hnamed. apply andb_true_iff in Hnamed as [Hl Hr].
    specialize (IHl Hl). specialize (IHr Hr). cbn [toString].
    assert (Hoperand : ∀ x, spaced (toString x) true = true →
              spaced (if shouldParenthesize x then "(" +:+ toString x +:+ ")"
                      else toString x) true = true).
    { intros x Hx. destruct (shouldParenthesize x); [by apply spaced_wrap | exact Hx]. }
    apply spaced_app; [by apply Hoperand |].
    rewrite append_cons, append_nil. cbn [spaced].
    change (byteIs " " 32) with true. cbn [negb andb].
    apply spaced_app; [by destruct op |].
    rewrite append_cons, append_nil. cbn [spaced].
    change (byteIs " " 32) with true. cbn [negb andb].
    by apply Hoperand.
Qed.

Lemma tokenizeLoop_other (c : ascii) (s cur : string) (acc : list Token) :
  isSeparator c = false → byteIs c 61 = false → byteIs c 60 = false →
  tokenizeLoop (String c s) cur acc = tokenizeLoop s (cur +:+ String c "") acc.
Proof.
  intros Hsep H61 H60. destruct s as [| c2 [| c3 s]]; cbn [tokenizeLoop];
    rewrite Hsep, ?H61, ?H60; reflexivity.
Qed.

Lemma tokenizeLoop_word (w : string) :
  ∀ (rest cur : string) (acc : list Token),
    string_forallb is_word_char w = true →
    tokenizeLoop (w +:+ rest) cur acc = tokenizeLoop rest (cur +:+ w) acc.
Proof.
  induction w as [| c w IH]; intros rest cur acc Hw.
  - by rewrite append_nil, append_empty_r.
  - simpl in Hw. apply andb_true_iff in Hw as [Hc Hw].
    destruct (word_char_facts c Hc) as (_ & Hsep & H61 & H60 & _).
    rewrite append_cons, tokenizeLoop_other by assumption.
    rewrite IH by exact Hw. by rewrite append_assoc, append_cons, append_nil.
Qed.

Lemma tokenizeLoop_flush (s cur : string) (acc : list Token) :
  cur ≠ "" → tokenEnds s →
  tokenizeLoop s cur acc = tokenizeLoop s "" (acc ++ [cur]).
Proof.
  intros Hcur Hs. destruct s as [| c s]; simpl in Hs.
  - cbn [tokenizeLoop pushToken]. by destruct cur.
  - cbn [tokenizeLoop]. rewrite Hs. cbn [pushToken]. by destruct cur.
Qed.

(** A word followed by the end of a token is one token. *)
Lemma tokenizeLoop_token (w rest : string) (acc : list Token) :
  string_forallb is_word_char w = true → w ≠ "" → tokenEnds rest →
  tokenizeLoop (w +:+ rest) "" acc = tokenizeLoop rest "" (acc ++ [w]).
Proof.
  intros Hw Hne Hrest. rewrite tokenizeLoop_word by exact Hw.
  rewrite append_nil. by apply tokenizeLoop_flush.
Qed.

Lemma tokenizeLoop_separator (c : ascii) (s : string) (acc : list Token) :
  isSeparator c = true →
  tokenizeLoop (String c s) "" acc =
  tokenizeLoop s "" (if byteIs c 32 then acc else acc ++ [String c ""]).
Proof. intros Hc. cbn [tokenizeLoop]. by rewrite Hc. Qed.

(** The operator between two operands, with its spaces. *)
Lemma tokenizeLoop_operator (op : Operator) (s : string) (acc : list Token) :
  tokenizeLoop (" " +:+ getOperatorSymbol op +:+ " " +:+ s) "" acc =
  tokenizeLoop s "" (acc ++ [getOperatorSymbol op]).
Proof. destruct op; destruct s as [| c [| c2 s]]; reflexivity. Qed.

Lemma tokenize_printed (e : BooleanExpression) :
  wellNamed e = true →
  ∀ (rest : string) (acc : list Token), tokenEnds rest →
    tokenizeLoop (toString e +:+ rest) "" acc =
    tokenizeLoop rest "" (acc ++ tokensOf e).
Proof.
  induction e as [n | a IHa | op l IHl r IHr | |]; intros Hnamed rest acc Hrest.
  - simpl in Hnamed. cbn [toString tokensOf].
    apply tokenizeLoop_token; [by apply valid_name_word_chars | by destruct n | done].
  - simpl in Hnamed. specialize (IHa Hnamed).
    assert (Hplain :
      tokenizeLoop (("!" +:+ toString a) +:+ rest) "" acc =
      tokenizeLoop rest "" (acc ++ "!" :: tokensOf a)).
    { rewrite append_assoc, append_cons, append_nil.
      rewrite tokenizeLoop_separator by reflexivity.
      change (byteIs "!" 32) with false. cbv iota.
      rewrite IHa by exact Hrest. by rewrite <- app_assoc. }
    assert (Hgroup :
      tokenizeLoop (("!(" +:+ toString a +:+ ")") +:+ rest) "" acc =
      tokenizeLoop rest "" (acc ++ "!" :: "(" :: tokensOf a ++ [")"])).
    { change ("!(" +:+ toString a +:+ ")")
        with (String "!" (String "(" (toString a +:+ ")"))).
      rewrite !append_cons.
      rewrite tokenizeLoop_separator by reflexivity.
      change (byteIs "!" 32) with false. cbv iota.
      rewrite tokenizeLoop_separator by reflexivity.
      change (byteIs "(" 32) with false. cbv iota.
      rewrite append_assoc, IHa by reflexivity.
      rewrite append_cons, append_nil, tokenizeLoop_separator by reflexivity.
      change (byteIs ")" 32) with false. cbv iota.
      f_equal. rewrite <- !app_assoc. reflexivity. }
    destruct a; assumption.
  - simpl in Hnamed. apply andb_true_iff in Hnamed as [Hl Hr].
    specialize (IHl Hl). specialize (IHr Hr).
    assert (Hoperand : ∀ x,
              (∀ rest acc, tokenEnds rest →
                 tokenizeLoop (toString x +:+ rest) "" acc =
                 tokenizeLoop rest "" (acc ++ tokensOf x)) →
              ∀ rest acc, tokenEnds rest →
                tokenizeLoop ((if shouldParenthesize x then "(" +:+ toString x +:+ ")"
                               else toString x) +:+ rest) "" acc =
                tokenizeLoop rest "" (acc ++ operandTokens x)).
    { intros x IH rest' acc' Hrest'. unfold operandTokens.
      destruct (shouldParenthesize x); [| by apply IH].
      rewrite append_cons, append_nil, append_cons.
      rewrite tokenizeLoop_separator by reflexivity.
      change (byteIs "(" 32) with false. cbv iota.
      rewrite append_assoc, IH by reflexivity.
      rewrite append_cons, append_nil, tokenizeLoop_separator by reflexivity.
      change (byteIs ")" 32) with false. cbv iota.
      f_equal. rewrite <- !app_assoc. reflexivity. }
    cbn [toString tokensOf]. fold (operandTokens l). fold (operandTokens r).
    rewrite append_assoc.
    rewrite (Hoperand l IHl) by reflexivity.
    rewrite !append_assoc, tokenizeLoop_operator.
    rewrite (Hoperand r IHr) by exact Hrest.
    f_equal. rewrite <- !app_assoc. reflexivity.
  - cbn [toString tokensOf]. by apply tokenizeLoop_token.
  - cbn [toString tokensOf]. by apply tokenizeLoop_token.
Qed.

Lemma simpleTokenize_toString (e : BooleanExpression) :
  wellNamed e = true → simpleTokenize (toString e) = tokensOf e.
Proof.
  intros Hnamed. unfold simpleTokenize.
  rewrite normalizeWhitespace_spaced by (by apply spaced_toString).
  rewrite <- (append_empty_r (toString e)).
  by rewrite (tokenize_printed e Hnamed "" []).
Qed.

(** Printing and parsing back: for an expression whose variable names are
    identifiers, [parseToAST] applied to what [toString] prints returns the
    expression; hence [toString] tells such expressions apart. *)
Theorem parseToAST_toString (e : BooleanExpression) :
  wellNamed e = true → parseToAST (toString e) = Some (Ok e).
Proof.
  intros Hnamed. unfold parseToAST.
  rewrite simpleTokenize_toString by exact Hnamed.
  by apply constructAST_tokensOf.
Qed.

Lemma parseToAST_toString_witness :
  parseToAST
    (toString (Negation (Implication (Conjunction (Var "p") (Negation TrueConstant))
                           (Var "q_1")))) =
  Some (Ok (Negation (Implication (Conjunction (Var "p") (Negation TrueConstant))
                        (Var "q_1")))).
Proof.
  apply (parseToAST_toString
           (Negation (Implication (Conjunction (Var "p") (Negation TrueConstant))
                        (Var "q_1")))).
  reflexivity.
Defined.

(** [toString] is injective on expressions whose variable names are
    identifiers: what is printed determines the expression. *)
Theorem toString_injective (e1 e2 : BooleanExpression) :
  wellNamed e1 = true → wellNamed e2 = true →
  toString e1 = toString e2 → e1 = e2.
Proof.
  intros H1 H2 Heq.
  pose proof (constructAST_tokensOf e1 H1) as P1.
  pose proof (constructAST_tokensOf e2 H2) as P2.
  rewrite <- (simpleTokenize_toString e1 H1) in P1.
  rewrite <- (simpleTokenize_toString e2 H2) in P2.
  rewrite Heq in P1. congruence.
Qed.

Lemma toString_injective_witness :
  Conjunction (Var "a") (Var "b") = Conjunction (Var "a") (Var "b").
Proof.
  apply (toString_injective (Conjunction (Var "a") (Var "b"))
           (Conjunction (Var "a") (Var "b"))); reflexivity.
Defined.

(** ** constructor.ts: tokens after a complete expression *)

(** [constructAST] returns the expression of [parseExpression] and drops
    its [nextIndex]: when the tokens of a printed expression are followed
    by a token that is not a binary operator, that token and all that
    comes after it are ignored. *)
Theorem constructAST_ignores_trailing_tokens
    (e : BooleanExpression) (t : Token) (rest : list Token) :
  wellNamed e = true →
  ¬ In t ["&"; "|"; "=>"; "<=>"] →
  constructAST (tokensOf e ++ t :: rest) = Some (Ok e).
Proof.
  intros Hnamed Ht. unfold constructAST.
  pose proof (tokensOf_not_nil e) as Hnil.
  pose proof (parenDepth_le_length e) as Hdepth.
  destruct (parse_printed e Hnamed) as [_ Hall].
  specialize (Hall (S (length (tokensOf e ++ t :: rest))) (t :: rest)).
  rewrite Hall.
  - by destruct (tokensOf e).
  - rewrite length_app. destruct (isBinaryOperation e); lia.
  - intros o Ho. simpl. apply String.eqb_neq. intros ->.
    by apply Ht.
Qed.

Lemma constructAST_ignores_trailing_tokens_witness :
  constructAST ["a"; "&"; "b"; "c"; "|"; "d"] =
    Some (Ok (Conjunction (Var "a") (Var "b"))).
Proof.
  apply (constructAST_ignores_trailing_tokens
           (Conjunction (Var "a") (Var "b")) "c" ["|"; "d"]).
  - reflexivity.
  - simpl. intros [Hin | [Hin | [Hin | [Hin | []]]]]; discriminate.
Defined.

(** ** parser: balanced parentheses *)

Lemma countToken_cons (t x : Token) (ts : list Token) :
  countToken t (x :: ts) = (if String.eqb x t then 1 else 0) + countToken t ts.
Proof.
  unfold countToken. rewrite filter_cons.
  destruct (String.eqb_spec x t) as [-> | Hne].
  - rewrite decide_True by done. cbn [length]. lia.
  - rewrite decide_False by done. lia.
Qed.

Lemma countToken_nil (t : Token) : countToken t [] = 0.
Proof. reflexivity. Qed.

(** The loop of [validateParentheses] from the depth [d]: it ends with the
    depth of the whole list when no prefix takes the depth below zero, and
    throws otherwise. *)
Lemma validateParentheses_loop_spec (ts : list Token) (d : Z) :
  (validateParentheses_loop ts d = Ok (d + countToken "(" ts - countToken ")" ts) ∧
   ∀ n, 0 ≤ d + countToken "(" (take n ts) - countToken ")" (take n ts) ∨ d < 0) ∨
  (validateParentheses_loop ts d =
     Error "Unbalanced parentheses: closing parenthesis without matching opening" ∧
   ∃ n, d + countToken "(" (take n ts) - countToken ")" (take n ts) < 0).
Proof.
  revert d. induction ts as [| t ts IH]; intros d.
  - left. split.
    + simpl. rewrite !countToken_nil. f_equal; lia.
    + intros n. rewrite take_nil, !countToken_nil. lia.
  - cbn [validateParentheses_loop].
    destruct (String.eqb_spec t "(") as [-> | Hopen].
    + destruct (IH (d + 1)) as [[Hok Hpre] | [Herr [n Hn]]].
      * left. split.
        -- rewrite Hok, !countToken_cons. simpl. f_equal; lia.
        -- intros [| n]; [rewrite take_0, !countToken_nil; lia |].
           cbn [take]. rewrite !countToken_cons. simpl.
           specialize (Hpre n). lia.
      * right. split; [exact Herr |]. exists (S n).
        cbn [take]. rewrite !countToken_cons. simpl. lia.
    + destruct (String.eqb_spec t ")") as [-> | Hclose].
      * destruct (Z.ltb_spec (d - 1) 0) as [Hneg | Hpos].
        -- right. split; [reflexivity |]. exists 1%nat.
           cbn [take]. rewrite take_0, !countToken_cons, !countToken_nil. simpl. lia.
        -- destruct (IH (d - 1)) as [[Hok Hpre] | [Herr [n Hn]]].
           ++ left. split.
              ** rewrite Hok, !countToken_cons. simpl. f_equal; lia.
              ** intros [| n]; [rewrite take_0, !countToken_nil; lia |].
                 cbn [take]. rewrite !countToken_cons. simpl.
                 specialize (Hpre n). lia.
           ++ right. split; [exact Herr |]. exists (S n).
              cbn [take]. rewrite !countToken_cons. simpl. lia.
      * assert (String.eqb t "(" = false) as Ho by by apply String.eqb_neq.
        assert (String.eqb t ")" = false) as Hc by by apply String.eqb_neq.
        destruct (IH d) as [[Hok Hpre] | [Herr [n Hn]]].
        -- left. split.
           ++ rewrite Hok, !countToken_cons, Ho, Hc. f_equal; lia.
           ++ intros [| n]; [rewrite take_0, !countToken_nil; lia |].
              cbn [take]. rewrite !countToken_cons, Ho, Hc.
              specialize (Hpre n). lia.
        -- right. split; [exact Herr |]. exists (S n).
           cbn [take]. rewrite !countToken_cons, Ho, Hc. lia.
Qed.

(** [validateParentheses] accepts exactly the balanced token lists: no
    prefix has more closing than opening parentheses, and the whole list
    has as many of each. *)
Theorem validateParentheses_balanced (tokens : list Token) :
  validateParentheses tokens = Ok tt ↔
  (∀ n, countToken ")" (take n tokens) ≤ countToken "(" (take n tokens)) ∧
  countToken "(" tokens = countToken ")" tokens.
Proof.
  unfold validateParentheses.
  destruct (validateParentheses_loop_spec tokens 0) as [[Hok Hpre] | [Herr [n Hn]]].
  - rewrite Hok. split.
    + intros Hres. split.
      * intros n. specialize (Hpre n). lia.
      * destruct (Z.eqb_spec (0 + countToken "(" tokens - countToken ")" tokens) 0);
          [lia | discriminate].
    + intros [_ Heq].
      destruct (Z.eqb_spec (0 + countToken "(" tokens - countToken ")" tokens) 0);
        [reflexivity | lia].
  - rewrite Herr. split; [discriminate |].
    intros [Hpre _]. specialize (Hpre n). lia.
Qed.

(** The two messages of [validateParentheses]: when it throws, either some
    prefix has more closing than opening parentheses, which is reported as
    a closing parenthesis without a matching opening one, or no prefix has
    and the opening parentheses are in surplus, which is reported as a
    missing closing parenthesis. *)
Theorem validateParentheses_errors (tokens : list Token) :
  validateParentheses tokens ≠ Ok tt →
  ((∃ n, countToken "(" (take n tokens) < countToken ")" (take n tokens)) ∧
   validateParentheses tokens =
     Error "Unbalanced parentheses: closing parenthesis without matching opening") ∨
  ((∀ n, countToken ")" (take n tokens) ≤ countToken "(" (take n tokens)) ∧
   countToken ")" tokens < countToken "(" tokens ∧
   validateParentheses tokens =
     Error "Unbalanced parentheses: missing closing parenthesis").
Proof.
  unfold validateParentheses.
  destruct (validateParentheses_loop_spec tokens 0) as [[Hok Hpre] | [Herr [n Hn]]].
  - rewrite Hok. intros Hres. right.
    assert (Hall : ∀ n, countToken ")" (take n tokens) ≤ countToken "(" (take n tokens)).
    { intros n. specialize (Hpre n). lia. }
    pose proof (Hall (length tokens)) as Hlast. rewrite firstn_all in Hlast.
    destruct (Z.eqb_spec (0 + countToken "(" tokens - countToken ")" tokens) 0);
      [done |].
    split; [exact Hall |]. split; [lia | reflexivity].
  - rewrite Herr. intros _. left. split; [| reflexivity].
    exists n. lia.
Qed.

Lemma validateParentheses_errors_witness :
  validateParentheses [")"; "a"; "("] =
    Error "Unbalanced parentheses: closing parenthesis without matching opening".
Proof.
  destruct (validateParentheses_errors [")"; "a"; "("]) as [[_ Hres] | [_ [Hlt _]]].
  - discriminate.
  - exact Hres.
  - vm_compute in Hlt. discriminate.
Defined.
